(** * StepLoop: a shallow embedding of [steploop.ts]

    The [StepLoop] class runs a recurring step at a target rate, with
    lifecycle hooks that a host overrides in a subclass.  The embedding
    keeps the private fields of the class in a record, the host
    environment (clock, pending timers, pending animation frames, rejected
    promises whose handler has not run yet) in a second record, and writes
    every method as a computation that threads both, may complete abruptly
    (a JavaScript exception), and emits the observable events it causes.

    Numbers: step counts and lifespans are integers ([Z]); timestamps,
    rates and delays are exact rationals ([Q]) standing for the doubles
    of the source. *)

From Stdlib Require Import ZArith QArith Qminmax List Bool Lia.
Import ListNotations.

Local Open Scope Z_scope.

(** ** Data *)

(** The overridable methods of the class. *)
Inductive hook_name : Type :=
  | Initial | Background | Before | Step | After | Final | OnPause | OnPlay.

(** The private fields of [StepLoop], with the names of the source.  The
    handles returned by [setTimeout] and [requestAnimationFrame] are
    positive numbers. *)
Record StepLoop : Type := mkStepLoop {
  _step_num : Z;
  _lifespan : option Z;
  _sps : Q;
  _interval : Q;
  _startTime : Q;
  _lastStepTime : Q;
  _lastStepDuration : Q;
  _timeoutId : option positive;
  _initialized : bool;
  _running : bool;
  _paused : bool;
  _kill : bool;
  _RAFAvailable : bool;
  _RAFActive : bool;
  _RAFId : option positive
}.

(** The host environment: [performance.now()], the timers registered with
    [setTimeout] (handle and due time), the callbacks registered with
    [requestAnimationFrame], and the rejection handlers attached with
    [.catch] to promises that are rejected, which the environment has
    still to run (each named by the hook whose promise it watches). *)
Record Env : Type := mkEnv {
  clock : Q;
  next_handle : positive;
  timers : list (positive * Q);
  frames : list positive;
  has_requestAnimationFrame : bool;
  rejections : list hook_name
}.

Record Sys : Type := mkSys { loop : StepLoop; env : Env }.

(** What an observer of the program sees. *)
Inductive event : Type :=
  | Call (h : hook_name) (step : Z)      (* hook entered; [get_step()] there *)
  | ConsoleError (h : hook_name)         (* console.error('Error in h():') *)
  | SetTimeout (id : positive) (delay : Q)
  | ClearTimeout (id : positive)
  | RequestAnimationFrame (id : positive)
  | CancelAnimationFrame (id : positive).

Inductive outcome : Type := Normal | Thrown.

(** What becomes of the promise an [async] method returns: rejected, or
    not (fulfilled, or never settled). *)
Inductive settlement : Type := Fulfilled | Rejected.

(** ** Field updates *)

Definition set_step_num v l := mkStepLoop v (_lifespan l) (_sps l) (_interval l)
  (_startTime l) (_lastStepTime l) (_lastStepDuration l) (_timeoutId l)
  (_initialized l) (_running l) (_paused l) (_kill l) (_RAFAvailable l)
  (_RAFActive l) (_RAFId l).
Definition set_lifespan v l := mkStepLoop (_step_num l) v (_sps l) (_interval l)
  (_startTime l) (_lastStepTime l) (_lastStepDuration l) (_timeoutId l)
  (_initialized l) (_running l) (_paused l) (_kill l) (_RAFAvailable l)
  (_RAFActive l) (_RAFId l).
Definition set_rate v l := mkStepLoop (_step_num l) (_lifespan l) v (_interval l)
  (_startTime l) (_lastStepTime l) (_lastStepDuration l) (_timeoutId l)
  (_initialized l) (_running l) (_paused l) (_kill l) (_RAFAvailable l)
  (_RAFActive l) (_RAFId l).
Definition set_interval v l := mkStepLoop (_step_num l) (_lifespan l) (_sps l) v
  (_startTime l) (_lastStepTime l) (_lastStepDuration l) (_timeoutId l)
  (_initialized l) (_running l) (_paused l) (_kill l) (_RAFAvailable l)
  (_RAFActive l) (_RAFId l).
Definition set_startTime v l := mkStepLoop (_step_num l) (_lifespan l) (_sps l)
  (_interval l) v (_lastStepTime l) (_lastStepDuration l) (_timeoutId l)
  (_initialized l) (_running l) (_paused l) (_kill l) (_RAFAvailable l)
  (_RAFActive l) (_RAFId l).
Definition set_lastStepTime v l := mkStepLoop (_step_num l) (_lifespan l) (_sps l)
  (_interval l) (_startTime l) v (_lastStepDuration l) (_timeoutId l)
  (_initialized l) (_running l) (_paused l) (_kill l) (_RAFAvailable l)
  (_RAFActive l) (_RAFId l).
Definition set_lastStepDuration v l := mkStepLoop (_step_num l) (_lifespan l)
  (_sps l) (_interval l) (_startTime l) (_lastStepTime l) v (_timeoutId l)
  (_initialized l) (_running l) (_paused l) (_kill l) (_RAFAvailable l)
  (_RAFActive l) (_RAFId l).
Definition set_timeoutId v l := mkStepLoop (_step_num l) (_lifespan l) (_sps l)
  (_interval l) (_startTime l) (_lastStepTime l) (_lastStepDuration l) v
  (_initialized l) (_running l) (_paused l) (_kill l) (_RAFAvailable l)
  (_RAFActive l) (_RAFId l).
Definition set_initialized v l := mkStepLoop (_step_num l) (_lifespan l) (_sps l)
  (_interval l) (_startTime l) (_lastStepTime l) (_lastStepDuration l)
  (_timeoutId l) v (_running l) (_paused l) (_kill l) (_RAFAvailable l)
  (_RAFActive l) (_RAFId l).
Definition set_running v l := mkStepLoop (_step_num l) (_lifespan l) (_sps l)
  (_interval l) (_startTime l) (_lastStepTime l) (_lastStepDuration l)
  (_timeoutId l) (_initialized l) v (_paused l) (_kill l) (_RAFAvailable l)
  (_RAFActive l) (_RAFId l).
Definition set_paused v l := mkStepLoop (_step_num l) (_lifespan l) (_sps l)
  (_interval l) (_startTime l) (_lastStepTime l) (_lastStepDuration l)
  (_timeoutId l) (_initialized l) (_running l) v (_kill l) (_RAFAvailable l)
  (_RAFActive l) (_RAFId l).
Definition set_kill v l := mkStepLoop (_step_num l) (_lifespan l) (_sps l)
  (_interval l) (_startTime l) (_lastStepTime l) (_lastStepDuration l)
  (_timeoutId l) (_initialized l) (_running l) (_paused l) v (_RAFAvailable l)
  (_RAFActive l) (_RAFId l).
Definition set_RAFActive v l := mkStepLoop (_step_num l) (_lifespan l) (_sps l)
  (_interval l) (_startTime l) (_lastStepTime l) (_lastStepDuration l)
  (_timeoutId l) (_initialized l) (_running l) (_paused l) (_kill l)
  (_RAFAvailable l) v (_RAFId l).
Definition set_RAFId v l := mkStepLoop (_step_num l) (_lifespan l) (_sps l)
  (_interval l) (_startTime l) (_lastStepTime l) (_lastStepDuration l)
  (_timeoutId l) (_initialized l) (_running l) (_paused l) (_kill l)
  (_RAFAvailable l) (_RAFActive l) v.

(** ** Computations

    A method body is a function from the state to an outcome, the state it
    leaves (kept also when it throws, as in JavaScript) and the events it
    emitted, oldest first. *)

Definition M : Type := Sys -> outcome * Sys * list event.

Definition skip : M := fun s => (Normal, s, []).

Definition andThen (a b : M) : M := fun s =>
  match a s with
  | (Normal, s1, t1) => let '(o, s2, t2) := b s1 in (o, s2, t1 ++ t2)
  | (Thrown, s1, t1) => (Thrown, s1, t1)
  end.

Definition tryCatch (a handler : M) : M := fun s =>
  match a s with
  | (Thrown, s1, t1) => let '(o, s2, t2) := handler s1 in (o, s2, t1 ++ t2)
  | r => r
  end.

Definition emit (e : event) : M := fun s => (Normal, s, [e]).

Definition assign (f : StepLoop -> StepLoop) : M :=
  fun s => (Normal, mkSys (f (loop s)) (env s), []).

Declare Scope js_scope.
Delimit Scope js_scope with js.
Notation "a ;; b" := (andThen a b) (at level 61, right associativity) : js_scope.
Notation "'this' <- f" := (assign f) (at level 60) : js_scope.

Definition result_of (r : outcome * Sys * list event) : outcome := fst (fst r).
Definition state_of (r : outcome * Sys * list event) : Sys := snd (fst r).
Definition events_of (r : outcome * Sys * list event) : list event := snd r.

(** ** Host environment primitives *)

Definition performance_now (s : Sys) : Q := clock (env s).

(** [k(performance.now())] *)
Definition withNow (k : Q -> M) : M := fun s => k (performance_now s) s.

Definition forget (id : positive) (l : list positive) : list positive :=
  filter (fun x => negb (Pos.eqb x id)) l.
Definition forget_timer (id : positive) (l : list (positive * Q)) : list (positive * Q) :=
  filter (fun x => negb (Pos.eqb (fst x) id)) l.

(** [setTimeout(cb, delay)]: a fresh handle; the timer is due [delay] ms
    from now. *)
Definition setTimeout (delay : Q) (e : Env) : positive * Env :=
  (next_handle e,
   mkEnv (clock e) (Pos.succ (next_handle e))
         (timers e ++ [(next_handle e, (clock e + delay)%Q)]) (frames e)
         (has_requestAnimationFrame e) (rejections e)).

Definition clearTimeout (id : positive) (e : Env) : Env :=
  mkEnv (clock e) (next_handle e) (forget_timer id (timers e)) (frames e)
        (has_requestAnimationFrame e) (rejections e).

Definition requestAnimationFrame (e : Env) : positive * Env :=
  (next_handle e,
   mkEnv (clock e) (Pos.succ (next_handle e)) (timers e)
         (frames e ++ [next_handle e]) (has_requestAnimationFrame e)
         (rejections e)).

Definition cancelAnimationFrame (id : positive) (e : Env) : Env :=
  mkEnv (clock e) (next_handle e) (timers e) (forget id (frames e))
        (has_requestAnimationFrame e) (rejections e).

(** A rejection handler is left for the environment to run. *)
Definition queue_rejection (h : hook_name) (e : Env) : Env :=
  mkEnv (clock e) (next_handle e) (timers e) (frames e)
        (has_requestAnimationFrame e) (rejections e ++ [h]).

Definition set_rejections (r : list hook_name) (e : Env) : Env :=
  mkEnv (clock e) (next_handle e) (timers e) (frames e)
        (has_requestAnimationFrame e) r.

(** Number of callbacks the environment still owes the loop. *)
Definition pending (e : Env) : nat := (length (timers e) + length (frames e))%nat.

(** ** The class *)

(** [constructor(sps = 60, lifespan = undefined, RAF = false)], with the
    field initialisers of the class; [_RAFAvailable] is read from the
    environment when the instance is created. *)
Definition new_StepLoop (sps : Q) (lifespan : option Z) (RAF : bool)
    (raf_defined : bool) : StepLoop :=
  mkStepLoop 0 lifespan sps (1000 / sps)%Q 0%Q 0%Q 0%Q None
             false false false false raf_defined RAF None.

Definition fresh_env (raf_defined : bool) : Env :=
  mkEnv 0%Q 1%positive [] [] raf_defined [].

Definition create (sps : Q) (lifespan : option Z) (RAF : bool)
    (raf_defined : bool) : Sys :=
  mkSys (new_StepLoop sps lifespan RAF raf_defined) (fresh_env raf_defined).

(** *** Accessors *)

Definition is_running (l : StepLoop) : bool := _running l.
Definition is_paused (l : StepLoop) : bool := _paused l.
Definition get_step (l : StepLoop) : Z := _step_num l.
Definition get_sps (l : StepLoop) : Q := _sps l.
Definition get_lifespan (l : StepLoop) : option Z := _lifespan l.
Definition get_real_sps (l : StepLoop) : Q :=
  if Qeq_bool (_lastStepDuration l) 0 then 0%Q else (1000 / _lastStepDuration l)%Q.

(** *** Setters *)

Definition set_sps (sps : Q) (l : StepLoop) : Q * StepLoop :=
  let l1 := set_rate sps l in
  let l2 := set_interval (1000 / _sps l1)%Q l1 in
  (_sps l2, l2).

Definition set_use_RAF (status : bool) (l : StepLoop) : bool * StepLoop :=
  let l1 := set_RAFActive status l in (_RAFActive l1, l1).

(** [this._lifespan || 0] *)
Definition or_zero (o : option Z) : Z := match o with Some n => n | None => 0 end.

(** [Number.isSafeInteger]: the integers on which the arithmetic of the
    source's doubles is exact. *)
Definition safe_integer (n : Z) : Prop := - (2 ^ 53 - 1) <= n <= 2 ^ 53 - 1.

(** [steps] is [None] when [typeof steps != "number"]. *)
Definition extend_lifespan (steps : option Z) (l : StepLoop) : option Z * StepLoop :=
  if negb (_initialized l) then (None, l)
  else
    match steps with
    | None => let l1 := set_lifespan None l in (_lifespan l1, l1)
    | Some d =>
        let n := or_zero (_lifespan l) + d in
        let l1 := set_lifespan (Some n) l in
        let l2 := if _kill l1 && (_step_num l1 <? n) then set_kill false l1 else l1 in
        (_lifespan l2, l2)
    end.

(** *** Hooks and the methods that call them *)

(** A hook is host code: it sees the state, may change it (a hook can call
    back into the loop) and may throw. *)
Definition hook : Type := Sys -> outcome * Sys.

(** A subclass of [StepLoop]: one body per overridable method.
    [background] is declared [async]: the call [this.background()] returns
    a promise, unless an override that is not [async] throws before it
    returns one; [background_settles] tells what becomes of the promise
    returned by the call made in a given state. *)
Record Host : Type := mkHost {
  initial : hook;
  background : hook;
  before : hook;
  step : hook;
  after : hook;
  final : hook;
  on_pause : hook;
  on_play : hook;
  background_settles : Sys -> settlement
}.

(** The base class: every hook is [return;]. *)
Definition no_op : hook := fun s => (Normal, s).
Definition fulfilled : Sys -> settlement := fun _ => Fulfilled.
Definition base_class : Host :=
  mkHost no_op no_op no_op no_op no_op no_op no_op no_op fulfilled.

(** A hook that always throws, leaving the state alone. *)
Definition throwing : hook := fun s => (Thrown, s).

(** Subclasses that override one hook with a body that throws. *)
Definition crashing_step : Host :=
  mkHost no_op no_op no_op throwing no_op no_op no_op no_op fulfilled.
Definition crashing_on_pause : Host :=
  mkHost no_op no_op no_op no_op no_op no_op throwing no_op fulfilled.
Definition crashing_on_play : Host :=
  mkHost no_op no_op no_op no_op no_op no_op no_op throwing fulfilled.

(** A subclass whose five guarded hooks all throw and whose [async
    background()] throws in its body: the call returns a promise that is
    rejected. *)
Definition rejected : Sys -> settlement := fun _ => Rejected.
Definition failing_hooks : Host :=
  mkHost throwing no_op throwing throwing throwing throwing no_op no_op rejected.

(** A subclass that overrides [background] with a method that is not
    [async] and throws. *)
Definition crashing_background : Host :=
  mkHost no_op throwing no_op no_op no_op no_op no_op no_op fulfilled.

Definition body (host : Host) (h : hook_name) : hook :=
  match h with
  | Initial => initial host
  | Background => background host
  | Before => before host
  | Step => step host
  | After => after host
  | Final => final host
  | OnPause => on_pause host
  | OnPlay => on_play host
  end.

Section Methods.

Variable host : Host.

Local Open Scope js_scope.

(** [this.h()]: the call is observed together with the step number the
    hook reads on entry. *)
Definition invoke (h : hook_name) : M := fun s =>
  let '(o, s1) := body host h s in (o, s1, [Call h (get_step (loop s))]).

(** [try { this.h(); } catch (error) { console.error('Error in h():', error); }] *)
Definition guarded (h : hook_name) : M :=
  tryCatch (invoke h) (emit (ConsoleError h)).

(** [promise.catch(error => console.error('Error in h():', error))]: the
    handler of a promise that is rejected does not run here; it is left
    for the environment, which runs it once the current code has
    returned. *)
Definition promise_catch (p : settlement) (h : hook_name) : M :=
  match p with
  | Rejected => fun s => (Normal, mkSys (loop s) (queue_rejection h (env s)), [])
  | Fulfilled => skip
  end.

(** [this.background().catch(error => console.error(...))]: the call is
    outside any [try], so what it throws before returning its promise
    leaves [_run]. *)
Definition spawn_background : M := fun s =>
  (invoke Background ;;
   promise_catch (background_settles host s) Background) s.

Definition _cancel_next_step : M := fun s =>
  let l := loop s in
  match _timeoutId l, _RAFActive l with
  | Some id, false =>
      (Normal, mkSys (set_timeoutId None l) (clearTimeout id (env s)),
       [ClearTimeout id])
  | _, _ =>
      match _RAFId l, _RAFActive l with
      | Some fid, true =>
          (Normal, mkSys (set_RAFId None l) (cancelAnimationFrame fid (env s)),
           [CancelAnimationFrame fid])
      | _, _ => (Normal, s, [])
      end
  end.

(** [this._kill || (this._lifespan && (this._step_num >= this._lifespan))];
    a lifespan of [0] is falsy, like [undefined]. *)
Definition _check_for_end_trigger (l : StepLoop) : bool :=
  _kill l ||
  match _lifespan l with
  | Some n => negb (n =? 0) && (n <=? _step_num l)
  | None => false
  end.

Definition _init : M :=
  this <- set_kill false ;;
  this <- set_initialized true ;;
  this <- set_step_num 0 ;;
  guarded Initial.

Definition _term : M :=
  this <- set_running false ;;
  this <- set_paused false ;;
  _cancel_next_step ;;
  this <- set_kill true ;;
  guarded Final.

(** The callback registered by [_request_next_step] is [_run]; which
    timestamp it receives is decided when the environment fires it. *)
Definition _request_next_step (timestamp : Q) : M := fun s =>
  let l := loop s in
  if negb (_running l) then (Normal, s, [])
  else if _RAFActive l && _RAFAvailable l then
    let '(id, e) := requestAnimationFrame (env s) in
    (Normal, mkSys (set_RAFId (Some id) l) e, [RequestAnimationFrame id])
  else
    let now := performance_now s in
    let nextStepTime := (_startTime l + inject_Z (_step_num l) * _interval l)%Q in
    let delay := Qmax 0 (nextStepTime - now) in
    let '(id, e) := setTimeout delay (env s) in
    (Normal, mkSys (set_timeoutId (Some id) l) e, [SetTimeout id delay]).

Definition _run (timestamp : Q) : M := fun s =>
  if _running (loop s) then
    if _check_for_end_trigger (loop s) then _term s
    else
      (spawn_background ;;
       guarded Before ;;
       guarded Step ;;
       guarded After ;;
       this <- (fun l => set_step_num (_step_num l + 1) l) ;;
       this <- (fun l => set_lastStepDuration (timestamp - _lastStepTime l)%Q l) ;;
       this <- set_lastStepTime timestamp ;;
       _request_next_step timestamp) s
  else (Normal, s, []).

Definition _main : M :=
  _init ;; withNow _run.

Definition start : M :=
  this <- set_running true ;;
  withNow (fun now => this <- set_startTime now) ;;
  _main.

Definition pause : M := fun s =>
  let l := loop s in
  if negb (_initialized l) || negb (_running l) || _kill l then (Normal, s, [])
  else
    (this <- set_running false ;;
     this <- set_paused true ;;
     _cancel_next_step ;;
     invoke OnPause) s.

Definition play : M := fun s =>
  let l := loop s in
  if negb (_initialized l) || _running l || _kill l then (Normal, s, [])
  else
    (this <- set_running true ;;
     this <- set_paused false ;;
     withNow (fun now => this <- (fun l1 =>
       set_startTime (now - inject_Z (_step_num l1) * _interval l1)%Q l1)) ;;
     invoke OnPlay ;;
     withNow _run) s.

Definition finish : M := fun s =>
  let l := loop s in
  if negb (_initialized l) || _kill l then (Normal, s, [])
  else
    (this <- set_running false ;;
     this <- set_paused false ;;
     this <- set_kill true ;;
     _cancel_next_step ;;
     _term) s.

(** *** The event loop

    The environment runs a pending callback at most once.  A timer fires
    no earlier than its due time; an animation frame passes the refresh
    timestamp to the callback.  The handler attached to a promise that is
    rejected runs in a turn of its own, some time after the code that
    attached it has returned: never inside a method of the loop. *)

Definition due_of (id : positive) (l : list (positive * Q)) : option Q :=
  match find (fun x => Pos.eqb (fst x) id) l with
  | Some x => Some (snd x)
  | None => None
  end.

Definition set_clock (t : Q) (e : Env) : Env :=
  mkEnv t (next_handle e) (timers e) (frames e) (has_requestAnimationFrame e)
        (rejections e).

Definition timer_fires (id : positive) : M := fun s =>
  match due_of id (timers (env s)) with
  | Some due =>
      let e := set_clock (Qmax (clock (env s)) due) (clearTimeout id (env s)) in
      withNow _run (mkSys (loop s) e)
  | None => (Normal, s, [])
  end.

Definition frame_fires (id : positive) (nextTimestamp : Q) : M := fun s =>
  if existsb (Pos.eqb id) (frames (env s)) then
    _run nextTimestamp (mkSys (loop s) (cancelAnimationFrame id (env s)))
  else (Normal, s, []).

(** Time passing while nothing runs. *)
Definition elapse (dt : Q) : M := fun s =>
  (Normal, mkSys (loop s) (set_clock (clock (env s) + dt)%Q (env s)), []).

(** The environment runs the oldest rejection handler it still holds:
    [error => console.error('Error in h():', error)]. *)
Definition rejection_handler : M := fun s =>
  match rejections (env s) with
  | h :: rest =>
      (Normal, mkSys (loop s) (set_rejections rest (env s)), [ConsoleError h])
  | [] => (Normal, s, [])
  end.

(** The oldest pending callback fires; a frame is given the current time
    as its refresh timestamp. *)
Definition tick : M := fun s =>
  match timers (env s), frames (env s) with
  | (id, _) :: _, _ => timer_fires id s
  | [], id :: _ => frame_fires id (performance_now s) s
  | [], [] => (Normal, s, [])
  end.

Fixpoint ticks (n : nat) : M :=
  match n with
  | O => skip
  | S k => tick ;; ticks k
  end.

(** *** Host scripts: what the code that owns the loop can do to it *)

Inductive op : Type :=
  | OpStart | OpPause | OpPlay | OpFinish
  | OpSetSps (sps : Q)
  | OpSetUseRAF (status : bool)
  | OpExtendLifespan (steps : option Z)
  | OpTimerFires (id : positive)
  | OpFrameFires (id : positive) (nextTimestamp : Q)
  | OpElapse (dt : Q)
  | OpRejectionHandler.

Definition exec (o : op) : M :=
  match o with
  | OpStart => start
  | OpPause => pause
  | OpPlay => play
  | OpFinish => finish
  | OpSetSps sps => this <- (fun l => snd (set_sps sps l))
  | OpSetUseRAF b => this <- (fun l => snd (set_use_RAF b l))
  | OpExtendLifespan d => this <- (fun l => snd (extend_lifespan d l))
  | OpTimerFires id => timer_fires id
  | OpFrameFires id ts => frame_fires id ts
  | OpElapse dt => elapse dt
  | OpRejectionHandler => rejection_handler
  end.

(** A script stops at the first uncaught exception. *)
Fixpoint script (ops : list op) : M :=
  match ops with
  | [] => skip
  | o :: rest => exec o ;; script rest
  end.

End Methods.

(** ** Hosts that leave the loop alone

    A passive hook may read the state and may throw, but neither calls back
    into the loop nor touches the scheduler. *)

Definition passive (h : hook) : Prop := forall s, snd (h s) = s.
Definition passive_host (host : Host) : Prop := forall n, passive (body host n).

(** A hook that returns normally. *)
Definition returns (h : hook) : Prop := forall s, fst (h s) = Normal.

(** The hook calls among a list of events, with the step number each saw. *)
Fixpoint calls_of (t : list event) : list (hook_name * Z) :=
  match t with
  | [] => []
  | Call h n :: rest => (h, n) :: calls_of rest
  | _ :: rest => calls_of rest
  end.

(** The calls of one cycle run at step [n]. *)
Definition cycle_calls (n : Z) : list (hook_name * Z) :=
  [(Background, n); (Before, n); (Step, n); (After, n)].

(** The calls of the cycles [n], [n+1], ..., [n+k-1]. *)
Fixpoint cycles_from (n : Z) (k : nat) : list (hook_name * Z) :=
  match k with
  | O => []
  | S k' => cycle_calls n ++ cycles_from (n + 1) k'
  end.

(** The scheduling requests among a list of events. *)
Fixpoint cancels_of (t : list event) : list positive :=
  match t with
  | [] => []
  | ClearTimeout id :: rest => id :: cancels_of rest
  | CancelAnimationFrame id :: rest => id :: cancels_of rest
  | _ :: rest => cancels_of rest
  end.

(** The timers requested among a list of events, with their delays. *)
Fixpoint timeouts_of (t : list event) : list (positive * Q) :=
  match t with
  | [] => []
  | SetTimeout id delay :: rest => (id, delay) :: timeouts_of rest
  | _ :: rest => timeouts_of rest
  end.

(** Events among which no timer is requested and no cycle is completed. *)
Definition quiet (t : list event) : Prop :=
  timeouts_of t = [] /\ forall n, ~ In (After, n) (calls_of t).

Definition stays_quiet (m : M) : Prop := forall s, quiet (events_of (m s)).

(** What [_request_next_step] decided, read off the result of an
    operation: no timer was requested, or one was, with the delay
    computed from the start time, the step count and the interval; and a
    cycle that was completed under the timer strategy did request one. *)
Definition by_the_rule (r : outcome * Sys * list event) : Prop :=
  let s' := state_of r in
  let delay :=
    Qmax 0 (_startTime (loop s') + inject_Z (_step_num (loop s')) * _interval (loop s')
            - clock (env s')) in
  (timeouts_of (events_of r) = [] \/
   exists id,
     timeouts_of (events_of r) = [(id, delay)] /\
     _RAFActive (loop s') && _RAFAvailable (loop s') = false /\
     _timeoutId (loop s') = Some id /\
     In (id, (clock (env s') + delay)%Q) (timers (env s'))) /\
  (forall n, In (After, n) (calls_of (events_of r)) ->
     get_step (loop s') = n + 1 /\
     (_RAFActive (loop s') && _RAFAvailable (loop s') = false ->
      timeouts_of (events_of r) <> [])).

(** The events of a guarded call of a passive hook. *)
Definition guarded_events (host : Host) (h : hook_name) (s : Sys) : list event :=
  Call h (get_step (loop s)) ::
  match fst (body host h s) with
  | Thrown => [ConsoleError h]
  | Normal => []
  end.

(** The bookkeeping at the end of a cycle that received [ts]. *)
Definition after_cycle (ts : Q) (l : StepLoop) : StepLoop :=
  set_lastStepTime ts
    (set_lastStepDuration (ts - _lastStepTime l)%Q
       (set_step_num (_step_num l + 1) l)).

(** The environment after [background] was called in [s] and returned
    its promise. *)
Definition after_background (host : Host) (s : Sys) : Env :=
  match background_settles host s with
  | Rejected => queue_rejection Background (env s)
  | Fulfilled => env s
  end.

(** The events of the four hooks of a cycle, for a passive host whose
    [background] returns its promise. *)
Definition cycle_events (host : Host) (s : Sys) : list event :=
  let s1 := mkSys (loop s) (after_background host s) in
  Call Background (get_step (loop s)) :: guarded_events host Before s1 ++
  guarded_events host Step s1 ++ guarded_events host After s1.

(** A loop that differs from [l] in its two handle slots only. *)
Definition with_handles (t r : option positive) (l : StepLoop) : StepLoop :=
  set_RAFId r (set_timeoutId t l).

(** Nothing pending, and exactly one callback pending. *)
Definition idle (e : Env) : Prop := timers e = [] /\ frames e = [].
Definition one_pending (e : Env) : Prop :=
  (exists id due, timers e = [(id, due)] /\ frames e = []) \/
  (exists id, timers e = [] /\ frames e = [id]).

(** The lifespan test of [_check_for_end_trigger] at step [n]. *)
Definition exhausted (L : option Z) (n : Z) : bool :=
  match L with
  | Some m => negb (m =? 0) && (m <=? n)
  | None => false
  end.

(** A loop in the middle of its run: running, not killed, at step [n],
    with lifespan [L] and one tick requested. *)
Definition live (L : option Z) (n : Z) (s : Sys) : Prop :=
  _initialized (loop s) = true /\
  _running (loop s) = true /\ _kill (loop s) = false /\
  _step_num (loop s) = n /\ _lifespan (loop s) = L /\ one_pending (env s).

(** A loop after its termination stage, stopped at step [n]. *)
Definition ended (L : option Z) (n : Z) (s : Sys) : Prop :=
  _initialized (loop s) = true /\
  _running (loop s) = false /\ _paused (loop s) = false /\
  _kill (loop s) = true /\ _step_num (loop s) = n /\
  _lifespan (loop s) = L /\ idle (env s).

(** The flags agree with each other. *)
Definition flags_consistent (l : StepLoop) : Prop :=
  _kill l = true -> _running l = false /\ _paused l = false.

(** The derived interval is up to date. *)
Definition interval_fresh (l : StepLoop) : Prop :=
  _interval l = (1000 / _sps l)%Q.

(** The rate and the interval derived from it. *)
Definition rate_of (l : StepLoop) : Q * Q := (_sps l, _interval l).

(** The three lifecycle flags. *)
Definition flags_of (l : StepLoop) : bool * bool * bool :=
  (_kill l, _running l, _paused l).

(** A computation that leaves a view [proj] of the loop alone. *)
Definition keeps {A : Type} (proj : StepLoop -> A) (m : M) : Prop :=
  forall s, proj (loop (state_of (m s))) = proj (loop s).

(** The states a host can bring a new loop to. *)
Definition reachable (host : Host) (s : Sys) : Prop :=
  exists sps L RAF raf ops, s = state_of (script host ops (create sps L RAF raf)).

(** The delay [_request_next_step] computes under the timer strategy. *)
Definition ideal_time (l : StepLoop) : Q :=
  (_startTime l + inject_Z (get_step l) * (1000 / get_sps l))%Q.

(** The loop as [play()] leaves it for [on_play]: running, not paused, and
    with the start time moved so that step [step_count] is due now. *)
Definition resumed (s : Sys) : Sys :=
  mkSys (set_startTime
           (performance_now s - inject_Z (_step_num (loop s)) * _interval (loop s))%Q
           (set_paused false (set_running true (loop s))))
        (env s).

(** All fields that [play()] itself does not assign. *)
Definition untouched_by_play (l l' : StepLoop) : Prop :=
  _step_num l' = _step_num l /\ _lifespan l' = _lifespan l /\
  _sps l' = _sps l /\ _interval l' = _interval l /\
  _lastStepTime l' = _lastStepTime l /\
  _lastStepDuration l' = _lastStepDuration l /\
  _timeoutId l' = _timeoutId l /\ _initialized l' = _initialized l /\
  _kill l' = _kill l /\ _RAFAvailable l' = _RAFAvailable l /\
  _RAFActive l' = _RAFActive l /\ _RAFId l' = _RAFId l.

(** Operations that cannot wake a loop that is not running: the passing of
    time, the firing of a callback and [pause()]; for a killed loop also
    [play()] and [finish()]. *)
Definition inert (l : StepLoop) (o : op) : bool :=
  match o with
  | OpTimerFires _ | OpFrameFires _ _ | OpElapse _ | OpPause => true
  | OpPlay | OpFinish => _kill l
  | _ => false
  end.

(** What the constructor and the setters decide: lifespan, rate, interval
    and the strategy toggle with its availability. *)
Definition config_of (l : StepLoop) : option Z * Q * Q * bool * bool :=
  (_lifespan l, _sps l, _interval l, _RAFActive l, _RAFAvailable l).

(** The operations other than [start()]. *)
Definition not_start (o : op) : bool :=
  match o with OpStart => false | _ => true end.

(** The lifecycle operations and callbacks: everything but the setters. *)
Definition not_setter (o : op) : bool :=
  match o with
  | OpSetSps _ | OpSetUseRAF _ | OpExtendLifespan _ => false
  | _ => true
  end.

(** Events that are calls of [requestAnimationFrame] or
    [cancelAnimationFrame]. *)
Definition uses_raf (e : event) : bool :=
  match e with
  | RequestAnimationFrame _ | CancelAnimationFrame _ => true
  | _ => false
  end.

(** A loop created where [requestAnimationFrame] is undefined, as the
    methods keep it: no frame handle is recorded. *)
Definition without_raf (l : StepLoop) : Prop :=
  _RAFAvailable l = false /\ _RAFId l = None.

(** A computation that keeps such a loop so and calls neither primitive. *)
Definition raf_free (m : M) : Prop :=
  forall s, without_raf (loop s) ->
    without_raf (loop (state_of (m s))) /\
    existsb uses_raf (events_of (m s)) = false.

(** The strategy toggle asks for animation frames only where they exist. *)
Definition sound_strategy (l : StepLoop) : Prop :=
  _RAFActive l = true -> _RAFAvailable l = true.

(** Exactly one callback is pending, and it is recorded in the slot that
    [_cancel_next_step] looks at under the current toggle. *)
Definition tracked_one (s : Sys) : Prop :=
  (_RAFActive (loop s) = false /\
   exists id due, timers (env s) = [(id, due)] /\ frames (env s) = [] /\
                  _timeoutId (loop s) = Some id) \/
  (_RAFActive (loop s) = true /\
   exists id, frames (env s) = [id] /\ timers (env s) = [] /\
              _RAFId (loop s) = Some id).

Definition well_scheduled (s : Sys) : Prop :=
  sound_strategy (loop s) /\
  (idle (env s) \/ (_running (loop s) = true /\ tracked_one s)).

(** A host that calls [start()] only on a loop that is not running, and
    switches the strategy only while the loop is not running and only to
    a strategy that is available. *)
Definition allowed (l : StepLoop) (o : op) : bool :=
  match o with
  | OpStart => negb (_running l)
  | OpSetUseRAF status => negb (_running l) && implb status (_RAFAvailable l)
  | _ => true
  end.

Fixpoint disciplined (host : Host) (ops : list op) (s : Sys) : bool :=
  match ops with
  | [] => true
  | o :: rest =>
      allowed (loop s) o && disciplined host rest (state_of (exec host o s))
  end.

(** A timer callback that runs [d] ms after it is due (after now, when it
    is already overdue): the environment promises no more than "not
    before". *)
Definition timer_fires_late (host : Host) (id : positive) (d : Q) : M := fun s =>
  match due_of id (timers (env s)) with
  | Some due =>
      let e := set_clock (Qmax (clock (env s)) due + d)%Q (clearTimeout id (env s)) in
      withNow (_run host) (mkSys (loop s) e)
  | None => (Normal, s, [])
  end.

(** The oldest pending timer fires [d] ms late. *)
Definition late_tick (host : Host) (d : Q) : M := fun s =>
  match timers (env s) with
  | (id, _) :: _ => timer_fires_late host id d s
  | [] => (Normal, s, [])
  end.

Fixpoint late_ticks (host : Host) (ds : list Q) : M :=
  match ds with
  | [] => skip
  | d :: rest => andThen (late_tick host d) (late_ticks host rest)
  end.

(** The timer strategy is in force. *)
Definition timer_strategy (l : StepLoop) : Prop :=
  _RAFActive l && _RAFAvailable l = false.

(** A running loop anchored at [t0] with interval [I], whose last cycle
    (number [n - 1]) ran [d] ms after its ideal time and whose next cycle
    is scheduled at its ideal time [t0 + n * I]. *)
Definition on_schedule (t0 I : Q) (L : option Z) (n : Z) (d : Q) (s : Sys) : Prop :=
  _running (loop s) = true /\ _kill (loop s) = false /\
  _step_num (loop s) = n /\ _lifespan (loop s) = L /\
  _startTime (loop s) = t0 /\ _interval (loop s) = I /\
  timer_strategy (loop s) /\
  (clock (env s) == t0 + inject_Z (n - 1) * I + d)%Q /\
  (_lastStepTime (loop s) == clock (env s))%Q /\
  (exists id due, timers (env s) = [(id, due)] /\
                  (due == t0 + inject_Z n * I)%Q) /\
  frames (env s) = [].

(** ** Logged errors *)

(** The hooks whose failures [console.error] reported, oldest first. *)
Fixpoint errors_of (t : list event) : list hook_name :=
  match t with
  | [] => []
  | ConsoleError h :: rest => h :: errors_of rest
  | _ :: rest => errors_of rest
  end.

(** The hooks the class calls inside [try]/[catch]. *)
Definition caught (h : hook_name) : bool :=
  match h with
  | Initial | Before | Step | After | Final => true
  | _ => false
  end.

Definition is_background (h : hook_name) : bool :=
  match h with
  | Background => true
  | _ => false
  end.

(** A host whose hooks leave the loop alone and throw exactly when [f]
    says so for the hook and the [get_step()] it reads. *)
Definition fails_by (f : hook_name -> Z -> bool) (host : Host) : Prop :=
  forall h s, body host h s = (if f h (get_step (loop s)) then Thrown else Normal, s).

(** The calls that end in a logged error. *)
Definition blamed (f : hook_name -> Z -> bool) (c : hook_name * Z) : bool :=
  caught (fst c) && f (fst c) (snd c).

(** A host whose [background] promise is rejected exactly when [g] says
    so for the [get_step()] the call reads. *)
Definition rejects_by (g : Z -> bool) (host : Host) : Prop :=
  forall s, background_settles host s =
            if g (get_step (loop s)) then Rejected else Fulfilled.

(** The calls of [background] that return a promise that is rejected. *)
Definition rejected_call (f : hook_name -> Z -> bool) (g : Z -> bool)
    (c : hook_name * Z) : bool :=
  is_background (fst c) && negb (f Background (snd c)) && g (snd c).

(** Every rejection handler the environment holds watches a promise of
    [background]. *)
Definition only_background (e : Env) : Prop :=
  forallb is_background (rejections e) = true.

(** The log of a computation run from [s] accounts for the failures: what
    the [catch] blocks logged, what the rejection handlers logged and
    what they have still to log. *)
Definition accounted (f : hook_name -> Z -> bool) (g : Z -> bool) (s : Sys)
    (r : outcome * Sys * list event) : Prop :=
  let t := events_of r in
  only_background (env (state_of r)) /\
  forallb (fun h => caught h || is_background h) (errors_of t) = true /\
  filter caught (errors_of t) = map fst (filter (blamed f) (calls_of t)) /\
  (length (filter is_background (errors_of t)) +
   length (rejections (env (state_of r))) =
   length (rejections (env s)) + length (filter (rejected_call f g) (calls_of t)))%nat.

Definition accounts (f : hook_name -> Z -> bool) (g : Z -> bool) (m : M) : Prop :=
  forall s, only_background (env s) -> accounted f g s (m s).

(** [class ErrorProneLoop extends StepLoop] of the test-suite: [before],
    [step] and [after] throw when [this.get_step() === error_step]. *)
Definition throws_at (error_step : Z) : hook :=
  fun s => (if get_step (loop s) =? error_step then Thrown else Normal, s).

Definition ErrorProneLoop (error_step : Z) : Host :=
  mkHost no_op no_op (throws_at error_step) (throws_at error_step)
         (throws_at error_step) no_op no_op no_op fulfilled.

Definition error_prone (error_step : Z) (h : hook_name) (n : Z) : bool :=
  match h with
  | Before | Step | After => n =? error_step
  | _ => false
  end.

Definition hook_name_eq_dec (a b : hook_name) : {a = b} + {a <> b}.
Proof. decide equality. Defined.

(** How often hook [h] occurs in a list of calls. *)
Definition times_called (h : hook_name) (c : list (hook_name * Z)) : nat :=
  count_occ hook_name_eq_dec (map fst c) h.

(** ** Animation frames *)

(** Events that are calls of [setTimeout] or [clearTimeout]. *)
Definition uses_timer (e : event) : bool :=
  match e with
  | SetTimeout _ _ | ClearTimeout _ => true
  | _ => false
  end.

(** The oldest pending animation frame fires with refresh timestamp [ts]. *)
Definition frame_tick (host : Host) (ts : Q) : M := fun s =>
  match frames (env s) with
  | id :: _ => frame_fires host id ts s
  | [] => (Normal, s, [])
  end.

Fixpoint frame_ticks (host : Host) (tss : list Q) : M :=
  match tss with
  | [] => skip
  | ts :: rest => andThen (frame_tick host ts) (frame_ticks host rest)
  end.

(** A running loop paced by animation frames: its last cycle received the
    timestamp [t], and its next cycle is the one pending frame. *)
Definition on_frames (L : option Z) (n : Z) (t : Q) (s : Sys) : Prop :=
  _running (loop s) = true /\ _kill (loop s) = false /\
  _step_num (loop s) = n /\ _lifespan (loop s) = L /\
  _RAFActive (loop s) = true /\ _RAFAvailable (loop s) = true /\
  _lastStepTime (loop s) = t /\
  timers (env s) = [] /\
  exists id, frames (env s) = [id] /\ _RAFId (loop s) = Some id.

(** ** Basic facts about computations *)

(** Projections of updated records. *)
Ltac fields :=
  cbn [loop env _step_num _lifespan _sps _interval _startTime _lastStepTime
       _lastStepDuration _timeoutId _initialized _running _paused _kill
       _RAFAvailable _RAFActive _RAFId
       set_step_num set_lifespan set_rate set_interval set_startTime
       set_lastStepTime set_lastStepDuration set_timeoutId set_initialized
       set_running set_paused set_kill set_RAFActive set_RAFId
       with_handles after_cycle resumed
       clock next_handle timers frames has_requestAnimationFrame rejections
       set_clock clearTimeout setTimeout requestAnimationFrame
       cancelAnimationFrame queue_rejection set_rejections fst snd].


Lemma calls_of_app t1 t2 : calls_of (t1 ++ t2) = calls_of t1 ++ calls_of t2.
Proof.
  induction t1 as [|e t1 IH]; simpl; [reflexivity|].
  destruct e; simpl; rewrite IH; reflexivity.
Qed.

Lemma andThen_normal (a b : M) s s1 t1 :
  a s = (Normal, s1, t1) ->
  andThen a b s = (result_of (b s1), state_of (b s1), t1 ++ events_of (b s1)).
Proof.
  intros Ha. unfold andThen. rewrite Ha.
  destruct (b s1) as [[o s2] t2]. reflexivity.
Qed.

Lemma andThen_assoc (a b c : M) s :
  andThen (andThen a b) c s = andThen a (andThen b c) s.
Proof.
  unfold andThen. destruct (a s) as [[[|] s1] t1]; [|reflexivity].
  destruct (b s1) as [[[|] s2] t2]; [|reflexivity].
  destruct (c s2) as [[o s3] t3]. rewrite app_assoc. reflexivity.
Qed.

Lemma andThen_withNow (k : Q -> M) (b : M) s :
  andThen (withNow k) b s = andThen (k (clock (env s))) b s.
Proof. reflexivity. Qed.

Lemma andThen_assign f (b : M) s :
  andThen (assign f) b s = b (mkSys (f (loop s)) (env s)).
Proof.
  unfold andThen, assign. destruct (b _) as [[o s2] t2]. reflexivity.
Qed.

Lemma result_triple (r : outcome * Sys * list event) :
  r = (result_of r, state_of r, events_of r).
Proof. destruct r as [[o s] t]. reflexivity. Qed.

Section Facts.

Variable host : Host.

Lemma guarded_result h s : result_of (guarded host h s) = Normal.
Proof.
  unfold guarded, tryCatch, invoke, emit.
  destruct (body host h s) as [[|] s1]; reflexivity.
Qed.

Lemma guarded_passive h s :
  passive (body host h) ->
  guarded host h s = (Normal, s, guarded_events host h s).
Proof.
  intros P. unfold guarded, tryCatch, invoke, emit, guarded_events.
  specialize (P s). destruct (body host h s) as [[|] s1]; simpl in *; subst; reflexivity.
Qed.

Lemma calls_of_guarded_events h s :
  calls_of (guarded_events host h s) = [(h, get_step (loop s))].
Proof.
  unfold guarded_events. destruct (fst (body host h s)); reflexivity.
Qed.

Lemma andThen_guarded h (b : M) s :
  passive (body host h) ->
  andThen (guarded host h) b s =
  (result_of (b s), state_of (b s), guarded_events host h s ++ events_of (b s)).
Proof.
  intros P. apply andThen_normal. apply guarded_passive, P.
Qed.

End Facts.

(** ** One cycle, for a passive host *)

Lemma after_background_timers host s :
  timers (after_background host s) = timers (env s).
Proof. unfold after_background. destruct (background_settles host s); reflexivity. Qed.

Lemma after_background_frames host s :
  frames (after_background host s) = frames (env s).
Proof. unfold after_background. destruct (background_settles host s); reflexivity. Qed.

Lemma after_background_clock host s :
  clock (after_background host s) = clock (env s).
Proof. unfold after_background. destruct (background_settles host s); reflexivity. Qed.

Lemma after_background_next_handle host s :
  next_handle (after_background host s) = next_handle (env s).
Proof. unfold after_background. destruct (background_settles host s); reflexivity. Qed.

Lemma after_background_idle host s :
  idle (env s) -> idle (after_background host s).
Proof.
  unfold idle. rewrite after_background_timers, after_background_frames. auto.
Qed.

Lemma after_background_pending host s :
  pending (after_background host s) = pending (env s).
Proof.
  unfold pending. rewrite after_background_timers, after_background_frames.
  reflexivity.
Qed.

(** The call of [background] by a passive host: the promise is returned,
    or the exception leaves the caller. *)
Lemma spawn_passive host s :
  passive (background host) ->
  spawn_background host s =
  match fst (background host s) with
  | Normal => (Normal, mkSys (loop s) (after_background host s),
               [Call Background (get_step (loop s))])
  | Thrown => (Thrown, s, [Call Background (get_step (loop s))])
  end.
Proof.
  intros P. unfold spawn_background, andThen, invoke, after_background, promise_catch.
  cbn [body]. specialize (P s).
  destruct (background host s) as [[|] s1]; cbn [fst snd] in *; subst s1;
    [|reflexivity].
  destruct (background_settles host s); [destruct s|]; reflexivity.
Qed.

(** A rejection handler only logs. *)
Lemma rejection_handler_loop s : loop (state_of (rejection_handler s)) = loop s.
Proof. unfold rejection_handler. destruct (rejections (env s)); reflexivity. Qed.

Section Cycle.
Variable host : Host.
Hypothesis Hpassive : passive_host host.

Lemma calls_of_cycle_events s :
  calls_of (cycle_events host s) = cycle_calls (get_step (loop s)).
Proof.
  unfold cycle_events. cbn [calls_of].
  rewrite !calls_of_app, !calls_of_guarded_events. reflexivity.
Qed.

Lemma andThen_spawn (b : M) s :
  fst (background host s) = Normal ->
  andThen (spawn_background host) b s =
  (result_of (b (mkSys (loop s) (after_background host s))),
   state_of (b (mkSys (loop s) (after_background host s))),
   Call Background (get_step (loop s)) ::
   events_of (b (mkSys (loop s) (after_background host s)))).
Proof.
  intros Hb.
  apply (andThen_normal _ _ s _ [Call Background (get_step (loop s))]).
  rewrite (spawn_passive host s (Hpassive Background)), Hb. reflexivity.
Qed.

(** A cycle whose [background] throws before returning its promise stops
    there: nothing else is called, assigned or requested. *)
Lemma run_escape ts s :
  fst (background host s) = Thrown ->
  _running (loop s) = true ->
  _check_for_end_trigger (loop s) = false ->
  _run host ts s = (Thrown, s, [Call Background (get_step (loop s))]).
Proof.
  intros Hb Hr Hc. unfold _run. rewrite Hr, Hc. unfold andThen at 1.
  rewrite (spawn_passive host s (Hpassive Background)), Hb. reflexivity.
Qed.

Lemma run_cycle ts s :
  fst (background host s) = Normal ->
  _running (loop s) = true ->
  _check_for_end_trigger (loop s) = false ->
  let r := _request_next_step ts
             (mkSys (after_cycle ts (loop s)) (after_background host s)) in
  _run host ts s = (result_of r, state_of r, cycle_events host s ++ events_of r).
Proof.
  intros Hb Hr Hc r. unfold _run. rewrite Hr, Hc.
  rewrite andThen_spawn by exact Hb.
  rewrite andThen_guarded by apply (Hpassive Before).
  rewrite andThen_guarded by apply (Hpassive Step).
  rewrite andThen_guarded by apply (Hpassive After).
  rewrite !andThen_assign.
  unfold result_of, state_of, events_of, cycle_events, after_cycle.
  cbn [fst snd loop env app]. rewrite <- ?app_assoc. reflexivity.
Qed.

(** [_cancel_next_step] never throws, touches only the handle slots, calls
    no hook and registers nothing. *)
Lemma cancel_spec s :
  exists t r evs e,
    _cancel_next_step s = (Normal, mkSys (with_handles t r (loop s)) e, evs) /\
    calls_of evs = [] /\
    clock e = clock (env s) /\
    (idle (env s) -> idle e) /\
    (pending e <= pending (env s))%nat.
Proof.
  unfold _cancel_next_step.
  destruct s as [l e]; cbn [loop env].
  destruct (_timeoutId l) as [id|] eqn:Ht, (_RAFActive l) eqn:Ha,
           (_RAFId l) as [fid|] eqn:Hf.
  all: first
    [ exists (_timeoutId l), (_RAFId l), [], e;
      split; [rewrite Ht, Hf; destruct l; simpl in *; subst; reflexivity|];
      split; [reflexivity|]; split; [reflexivity|]; split; [auto|lia]
    | exists None, (_RAFId l), [ClearTimeout id], (clearTimeout id e);
      split; [rewrite Hf; destruct l; simpl in *; subst; reflexivity|];
      split; [reflexivity|]; split; [reflexivity|]; split;
      [ intros [H1 H2]; split; simpl; [rewrite H1|]; auto
      | unfold pending, clearTimeout, forget_timer; cbn [timers frames];
        pose proof (filter_length_le (fun x => negb (Pos.eqb (fst x) id)) (timers e));
        lia ]
    | exists (_timeoutId l), None, [CancelAnimationFrame fid], (cancelAnimationFrame fid e);
      split; [rewrite Ht; destruct l; simpl in *; subst; reflexivity|];
      split; [reflexivity|]; split; [reflexivity|]; split;
      [ intros [H1 H2]; split; simpl; [|rewrite H2]; auto
      | unfold pending, cancelAnimationFrame, forget; cbn [timers frames];
        pose proof (filter_length_le (fun x => negb (Pos.eqb x fid)) (frames e));
        lia ] ].
Qed.

(** [_request_next_step] on a running loop registers exactly one callback. *)
Lemma request_spec ts s :
  _running (loop s) = true ->
  exists t r evs e,
    _request_next_step ts s = (Normal, mkSys (with_handles t r (loop s)) e, evs) /\
    calls_of evs = [] /\
    (idle (env s) -> one_pending e) /\
    pending e = S (pending (env s)).
Proof.
  intros Hr. unfold _request_next_step. rewrite Hr. cbn [negb].
  destruct s as [l e]; cbn [loop env] in *.
  destruct (_RAFActive l && _RAFAvailable l).
  - exists (_timeoutId l), (Some (next_handle e)),
      [RequestAnimationFrame (next_handle e)], (snd (requestAnimationFrame e)).
    split; [destruct l; reflexivity|]. split; [reflexivity|]. split.
    + intros [H1 H2]. right. exists (next_handle e). simpl. rewrite H1, H2. split; reflexivity.
    + unfold pending. simpl. rewrite length_app. simpl. lia.
  - eexists (Some (next_handle e)), (_RAFId l), _, _.
    split; [destruct l; reflexivity|]. split; [reflexivity|]. split.
    + intros [H1 H2]. left. simpl. rewrite H1, H2. eexists _, _. split; reflexivity.
    + unfold pending. simpl. rewrite length_app. simpl. lia.
Qed.

(** The termination stage: the loop stops, is marked killed, and [final]
    is the only hook called. *)
Lemma term_spec s :
  exists t r evs e,
    _term host s =
      (Normal,
       mkSys (set_kill true (with_handles t r
                (set_paused false (set_running false (loop s))))) e,
       evs) /\
    calls_of evs = [(Final, get_step (loop s))] /\
    clock e = clock (env s) /\
    (idle (env s) -> idle e) /\
    (pending e <= pending (env s))%nat.
Proof.
  unfold _term. rewrite !andThen_assign.
  destruct (cancel_spec
              (mkSys (set_paused false (set_running false (loop s))) (env s)))
    as (t & r & evs & e & Hc & Hcalls & Hclock & Hidle & Hpend).
  cbn [loop env] in *.
  exists t, r, (evs ++ guarded_events host Final
                  (mkSys (set_kill true (with_handles t r
                     (set_paused false (set_running false (loop s))))) e)), e.
  split.
  - rewrite (andThen_normal _ _ _ _ _ Hc). rewrite andThen_assign.
    cbn [loop env]. rewrite guarded_passive by apply (Hpassive Final).
    reflexivity.
  - split; [|auto].
    rewrite calls_of_app, Hcalls, calls_of_guarded_events. reflexivity.
Qed.

Lemma check_unfold l :
  _check_for_end_trigger l = _kill l || exhausted (_lifespan l) (_step_num l).
Proof. reflexivity. Qed.

(** A cycle that is not stopped by the end trigger. *)
Lemma run_cycle_spec ts s :
  fst (background host s) = Normal ->
  _running (loop s) = true ->
  _check_for_end_trigger (loop s) = false ->
  exists t r evs e,
    _run host ts s =
      (Normal, mkSys (with_handles t r (after_cycle ts (loop s))) e, evs) /\
    calls_of evs = cycle_calls (get_step (loop s)) /\
    (idle (env s) -> one_pending e) /\
    pending e = S (pending (env s)).
Proof.
  intros Hb Hr Hc.
  destruct (request_spec ts (mkSys (after_cycle ts (loop s)) (after_background host s)))
    as (t & r & evs & e & Hq & Hcalls & Hone & Hpend); [exact Hr|].
  cbn [loop env] in *. rewrite after_background_pending in Hpend.
  exists t, r, (cycle_events host s ++ evs), e. split.
  - rewrite (run_cycle ts s Hb Hr Hc). cbv zeta. rewrite Hq. reflexivity.
  - split; [|split; [|exact Hpend]].
    + rewrite calls_of_app, Hcalls, calls_of_cycle_events, app_nil_r. reflexivity.
    + intros Hi. apply Hone, after_background_idle, Hi.
Qed.

Hypothesis Hasync : returns (background host).

(** The one pending callback fires: [_run] is entered with nothing pending. *)
Lemma tick_fires s :
  one_pending (env s) ->
  exists e, idle e /\ tick host s = _run host (clock e) (mkSys (loop s) e).
Proof.
  intros [(id & due & Ht & Hf) | (id & Ht & Hf)].
  - unfold tick, timer_fires. rewrite Ht. unfold due_of. cbn [find fst snd].
    rewrite Pos.eqb_refl.
    eexists. split; [|reflexivity].
    split; cbn [timers frames set_clock clearTimeout]; [|exact Hf].
    rewrite Ht. unfold forget_timer. cbn [filter fst]. rewrite Pos.eqb_refl.
    reflexivity.
  - unfold tick, frame_fires. rewrite Ht, Hf. cbn [existsb].
    rewrite Pos.eqb_refl. cbn [orb].
    exists (cancelAnimationFrame id (env s)). split; [|reflexivity].
    split; cbn [timers frames cancelAnimationFrame]; [exact Ht|].
    rewrite Hf. unfold forget. cbn [filter]. rewrite Pos.eqb_refl. reflexivity.
Qed.

Lemma tick_idle s : idle (env s) -> tick host s = (Normal, s, []).
Proof. intros [Ht Hf]. unfold tick. rewrite Ht, Hf. reflexivity. Qed.

Lemma ticks_idle k s : idle (env s) -> ticks host k s = (Normal, s, []).
Proof.
  intros Hi. induction k as [|k IH]; [reflexivity|].
  cbn [ticks]. rewrite (andThen_normal _ _ _ _ _ (tick_idle s Hi)), IH.
  reflexivity.
Qed.

(** A tick of a live loop whose lifespan is not used up runs cycle [n]. *)
Lemma tick_live L n s :
  live L n s -> exhausted L n = false ->
  result_of (tick host s) = Normal /\
  live L (n + 1) (state_of (tick host s)) /\
  calls_of (events_of (tick host s)) = cycle_calls n.
Proof.
  intros (Hini & Hr & Hk & Hn & HL & Hone) Hex.
  destruct (tick_fires s Hone) as (e0 & Hidle & Htick).
  destruct (run_cycle_spec (clock e0) (mkSys (loop s) e0))
    as (t & r & evs & e & Hrun & Hcalls & Hp & _).
  { apply Hasync. }
  { exact Hr. }
  { cbn [loop]. rewrite check_unfold, Hk, HL, Hn, Hex. reflexivity. }
  rewrite Htick, Hrun. cbn [loop env] in *.
  unfold result_of, state_of, events_of; cbn [fst snd loop env].
  split; [reflexivity|]. split.
  - unfold live; cbn [loop env].
    destruct (loop s); cbn in *. subst. auto 7.
  - rewrite Hcalls. unfold get_step. rewrite Hn. reflexivity.
Qed.

(** A tick of a live loop whose lifespan is used up runs the termination
    stage instead. *)
Lemma tick_end L n s :
  live L n s -> exhausted L n = true ->
  result_of (tick host s) = Normal /\
  ended L n (state_of (tick host s)) /\
  calls_of (events_of (tick host s)) = [(Final, n)].
Proof.
  intros (Hini & Hr & Hk & Hn & HL & Hone) Hex.
  destruct (tick_fires s Hone) as (e0 & Hidle & Htick).
  destruct (term_spec (mkSys (loop s) e0))
    as (t & r & evs & e & Hterm & Hcalls & _ & Hi & _).
  rewrite Htick. unfold _run. cbn [loop]. rewrite Hr, check_unfold, Hk, HL, Hn, Hex.
  cbn [orb]. rewrite Hterm. cbn [loop env] in *.
  unfold result_of, state_of, events_of; cbn [fst snd loop env].
  split; [reflexivity|]. split.
  - unfold ended; cbn [loop env].
    destruct (loop s); cbn in *. subst. auto 9.
  - rewrite Hcalls. unfold get_step. rewrite Hn. reflexivity.
Qed.

(** [k] ticks of a live loop whose lifespan is not reached run the cycles
    [n], ..., [n+k-1] in order. *)
Lemma ticks_live L k : forall n s,
  live L n s ->
  (forall i, n <= i < n + Z.of_nat k -> exhausted L i = false) ->
  result_of (ticks host k s) = Normal /\
  live L (n + Z.of_nat k) (state_of (ticks host k s)) /\
  calls_of (events_of (ticks host k s)) = cycles_from n k.
Proof.
  induction k as [|k IH]; intros n s Hlive Hex.
  - cbn [ticks skip result_of state_of events_of fst snd Z.of_nat calls_of cycles_from].
    rewrite Z.add_0_r. auto.
  - destruct (tick_live L n s Hlive) as (Hres & Hlive1 & Hcalls1).
    { apply Hex. lia. }
    destruct (IH (n + 1) (state_of (tick host s)) Hlive1) as (Hres2 & Hlive2 & Hcalls2).
    { intros i Hi. apply Hex. lia. }
    cbn [ticks].
    rewrite (andThen_normal _ _ s (state_of (tick host s)) (events_of (tick host s))).
    2:{ rewrite (result_triple (tick host s)) at 1. rewrite Hres. reflexivity. }
    unfold result_of, state_of, events_of in *. cbn [fst snd].
    split; [exact Hres2|]. split.
    + replace (n + Z.of_nat (S k)) with (n + 1 + Z.of_nat k) by lia. exact Hlive2.
    + rewrite calls_of_app, Hcalls1, Hcalls2. reflexivity.
Qed.

(** [start()] from any state whose environment owes the loop nothing. *)
Lemma start_spec s :
  idle (env s) ->
  exhausted (_lifespan (loop s)) 0 = false ->
  result_of (start host s) = Normal /\
  live (_lifespan (loop s)) 1 (state_of (start host s)) /\
  calls_of (events_of (start host s)) = (Initial, 0) :: cycle_calls 0.
Proof.
  intros Hidle Hex. unfold start, _main, _init.
  rewrite andThen_assign, andThen_withNow, andThen_assign.
  repeat (rewrite andThen_assoc || rewrite andThen_assign).
  rewrite andThen_guarded by apply (Hpassive Initial).
  cbn [loop env].
  set (s0 := mkSys _ (env s)).
  destruct (run_cycle_spec (clock (env s0)) s0)
    as (t & r & evs & e & Hrun & Hcalls & Hp & _).
  { apply Hasync. }
  { reflexivity. }
  { subst s0. cbn [loop]. rewrite check_unfold. cbn. exact Hex. }
  unfold withNow, performance_now. rewrite Hrun.
  unfold result_of, state_of, events_of; cbn [fst snd].
  split; [reflexivity|]. split.
  - unfold live; cbn [loop env]. subst s0; cbn [loop env] in *.
    destruct (loop s); cbn in *. auto 7.
  - rewrite calls_of_app, calls_of_guarded_events, Hcalls. reflexivity.
Qed.

(** A run: [start()], then [k] ticks. *)
Lemma run_prefix s k :
  idle (env s) ->
  (forall i, 0 <= i <= Z.of_nat k -> exhausted (_lifespan (loop s)) i = false) ->
  let r := andThen (start host) (ticks host k) s in
  result_of r = Normal /\
  live (_lifespan (loop s)) (1 + Z.of_nat k) (state_of r) /\
  calls_of (events_of r) = (Initial, 0) :: cycles_from 0 (S k).
Proof.
  intros Hidle Hex r.
  destruct (start_spec s Hidle) as (Hres & Hlive & Hcalls).
  { apply Hex. lia. }
  destruct (ticks_live (_lifespan (loop s)) k 1 (state_of (start host s)) Hlive)
    as (Hres2 & Hlive2 & Hcalls2).
  { intros i Hi. apply Hex. lia. }
  subst r.
  rewrite (andThen_normal _ _ s (state_of (start host s)) (events_of (start host s))).
  2:{ rewrite (result_triple (start host s)) at 1. rewrite Hres. reflexivity. }
  unfold result_of, state_of, events_of in *. cbn [fst snd].
  split; [exact Hres2|]. split; [exact Hlive2|].
  rewrite calls_of_app, Hcalls, Hcalls2. reflexivity.
Qed.

Lemma one_pending_count e : one_pending e -> pending e = 1%nat.
Proof.
  unfold pending.
  intros [(id & due & Ht & Hf) | (id & Ht & Hf)]; rewrite Ht, Hf; reflexivity.
Qed.

Lemma idle_count e : idle e -> pending e = 0%nat.
Proof. unfold pending. intros [Ht Hf]. rewrite Ht, Hf. reflexivity. Qed.

End Cycle.

(** ** The base class and other concrete hosts *)

Lemma passive_no_op : passive no_op.
Proof. intros s. reflexivity. Qed.

Lemma passive_throwing : passive throwing.
Proof. intros s. reflexivity. Qed.

Lemma passive_base_class : passive_host base_class.
Proof. intros [] s; reflexivity. Qed.

Lemma async_base_class : returns (background base_class).
Proof. intros s. reflexivity. Qed.

Lemma idle_create sps L RAF raf : idle (env (create sps L RAF raf)).
Proof. split; reflexivity. Qed.

(** ** Lifespan *)

(** C1, at the lifespan [0]: a loop of the base class constructed with
    lifespan [0] and started is never stopped by its lifespan.  After
    [start()] and any number [k] of ticks it is still running, has
    completed [k + 1] steps although [step_count >= lifespan] held from
    the beginning, is not killed, and has its next tick requested. *)
Theorem C1_lifespan_zero_never_ends (sps : Q) (RAF raf : bool) (k : nat) :
  let r := andThen (start base_class) (ticks base_class k)
             (create sps (Some 0) RAF raf) in
  result_of r = Normal /\
  is_running (loop (state_of r)) = true /\
  get_step (loop (state_of r)) = 1 + Z.of_nat k /\
  _kill (loop (state_of r)) = false /\
  get_lifespan (loop (state_of r)) = Some 0 /\
  pending (env (state_of r)) = 1%nat.
Proof.
  intros r.
  destruct (run_prefix base_class passive_base_class async_base_class
              (create sps (Some 0) RAF raf) k) as (Hres & Hlive & _).
  { apply idle_create. }
  { intros i _. reflexivity. }
  destruct Hlive as (_ & Hr & Hk & Hn & HL & Hone).
  repeat split; try assumption.
  apply one_pending_count, Hone.
Qed.

Lemma andThen_ok (a b : M) s :
  result_of (a s) = Normal ->
  andThen a b s =
  (result_of (b (state_of (a s))), state_of (b (state_of (a s))),
   events_of (a s) ++ events_of (b (state_of (a s)))).
Proof.
  intros H. apply andThen_normal.
  rewrite (result_triple (a s)) at 1. rewrite H. reflexivity.
Qed.

Lemma andThen_skip_l (b : M) s : andThen skip b s = b s.
Proof. unfold andThen, skip. destruct (b s) as [[o s1] t]. reflexivity. Qed.

Lemma andThen_ext (a b b' : M) s :
  (forall x, b x = b' x) -> andThen a b s = andThen a b' s.
Proof.
  intros H. unfold andThen. destruct (a s) as [[[|] s1] t1]; [|reflexivity].
  rewrite H. reflexivity.
Qed.

Lemma ticks_add host a b s :
  ticks host (a + b) s = andThen (ticks host a) (ticks host b) s.
Proof.
  revert s. induction a as [|a IH]; intros s.
  - cbn [ticks Nat.add]. rewrite andThen_skip_l. reflexivity.
  - cbn [ticks Nat.add]. rewrite andThen_assoc.
    apply andThen_ext. intros x. apply IH.
Qed.

Lemma cycles_from_app n a b :
  cycles_from n (a + b) = cycles_from n a ++ cycles_from (n + Z.of_nat a) b.
Proof.
  revert n. induction a as [|a IH]; intros n.
  - cbn [cycles_from Nat.add app Z.of_nat]. rewrite Z.add_0_r. reflexivity.
  - cbn [cycles_from Nat.add]. rewrite IH, <- app_assoc.
    replace (n + 1 + Z.of_nat a) with (n + Z.of_nat (S a)) by lia. reflexivity.
Qed.

(** A loop with a positive lifespan [N], started and left to run, stops
    by itself after exactly [N] cycles; ticks beyond that find nothing to
    fire. *)
Lemma positive_lifespan_ends host s N fuel :
  passive_host host ->
  returns (background host) ->
  idle (env s) ->
  _lifespan (loop s) = Some N ->
  0 < N ->
  (Z.to_nat N <= fuel)%nat ->
  let r := andThen (start host) (ticks host fuel) s in
  result_of r = Normal /\
  ended (Some N) N (state_of r) /\
  calls_of (events_of r) =
    (Initial, 0) :: cycles_from 0 (Z.to_nat N) ++ [(Final, N)].
Proof.
  intros Hp Hb Hidle HL HN Hfuel r.
  set (k := (Z.to_nat N - 1)%nat).
  assert (Hk : 1 + Z.of_nat k = N) by lia.
  destruct (run_prefix host Hp Hb s k Hidle) as (Hres & Hlive & Hcalls).
  { intros i Hi. rewrite HL. cbn [exhausted].
    replace (N <=? i) with false by (symmetry; apply Z.leb_gt; lia).
    apply andb_false_r. }
  cbv zeta in Hres, Hlive, Hcalls. rewrite HL, Hk in Hlive.
  set (s1 := state_of (andThen (start host) (ticks host k) s)) in *.
  destruct (tick_end host Hp (Some N) N s1 Hlive) as (Hres1 & Hend & Hcalls1).
  { cbn [exhausted]. rewrite Z.leb_refl.
    replace (N =? 0) with false by (symmetry; apply Z.eqb_neq; lia). reflexivity. }
  set (s2 := state_of (tick host s1)) in *.
  assert (Hi2 : idle (env s2)) by apply Hend.
  assert (Hr : r = (Normal, s2,
            events_of (andThen (start host) (ticks host k) s) ++
            events_of (tick host s1) ++ [])).
  { subst r.
    replace fuel with (k + (1 + (fuel - Z.to_nat N)))%nat at 1 by lia.
    assert (E : forall x, andThen (start host) (ticks host (k + (1 + (fuel - Z.to_nat N)))) x
                = andThen (andThen (start host) (ticks host k))
                    (andThen (tick host) (ticks host (fuel - Z.to_nat N))) x).
    { intros x. rewrite andThen_assoc. apply andThen_ext. intros y.
      rewrite ticks_add. reflexivity. }
    rewrite E, (andThen_ok _ _ s Hres). fold s1.
    rewrite (andThen_ok _ _ s1 Hres1). fold s2.
    rewrite (ticks_idle host _ s2 Hi2). reflexivity. }
  rewrite Hr.
  split; [reflexivity|]. split; [exact Hend|].
  change (calls_of (events_of (andThen (start host) (ticks host k) s) ++
                    events_of (tick host s1) ++ []) =
          (Initial, 0) :: cycles_from 0 (Z.to_nat N) ++ [(Final, N)]).
  rewrite !calls_of_app, Hcalls, Hcalls1. cbn [calls_of]. rewrite app_nil_r.
  replace (Z.to_nat N) with (S k) by lia. reflexivity.
Qed.

(** ** Order of the hooks *)

Lemma passive_crashing_step : passive_host crashing_step.
Proof. intros [] s; reflexivity. Qed.

Lemma async_crashing_step : returns (background crashing_step).
Proof. intros s. reflexivity. Qed.

Lemma passive_failing_hooks : passive_host failing_hooks.
Proof. intros [] s; reflexivity. Qed.

Lemma async_failing_hooks : returns (background failing_hooks).
Proof. intros s. reflexivity. Qed.

(** C5: every completed cycle calls its hooks in the order background,
    before, step, after, and each of them reads the same [get_step()]; the
    step number is one larger after the cycle.  In a run begun by [start()]
    the cycles are numbered from 0: the hooks of cycle [i] read
    [get_step() = i].  The hooks leave the loop alone and may throw; the
    call of [background] returns its promise, so that every cycle that is
    begun is completed. *)
Theorem C5_hooks_in_order (host : Host) (ts : Q) (s : Sys)
    (sps : Q) (L : option Z) (RAF raf : bool) (k : nat) :
  passive_host host ->
  returns (background host) ->
  _running (loop s) = true ->
  _check_for_end_trigger (loop s) = false ->
  (forall i, 0 <= i <= Z.of_nat k -> exhausted L i = false) ->
  (calls_of (events_of (_run host ts s)) =
     [(Background, get_step (loop s)); (Before, get_step (loop s));
      (Step, get_step (loop s)); (After, get_step (loop s))] /\
   get_step (loop (state_of (_run host ts s))) = get_step (loop s) + 1) /\
  (let r := andThen (start host) (ticks host k) (create sps L RAF raf) in
   calls_of (events_of r) = (Initial, 0) :: cycles_from 0 (S k) /\
   get_step (loop (state_of r)) = Z.of_nat (S k)).
Proof.
  intros Hp Hb Hr Hc Hex. split.
  - destruct (run_cycle_spec host Hp ts s (Hb s) Hr Hc)
      as (t & r & evs & e & Hrun & Hcalls & _).
    rewrite Hrun. split; [exact Hcalls|].
    unfold state_of; cbn [fst snd loop]. destruct (loop s); reflexivity.
  - destruct (run_prefix host Hp Hb (create sps L RAF raf) k) as (_ & Hlive & Hcalls).
    { apply idle_create. }
    { exact Hex. }
    split; [exact Hcalls|].
    destruct Hlive as (_ & _ & _ & Hn & _). unfold get_step. rewrite Hn. lia.
Qed.

Lemma C5_hooks_in_order_witness :
  (calls_of (events_of (_run crashing_step 5
      (state_of (start crashing_step (create 60 None false false))))) =
     [(Background, 1); (Before, 1); (Step, 1); (After, 1)] /\
   get_step (loop (state_of (_run crashing_step 5
      (state_of (start crashing_step (create 60 None false false)))))) = 2) /\
  (let r := andThen (start crashing_step) (ticks crashing_step 2)
              (create 60 (Some 3) false false) in
   calls_of (events_of r) =
     [(Initial, 0);
      (Background, 0); (Before, 0); (Step, 0); (After, 0);
      (Background, 1); (Before, 1); (Step, 1); (After, 1);
      (Background, 2); (Before, 2); (Step, 2); (After, 2)] /\
   get_step (loop (state_of r)) = 3).
Proof.
  apply (C5_hooks_in_order crashing_step 5
           (state_of (start crashing_step (create 60 None false false)))
           60 (Some 3) false false 2).
  - exact passive_crashing_step.
  - exact async_crashing_step.
  - reflexivity.
  - reflexivity.
  - intros i Hi. simpl. apply Z.leb_gt. lia.
Defined.

(** ** Exceptions thrown by hooks *)

(** The scheduling primitives and an invocation inside [try]/[catch]
    never complete abruptly, whatever the host does. *)
Lemma cancel_result s : result_of (_cancel_next_step s) = Normal.
Proof.
  destruct (cancel_spec s) as (t & r & evs & e & H & _). rewrite H. reflexivity.
Qed.

Lemma request_result ts s : result_of (_request_next_step ts s) = Normal.
Proof.
  unfold _request_next_step.
  destruct (negb (_running (loop s))); [reflexivity|].
  destruct (_RAFActive (loop s) && _RAFAvailable (loop s)); reflexivity.
Qed.

Lemma andThen_result (a b : M) :
  (forall s, result_of (a s) = Normal) ->
  (forall s, result_of (b s) = Normal) ->
  forall s, result_of (andThen a b s) = Normal.
Proof.
  intros Ha Hb s. rewrite (andThen_ok a b s (Ha s)). apply Hb.
Qed.

Lemma assign_result f s : result_of (assign f s) = Normal.
Proof. reflexivity. Qed.

Lemma term_result host s : result_of (_term host s) = Normal.
Proof.
  unfold _term.
  repeat (apply andThen_result; intros;
          try apply assign_result; try apply cancel_result).
  apply guarded_result.
Qed.

(** The call of [background] is not guarded: it completes normally when
    the method returns its promise. *)
Lemma spawn_result host s :
  fst (background host s) = Normal ->
  result_of (spawn_background host s) = Normal.
Proof.
  intros H. unfold spawn_background, andThen, invoke, promise_catch. cbn [body].
  destruct (background host s) as [o s1]. cbn [fst] in H. subst o.
  destruct (background_settles host s); reflexivity.
Qed.

Lemma run_result host ts s :
  returns (background host) -> result_of (_run host ts s) = Normal.
Proof.
  intros Hb.
  unfold _run. destruct (_running (loop s)); [|reflexivity].
  destruct (_check_for_end_trigger (loop s)); [apply term_result|].
  revert s.
  repeat (apply andThen_result; intros;
          try apply assign_result; try apply guarded_result;
          try (apply spawn_result; apply Hb)).
  apply request_result.
Qed.

(** [finish()] never throws, and [start()] and a tick do not throw when
    [background] returns its promise: the other hooks they call are all
    guarded. *)
Lemma start_result host s :
  returns (background host) -> result_of (start host s) = Normal.
Proof.
  intros Hb. unfold start, _main, _init.
  repeat (apply andThen_result; intros;
          try apply assign_result; try apply guarded_result).
  apply run_result, Hb.
Qed.

Lemma finish_result host s : result_of (finish host s) = Normal.
Proof.
  unfold finish.
  destruct (negb (_initialized (loop s)) || _kill (loop s)); [reflexivity|].
  repeat (apply andThen_result; intros;
          try apply assign_result; try apply cancel_result).
  apply guarded_result.
Qed.

Lemma tick_result host s :
  returns (background host) -> result_of (tick host s) = Normal.
Proof.
  intros Hb. unfold tick, timer_fires, frame_fires.
  destruct (timers (env s)) as [|[id due] ts].
  - destruct (frames (env s)) as [|id fs]; [reflexivity|].
    destruct (existsb _ _); [apply run_result, Hb|reflexivity].
  - destruct (due_of _ _); [apply run_result, Hb|reflexivity].
Qed.

(** C2, at [on_pause] and [on_play]: these two hooks are called outside any
    [try].  A subclass whose [on_pause] throws makes [pause()] throw, and
    nothing is logged.  A subclass whose [on_play] throws makes [play()]
    throw before the cycle is attempted: the loop is left marked running,
    with no cycle run and no tick requested, so it never advances again. *)
Theorem C2_on_pause_on_play_propagate (sps : Q) (raf : bool) :
  let r1 := script crashing_on_pause [OpStart; OpPause] (create sps None false raf) in
  let r2 := script crashing_on_play [OpStart; OpPause; OpPlay]
              (create sps None false raf) in
  (result_of r1 = Thrown /\
   calls_of (events_of r1) =
     (Initial, 0) :: cycle_calls 0 ++ [(OnPause, 1)] /\
   ~ In (ConsoleError OnPause) (events_of r1)) /\
  (result_of r2 = Thrown /\
   calls_of (events_of r2) =
     (Initial, 0) :: cycle_calls 0 ++ [(OnPause, 1); (OnPlay, 1)] /\
   ~ In (ConsoleError OnPlay) (events_of r2) /\
   is_running (loop (state_of r2)) = true /\
   get_step (loop (state_of r2)) = 1 /\
   pending (env (state_of r2)) = 0%nat /\
   ticks crashing_on_play 3 (state_of r2) = (Normal, state_of r2, [])).
Proof.
  cbv zeta.
  assert (Hno : forall (e : event) (t : list event),
             forallb (fun x => match x with ConsoleError _ => false | _ => true end) t = true ->
             (exists h, e = ConsoleError h) -> ~ In e t).
  { intros e t Hall [h ->] Hin.
    rewrite forallb_forall in Hall. specialize (Hall _ Hin). discriminate Hall. }
  split; [split; [|split] | split; [|split; [|split; [|split; [|split; [|split]]]]]].
  all: destruct raf.
  all: lazymatch goal with
       | |- ~ In _ _ => apply Hno; [vm_compute; reflexivity | eexists; reflexivity]
       | |- ticks _ _ _ = _ =>
           apply ticks_idle; split; vm_compute; reflexivity
       | |- _ => vm_compute; reflexivity
       end.
Qed.

(** ** The flags [running] and [paused] *)

(** C3, at [start()] on a paused loop: [start()] sets [_running] and, in
    [_init], clears [_kill], but never clears [_paused] (as [play()],
    [finish()] and [_term] do).  After [start(); pause(); start()] the loop
    of the base class is running and still reports itself paused. *)
Theorem C3_restart_while_paused (sps : Q) (RAF raf : bool) :
  let r := script base_class [OpStart; OpPause; OpStart] (create sps None RAF raf) in
  result_of r = Normal /\
  is_running (loop (state_of r)) = true /\
  is_paused (loop (state_of r)) = true /\
  _kill (loop (state_of r)) = false /\
  calls_of (events_of r) =
    (Initial, 0) :: cycle_calls 0 ++ [(OnPause, 1)] ++ (Initial, 0) :: cycle_calls 0.
Proof.
  cbv zeta. split; [|split; [|split; [|split]]].
  all: destruct RAF, raf; vm_compute; reflexivity.
Qed.

(** ** Pending callbacks *)

(** C4, at a strategy switch and at a repeated [start()]: [_cancel_next_step]
    chooses the slot to cancel by the current value of [_RAFActive], not by
    the strategy under which the pending tick was requested.  With a timer
    pending, [set_use_RAF(true)] followed by [pause()] calls no cancel
    primitive and leaves the timer pending; a following [play()] requests a
    second tick, so two callbacks are pending; [finish()] after the switch
    cancels nothing either.  [start()] on a running loop cancels nothing
    and leaves two timers pending, of which a later [pause()] cancels only
    the newer. *)
Theorem C4_pending_tick_not_cancelled (sps : Q) (raf : bool) :
  let r1 := script base_class [OpStart; OpSetUseRAF true; OpPause]
              (create sps None false raf) in
  let r2 := script base_class [OpStart; OpSetUseRAF true; OpPause; OpPlay]
              (create sps None false raf) in
  let r3 := script base_class [OpStart; OpStart] (create sps None false raf) in
  let r4 := script base_class [OpStart; OpSetUseRAF true; OpFinish]
              (create sps None false raf) in
  let r5 := script base_class [OpStart; OpStart; OpPause]
              (create sps None false raf) in
  (is_running (loop (state_of r1)) = false /\
   is_paused (loop (state_of r1)) = true /\
   cancels_of (events_of r1) = [] /\
   map fst (timers (env (state_of r1))) = [1%positive] /\
   pending (env (state_of r1)) = 1%nat) /\
  pending (env (state_of r2)) = 2%nat /\
  (cancels_of (events_of r3) = [] /\
   map fst (timers (env (state_of r3))) = [1%positive; 2%positive] /\
   pending (env (state_of r3)) = 2%nat) /\
  (cancels_of (events_of r4) = [] /\
   map fst (timers (env (state_of r4))) = [1%positive]) /\
  (cancels_of (events_of r5) = [2%positive] /\
   map fst (timers (env (state_of r5))) = [1%positive]).
Proof.
  cbv zeta.
  split; [split; [|split; [|split; [|split]]]
         | split; [|split; [split; [|split] | split; split]]].
  all: destruct raf; vm_compute; reflexivity.
Qed.

(** ** Views of the loop that a computation leaves alone *)

Section Keeps.

Context {A : Type} (proj : StepLoop -> A).
Hypothesis proj_handles : forall t r l, proj (with_handles t r l) = proj l.

Lemma keeps_skip : keeps proj skip.
Proof. intros s. reflexivity. Qed.

Lemma keeps_assign f :
  (forall l, proj (f l) = proj l) -> keeps proj (assign f).
Proof. intros H s. apply H. Qed.

Lemma keeps_andThen a b :
  keeps proj a -> keeps proj b -> keeps proj (andThen a b).
Proof.
  intros Ha Hb s. unfold andThen.
  specialize (Ha s). destruct (a s) as [[[|] s1] t1]; cbn in Ha |- *.
  - specialize (Hb s1). destruct (b s1) as [[o s2] t2]; cbn in Hb |- *.
    rewrite Hb. exact Ha.
  - exact Ha.
Qed.

Lemma keeps_withNow k :
  (forall t, keeps proj (k t)) -> keeps proj (withNow k).
Proof. intros H s. apply H. Qed.

Lemma keeps_cancel : keeps proj _cancel_next_step.
Proof.
  intros s. destruct (cancel_spec s) as (t & r & evs & e & H & _).
  rewrite H. apply proj_handles.
Qed.

Lemma keeps_request ts : keeps proj (_request_next_step ts).
Proof.
  intros s. destruct (_running (loop s)) eqn:Hr.
  - destruct (request_spec ts s Hr) as (t & r & evs & e & H & _).
    rewrite H. apply proj_handles.
  - unfold _request_next_step. rewrite Hr. reflexivity.
Qed.

Variable host : Host.
Hypothesis Hpassive : passive_host host.

Lemma keeps_invoke h : keeps proj (invoke host h).
Proof.
  intros s. unfold invoke. pose proof (Hpassive h s) as P.
  destruct (body host h s) as [o s1]. cbn in P |- *. rewrite P. reflexivity.
Qed.

Lemma keeps_guarded h : keeps proj (guarded host h).
Proof.
  intros s. rewrite guarded_passive by apply Hpassive. reflexivity.
Qed.

Lemma keeps_spawn : keeps proj (spawn_background host).
Proof.
  intros s. rewrite (spawn_passive host s (Hpassive Background)).
  destruct (fst (background host s)); reflexivity.
Qed.

End Keeps.

Ltac keeps_steps :=
  repeat first
    [ apply keeps_andThen
    | apply keeps_assign; intros; reflexivity
    | apply keeps_withNow; intros
    | apply keeps_cancel; intros; reflexivity
    | apply keeps_spawn; assumption
    | apply keeps_guarded; assumption
    | apply keeps_invoke; assumption
    | apply keeps_request; intros; reflexivity ].

(** ** The interval is never stale *)

Section Rate.

Variable host : Host.
Hypothesis Hpassive : passive_host host.

Lemma keeps_rate_term : keeps rate_of (_term host).
Proof. unfold _term. keeps_steps. Qed.

Lemma keeps_rate_run ts : keeps rate_of (_run host ts).
Proof.
  intros s. unfold _run.
  destruct (_running (loop s)); [|reflexivity].
  destruct (_check_for_end_trigger (loop s)); [apply keeps_rate_term|].
  revert s. keeps_steps.
Qed.

Lemma keeps_rate_start : keeps rate_of (start host).
Proof.
  unfold start, _main, _init. keeps_steps. apply keeps_rate_run.
Qed.

Lemma keeps_rate_pause : keeps rate_of (pause host).
Proof.
  intros s. unfold pause.
  destruct (negb (_initialized (loop s)) || negb (_running (loop s)) || _kill (loop s));
    [reflexivity|].
  revert s. keeps_steps.
Qed.

Lemma keeps_rate_play : keeps rate_of (play host).
Proof.
  intros s. unfold play.
  destruct (negb (_initialized (loop s)) || _running (loop s) || _kill (loop s));
    [reflexivity|].
  revert s. keeps_steps. apply keeps_rate_run.
Qed.

Lemma keeps_rate_finish : keeps rate_of (finish host).
Proof.
  intros s. unfold finish.
  destruct (negb (_initialized (loop s)) || _kill (loop s)); [reflexivity|].
  revert s. keeps_steps.
Qed.

Lemma keeps_rate_timer_fires id : keeps rate_of (timer_fires host id).
Proof.
  intros s. unfold timer_fires.
  destruct (due_of id (timers (env s))); [|reflexivity].
  unfold withNow. rewrite keeps_rate_run. reflexivity.
Qed.

Lemma keeps_rate_frame_fires id ts : keeps rate_of (frame_fires host id ts).
Proof.
  intros s. unfold frame_fires.
  destruct (existsb (Pos.eqb id) (frames (env s))); [|reflexivity].
  rewrite keeps_rate_run. reflexivity.
Qed.

(** Every operation leaves the interval equal to [1000 / rate]. *)
Lemma exec_interval_fresh o s :
  interval_fresh (loop s) -> interval_fresh (loop (state_of (exec host o s))).
Proof.
  unfold interval_fresh. intros H.
  assert (K : forall m, keeps rate_of m ->
                _interval (loop (state_of (m s))) =
                (1000 / _sps (loop (state_of (m s))))%Q).
  { intros m Hm. specialize (Hm s). unfold rate_of in Hm.
    injection Hm as H1 H2. rewrite H1, H2. exact H. }
  destruct o; cbn [exec].
  - apply K, keeps_rate_start.
  - apply K, keeps_rate_pause.
  - apply K, keeps_rate_play.
  - apply K, keeps_rate_finish.
  - reflexivity.
  - exact H.
  - apply K. apply keeps_assign. intros l. unfold extend_lifespan.
    destruct (negb (_initialized l)); [reflexivity|].
    destruct steps as [d|]; [|reflexivity].
    cbn. destruct (_kill l && (_step_num l <? or_zero (_lifespan l) + d)); reflexivity.
  - apply K, keeps_rate_timer_fires.
  - apply K, keeps_rate_frame_fires.
  - exact H.
  - rewrite rejection_handler_loop. exact H.
Qed.

(** An invariant of single operations is an invariant of scripts. *)
Lemma script_invariant (P : StepLoop -> Prop) :
  (forall o s, P (loop s) -> P (loop (state_of (exec host o s)))) ->
  forall ops s, P (loop s) -> P (loop (state_of (script host ops s))).
Proof.
  intros Hexec ops. induction ops as [|o ops IH]; intros s H; [exact H|].
  cbn [script]. unfold andThen.
  pose proof (Hexec o s H) as H1.
  destruct (exec host o s) as [[[|] s1] t1]; cbn in H1 |- *.
  - specialize (IH s1 H1). destruct (script host ops s1) as [[o2 s2] t2]. exact IH.
  - exact H1.
Qed.

Lemma reachable_interval_fresh s : reachable host s -> interval_fresh (loop s).
Proof.
  intros (sps & L & RAF & raf & ops & ->).
  apply (script_invariant interval_fresh exec_interval_fresh). reflexivity.
Qed.

End Rate.

(** ** The timer strategy *)

Lemma timeouts_of_app t1 t2 :
  timeouts_of (t1 ++ t2) = timeouts_of t1 ++ timeouts_of t2.
Proof.
  induction t1 as [|[] t1 IH]; cbn [timeouts_of app]; rewrite ?IH; reflexivity.
Qed.

Lemma quiet_nil : quiet [].
Proof. split; [reflexivity|]. intros n []. Qed.

Lemma quiet_app t1 t2 : quiet t1 -> quiet t2 -> quiet (t1 ++ t2).
Proof.
  intros [T1 A1] [T2 A2]. split.
  - rewrite timeouts_of_app, T1, T2. reflexivity.
  - intros n H. rewrite calls_of_app in H. apply in_app_or in H.
    destruct H as [H|H]; [exact (A1 n H) | exact (A2 n H)].
Qed.

Lemma quiet_by_the_rule o s t : quiet t -> by_the_rule (o, s, t).
Proof.
  intros [T A]. split; [left; exact T|].
  intros n H. destruct (A n H).
Qed.

Lemma by_the_rule_after t o s t' :
  quiet t -> by_the_rule (o, s, t') -> by_the_rule (o, s, t ++ t').
Proof.
  intros [T A] [D C]. unfold by_the_rule in *.
  cbn [state_of events_of fst snd] in *.
  rewrite timeouts_of_app, T, calls_of_app. cbn [app].
  split; [exact D|].
  intros n H. apply in_app_or in H. destruct H as [H|H]; [destruct (A n H)|].
  exact (C n H).
Qed.

Lemma stays_quiet_skip : stays_quiet skip.
Proof. intros s. apply quiet_nil. Qed.

Lemma stays_quiet_assign f : stays_quiet (assign f).
Proof. intros s. apply quiet_nil. Qed.

Lemma stays_quiet_andThen a b :
  stays_quiet a -> stays_quiet b -> stays_quiet (andThen a b).
Proof.
  intros Ha Hb s. unfold andThen.
  specialize (Ha s). destruct (a s) as [[[|] s1] t1]; cbn in Ha |- *.
  - specialize (Hb s1). destruct (b s1) as [[o s2] t2]; cbn in Hb |- *.
    apply quiet_app; assumption.
  - exact Ha.
Qed.

Lemma stays_quiet_withNow k : (forall t, stays_quiet (k t)) -> stays_quiet (withNow k).
Proof. intros H s. apply H. Qed.

Lemma stays_quiet_cancel : stays_quiet _cancel_next_step.
Proof.
  intros s. unfold _cancel_next_step.
  destruct (_timeoutId (loop s)), (_RAFActive (loop s)), (_RAFId (loop s));
    (split; [reflexivity|]; cbn; intros n []).
Qed.

Lemma stays_quiet_invoke host h : h <> After -> stays_quiet (invoke host h).
Proof.
  intros Hh s. unfold invoke. destruct (body host h s) as [o s1].
  split; [reflexivity|]. cbn. intros n [H|[]]. injection H as H _. exact (Hh H).
Qed.

Lemma stays_quiet_guarded host h : h <> After -> stays_quiet (guarded host h).
Proof.
  intros Hh s. unfold guarded, tryCatch, invoke, emit.
  destruct (body host h s) as [[|] s1];
    (split; [reflexivity|]; cbn; intros n [H|[]]; injection H as H _; exact (Hh H)).
Qed.

Ltac quiet_steps :=
  repeat first
    [ apply stays_quiet_andThen
    | apply stays_quiet_assign
    | apply stays_quiet_withNow; intros
    | apply stays_quiet_cancel
    | apply stays_quiet_guarded; discriminate
    | apply stays_quiet_invoke; discriminate ].

Lemma stays_quiet_term host : stays_quiet (_term host).
Proof. unfold _term. quiet_steps. Qed.

(** A computation that stays quiet, followed by one that decides by the
    rule. *)
Lemma by_the_rule_andThen (a b : M) :
  stays_quiet a -> (forall x, by_the_rule (b x)) ->
  forall s, by_the_rule (andThen a b s).
Proof.
  intros Ha Hb s. unfold andThen.
  specialize (Ha s). destruct (a s) as [[[|] s1] t1]; cbn in Ha.
  - specialize (Hb s1). destruct (b s1) as [[o s2] t2].
    apply by_the_rule_after; assumption.
  - apply quiet_by_the_rule, Ha.
Qed.

Section Decisions.

Variable host : Host.
Hypothesis Hpassive : passive_host host.

(** [_run]: the only place where a tick is requested. *)
Lemma run_by_the_rule ts s : by_the_rule (_run host ts s).
Proof.
  destruct (_running (loop s)) eqn:Hr.
  2:{ unfold _run. rewrite Hr. apply quiet_by_the_rule, quiet_nil. }
  destruct (_check_for_end_trigger (loop s)) eqn:Hc.
  { unfold _run. rewrite Hr, Hc.
    rewrite (result_triple (_term host s)).
    apply quiet_by_the_rule, stays_quiet_term. }
  destruct (fst (background host s)) eqn:Hb.
  2:{ rewrite (run_escape host Hpassive ts s Hb Hr Hc).
      apply quiet_by_the_rule. split; [reflexivity|].
      cbn. intros n [H|[]]. discriminate H. }
  rewrite (run_cycle host Hpassive ts s Hb Hr Hc). cbv zeta.
  unfold _request_next_step, performance_now. cbn [loop env].
  cbn [after_cycle _running set_lastStepTime set_lastStepDuration set_step_num
       _RAFActive _RAFAvailable _startTime _step_num _interval].
  rewrite Hr. cbn [negb].
  assert (Hcalls : forall t, calls_of t = [] ->
            forall n, In (After, n) (calls_of (cycle_events host s ++ t)) ->
                      n = _step_num (loop s)).
  { intros t Ht n H. rewrite calls_of_app, Ht, app_nil_r in H.
    rewrite (calls_of_cycle_events host) in H.
    unfold cycle_calls, get_step in H. cbn in H.
    destruct H as [H|[H|[H|[H|[]]]]]; try discriminate H.
    injection H as H. symmetry. exact H. }
  assert (Hto : timeouts_of (cycle_events host s) = []).
  { unfold cycle_events, guarded_events. cbv zeta.
    destruct (fst (body host Before _)), (fst (body host Step _)),
             (fst (body host After _)); reflexivity. }
  destruct (_RAFActive (loop s) && _RAFAvailable (loop s)) eqn:Hs.
  - unfold by_the_rule, result_of, state_of, events_of.
    cbn [fst snd loop env requestAnimationFrame].
    rewrite timeouts_of_app, Hto. cbn [timeouts_of app].
    split; [left; reflexivity|].
    intros n H. apply Hcalls in H; [|reflexivity]. subst n.
    unfold get_step. fields. split; [reflexivity|]. rewrite Hs. discriminate.
  - unfold by_the_rule, result_of, state_of, events_of.
    cbn [fst snd loop env setTimeout].
    rewrite timeouts_of_app, Hto. cbn [timeouts_of app].
    unfold get_step. fields.
    rewrite after_background_clock, after_background_next_handle.
    split.
    + right. exists (next_handle (env s)).
      split; [reflexivity|]. split; [exact Hs|]. split; [reflexivity|].
      apply in_or_app. right. left. reflexivity.
    + intros n H. apply Hcalls in H; [|reflexivity]. subst n.
      split; [reflexivity|]. intros _. discriminate.
Qed.

Lemma exec_by_the_rule o s : by_the_rule (exec host o s).
Proof.
  destruct o; cbn [exec].
  - revert s. unfold start, _main, _init.
    repeat (apply by_the_rule_andThen; [quiet_steps|]).
    intros x. apply run_by_the_rule.
  - rewrite (result_triple (pause host s)). apply quiet_by_the_rule.
    unfold pause.
    destruct (negb (_initialized (loop s)) || negb (_running (loop s)) || _kill (loop s));
      [apply quiet_nil|].
    revert s. quiet_steps.
  - unfold play.
    destruct (negb (_initialized (loop s)) || _running (loop s) || _kill (loop s));
      [apply quiet_by_the_rule, quiet_nil|].
    revert s.
    repeat (apply by_the_rule_andThen; [quiet_steps|]).
    intros x. apply run_by_the_rule.
  - rewrite (result_triple (finish host s)). apply quiet_by_the_rule.
    unfold finish.
    destruct (negb (_initialized (loop s)) || _kill (loop s)); [apply quiet_nil|].
    revert s. unfold _term. quiet_steps.
  - apply quiet_by_the_rule, quiet_nil.
  - apply quiet_by_the_rule, quiet_nil.
  - apply quiet_by_the_rule, quiet_nil.
  - unfold timer_fires.
    destruct (due_of id (timers (env s))); [|apply quiet_by_the_rule, quiet_nil].
    apply run_by_the_rule.
  - unfold frame_fires.
    destruct (existsb (Pos.eqb id) (frames (env s)));
      [|apply quiet_by_the_rule, quiet_nil].
    apply run_by_the_rule.
  - apply quiet_by_the_rule, quiet_nil.
  - unfold rejection_handler.
    destruct (rejections (env s)); apply quiet_by_the_rule;
      (split; [reflexivity|]; cbn; intros n []).
Qed.

End Decisions.

(** C6: every scheduling decision follows the rule.  Whatever operation
    or callback is run in a state a host can reach, it requests at most
    one timer.  When it requests one, the timer strategy is in force
    ([requestAnimationFrame] not both selected and available) and the
    delay is [max(0, ideal - now)] with
    [ideal = start_time + step_count * (1000 / rate)], all read at the
    moment of the decision, which is the state the operation leaves: the
    timer is registered for [now + delay] and recorded in [_timeoutId].
    Every cycle that is completed (its [after] hook was called at step [n])
    leaves the step count at [n + 1] and, under the timer strategy, has
    requested such a timer: so cycle [n] schedules cycle [n + 1] at
    [start_time + (n + 1) * (1000 / rate)], measured from the loop's start
    time and not from the previous tick. *)
Theorem C6_fixed_interval_delay (host : Host) (s : Sys) (o : op) :
  passive_host host ->
  reachable host s ->
  let r := exec host o s in
  let s' := state_of r in
  let delay := Qmax 0 (ideal_time (loop s') - performance_now s') in
  _interval (loop s') = (1000 / get_sps (loop s'))%Q /\
  (timeouts_of (events_of r) = [] \/
   exists id,
     timeouts_of (events_of r) = [(id, delay)] /\
     _RAFActive (loop s') && _RAFAvailable (loop s') = false /\
     _timeoutId (loop s') = Some id /\
     In (id, (performance_now s' + delay)%Q) (timers (env s'))) /\
  (forall n, In (After, n) (calls_of (events_of r)) ->
     get_step (loop s') = n + 1 /\
     (_RAFActive (loop s') && _RAFAvailable (loop s') = false ->
      timeouts_of (events_of r) <> [])).
Proof.
  intros Hp Hreach r s' delay.
  assert (Hi : interval_fresh (loop s')).
  { apply (exec_interval_fresh host Hp), (reachable_interval_fresh host Hp s Hreach). }
  split; [exact Hi|].
  pose proof (exec_by_the_rule host Hp o s) as H.
  unfold by_the_rule in H. cbv zeta in H. fold r in H. fold s' in H.
  unfold interval_fresh in Hi. rewrite Hi in H. exact H.
Qed.

Lemma C6_fixed_interval_delay_witness :
  let s := state_of (script base_class [OpStart; OpSetSps 50]
                       (create 60 None false false)) in
  let r := exec base_class (OpTimerFires 1) s in
  let s' := state_of r in
  let delay := Qmax 0 (ideal_time (loop s') - performance_now s') in
  (_interval (loop s') = (1000 / get_sps (loop s'))%Q /\
   (timeouts_of (events_of r) = [] \/
    exists id,
      timeouts_of (events_of r) = [(id, delay)] /\
      _RAFActive (loop s') && _RAFAvailable (loop s') = false /\
      _timeoutId (loop s') = Some id /\
      In (id, (performance_now s' + delay)%Q) (timers (env s'))) /\
   (forall n, In (After, n) (calls_of (events_of r)) ->
      get_step (loop s') = n + 1 /\
      (_RAFActive (loop s') && _RAFAvailable (loop s') = false ->
       timeouts_of (events_of r) <> []))) /\
  In (After, 1) (calls_of (events_of r)) /\
  (performance_now s' == 50 # 3)%Q /\
  (ideal_time (loop s') == 40)%Q /\
  (delay == 70 # 3)%Q.
Proof.
  split.
  - apply (C6_fixed_interval_delay base_class
             (state_of (script base_class [OpStart; OpSetSps 50]
                          (create 60 None false false)))
             (OpTimerFires 1)).
    + exact passive_base_class.
    + exists 60%Q, None, false, false, [OpStart; OpSetSps 50]. reflexivity.
  - split; [vm_compute; auto|]. split; [|split]; vm_compute; reflexivity.
Defined.

(** ** [play()] *)

Lemma play_unfold host s :
  play host s =
  if negb (_initialized (loop s)) || _running (loop s) || _kill (loop s)
  then (Normal, s, [])
  else andThen (invoke host OnPlay) (withNow (_run host)) (resumed s).
Proof.
  unfold play.
  destruct (negb (_initialized (loop s)) || _running (loop s) || _kill (loop s));
    [reflexivity|].
  rewrite !andThen_assign, andThen_withNow, andThen_assign. reflexivity.
Qed.

(** C7: [play()] changes nothing and calls nothing unless the loop is
    initialised, not running and not killed.  Otherwise [on_play] is called
    on a loop that is running, not paused, whose start time is
    [now - step_count * interval] and whose other fields are as before;
    when [on_play] returns, [play()] continues as [_run(performance.now())]
    from the state the hook left. *)
Theorem C7_play (host : Host) (s : Sys) :
  fst (on_play host (resumed s)) = Normal ->
  let s1 := resumed s in
  let s2 := snd (on_play host s1) in
  let r := _run host (performance_now s2) s2 in
  (is_running (loop s1) = true /\
   is_paused (loop s1) = false /\
   _startTime (loop s1) =
     (performance_now s - inject_Z (get_step (loop s)) * _interval (loop s))%Q /\
   untouched_by_play (loop s) (loop s1) /\
   env s1 = env s) /\
  play host s =
    if _initialized (loop s) && negb (_running (loop s)) && negb (_kill (loop s))
    then (result_of r, state_of r, Call OnPlay (get_step (loop s)) :: events_of r)
    else (Normal, s, []).
Proof.
  intros Hok s1 s2 r. split.
  - unfold untouched_by_play. repeat split.
  - rewrite play_unfold.
    destruct (_initialized (loop s)), (_running (loop s)), (_kill (loop s));
      try reflexivity.
    cbn [negb orb andb]. unfold andThen, invoke. cbn [body].
    subst r s2 s1. destruct (on_play host (resumed s)) as [o s2].
    cbn [fst snd] in *. rewrite Hok.
    unfold withNow.
    destruct (_run host (performance_now s2) s2) as [[o3 s3] t3]. reflexivity.
Qed.

Lemma C7_play_witness :
  let s := state_of (script base_class [OpStart; OpElapse 5; OpPause; OpElapse 100]
                       (create 60 None false false)) in
  let s1 := resumed s in
  let s2 := snd (on_play base_class s1) in
  let r := _run base_class (performance_now s2) s2 in
  (is_running (loop s1) = true /\
   is_paused (loop s1) = false /\
   _startTime (loop s1) =
     (performance_now s - inject_Z (get_step (loop s)) * _interval (loop s))%Q /\
   untouched_by_play (loop s) (loop s1) /\
   env s1 = env s) /\
  play base_class s =
    if _initialized (loop s) && negb (_running (loop s)) && negb (_kill (loop s))
    then (result_of r, state_of r, Call OnPlay (get_step (loop s)) :: events_of r)
    else (Normal, s, []).
Proof.
  apply (C7_play base_class
           (state_of (script base_class [OpStart; OpElapse 5; OpPause; OpElapse 100]
                        (create 60 None false false)))).
  reflexivity.
Defined.

(** ** Calls in an invalid state *)

Lemma start_calls_initial host s :
  exists t, events_of (start host s) = Call Initial 0 :: t.
Proof.
  unfold start, _main, _init.
  rewrite andThen_assign, andThen_withNow, andThen_assign.
  repeat (rewrite andThen_assoc || rewrite andThen_assign).
  cbn [loop env]. unfold andThen.
  match goal with |- context [guarded host Initial ?x] => set (s0 := x) end.
  pose proof (guarded_result host Initial s0) as Hres.
  assert (Hev : exists t, events_of (guarded host Initial s0) = Call Initial 0 :: t).
  { unfold guarded, tryCatch, invoke, emit. cbn [body].
    destruct (initial host s0) as [[|] s1]; eexists; reflexivity. }
  destruct Hev as [t Hev].
  destruct (guarded host Initial s0) as [[o s1] t1].
  cbn in Hres, Hev. subst o t1.
  destruct (withNow (_run host) s1) as [[o2 s2] t2].
  eexists. reflexivity.
Qed.

(** C9: [pause()], [play()] and [finish()] called in a state where they
    are not valid return normally, emit no event (no hook is called, no
    timer is touched) and leave the whole state as it was.  [start()] has no
    such guard: from any state it calls [initial] first, on a loop whose
    step number has been reset to 0, and it returns normally when
    [background] returns its promise (the call of [background] in the
    first cycle is the one place where [start()] can throw). *)
Theorem C9_invalid_calls_do_nothing (host : Host) (s : Sys) :
  (_initialized (loop s) = false \/ _running (loop s) = false \/
   _kill (loop s) = true ->
   pause host s = (Normal, s, [])) /\
  (_initialized (loop s) = false \/ _running (loop s) = true \/
   _kill (loop s) = true ->
   play host s = (Normal, s, [])) /\
  (_initialized (loop s) = false \/ _kill (loop s) = true ->
   finish host s = (Normal, s, [])) /\
  (returns (background host) -> result_of (start host s) = Normal) /\
  (exists t, events_of (start host s) = Call Initial 0 :: t).
Proof.
  split; [|split; [|split; [|split]]].
  - intros H. unfold pause.
    destruct (_initialized (loop s)), (_running (loop s)), (_kill (loop s));
      try reflexivity.
    destruct H as [H|[H|H]]; discriminate H.
  - intros H. unfold play.
    destruct (_initialized (loop s)), (_running (loop s)), (_kill (loop s));
      try reflexivity.
    destruct H as [H|[H|H]]; discriminate H.
  - intros H. unfold finish.
    destruct (_initialized (loop s)), (_kill (loop s)); try reflexivity.
    destruct H as [H|H]; discriminate H.
  - apply start_result.
  - apply start_calls_initial.
Qed.

Lemma C9_invalid_calls_do_nothing_witness :
  let fresh := create 60 None false false in
  let running := state_of (start crashing_on_play fresh) in
  let finished := state_of (finish crashing_on_play running) in
  (pause crashing_on_pause fresh = (Normal, fresh, []) /\
   play crashing_on_play fresh = (Normal, fresh, []) /\
   finish base_class fresh = (Normal, fresh, [])) /\
  play crashing_on_play running = (Normal, running, []) /\
  (pause crashing_on_pause finished = (Normal, finished, []) /\
   play crashing_on_play finished = (Normal, finished, []) /\
   finish base_class finished = (Normal, finished, [])) /\
  result_of (start crashing_on_play finished) = Normal.
Proof.
  cbv zeta.
  split; [split; [|split] | split; [|split; [split; [|split]|]]].
  - apply (proj1 (C9_invalid_calls_do_nothing crashing_on_pause _)).
    left. reflexivity.
  - apply (proj1 (proj2 (C9_invalid_calls_do_nothing crashing_on_play _))).
    left. reflexivity.
  - apply (proj1 (proj2 (proj2 (C9_invalid_calls_do_nothing base_class _)))).
    left. reflexivity.
  - apply (proj1 (proj2 (C9_invalid_calls_do_nothing crashing_on_play _))).
    right. left. reflexivity.
  - apply (proj1 (C9_invalid_calls_do_nothing crashing_on_pause _)).
    right. right. reflexivity.
  - apply (proj1 (proj2 (C9_invalid_calls_do_nothing crashing_on_play _))).
    right. right. reflexivity.
  - apply (proj1 (proj2 (proj2 (C9_invalid_calls_do_nothing base_class _)))).
    right. reflexivity.
  - apply (proj1 (proj2 (proj2 (proj2 (C9_invalid_calls_do_nothing
             crashing_on_play _))))).
    intros s. reflexivity.
Defined.

(** ** Extending the lifespan *)

Section Revival.

Variable host : Host.
Hypothesis Hpassive : passive_host host.

(** [finish()] on an initialised loop that is not yet killed. *)
Lemma finish_spec s :
  _initialized (loop s) = true ->
  _kill (loop s) = false ->
  exists t r evs e,
    finish host s =
      (Normal,
       mkSys (set_kill true (with_handles t r
                (set_paused false (set_running false (loop s))))) e,
       evs) /\
    calls_of evs = [(Final, get_step (loop s))] /\
    clock e = clock (env s) /\
    (pending e <= pending (env s))%nat.
Proof.
  intros Hi Hk. unfold finish. rewrite Hi, Hk. cbn [negb orb].
  rewrite !andThen_assign.
  destruct (cancel_spec
              (mkSys (set_kill true (set_paused false (set_running false (loop s))))
                     (env s)))
    as (t1 & r1 & evs1 & e1 & Hc & Hcalls1 & Hclock1 & _ & Hpend1).
  cbn [loop env] in Hc, Hclock1, Hpend1.
  rewrite (andThen_normal _ _ _ _ _ Hc).
  destruct (term_spec host Hpassive
              (mkSys (with_handles t1 r1
                 (set_kill true (set_paused false (set_running false (loop s))))) e1))
    as (t2 & r2 & evs2 & e2 & Ht & Hcalls2 & Hclock2 & _ & Hpend2).
  rewrite Ht. cbn [loop env] in *.
  exists t2, r2, (evs1 ++ evs2), e2.
  split; [|split; [|split]].
  - unfold result_of, state_of, events_of; cbn [fst snd].
    destruct (loop s); reflexivity.
  - rewrite calls_of_app, Hcalls1, Hcalls2. reflexivity.
  - congruence.
  - lia.
Qed.

Hypothesis Hasync : returns (background host).

(** [play()] on a loop that may resume, with an [on_play] that returns:
    one cycle runs at once and the next is requested. *)
Lemma play_spec s :
  _initialized (loop s) = true ->
  _running (loop s) = false ->
  _kill (loop s) = false ->
  exhausted (_lifespan (loop s)) (_step_num (loop s)) = false ->
  fst (on_play host (resumed s)) = Normal ->
  exists t r evs e,
    play host s =
      (Normal,
       mkSys (with_handles t r (after_cycle (clock (env s)) (loop (resumed s)))) e,
       evs) /\
    calls_of evs = (OnPlay, get_step (loop s)) :: cycle_calls (get_step (loop s)) /\
    (idle (env s) -> one_pending e) /\
    pending e = S (pending (env s)).
Proof.
  intros Hi Hr Hk Hex Hok.
  rewrite play_unfold, Hi, Hr, Hk. cbn [negb orb].
  assert (Hinv : invoke host OnPlay (resumed s) =
                 (Normal, resumed s, [Call OnPlay (get_step (loop s))])).
  { unfold invoke. cbn [body]. pose proof (Hpassive OnPlay (resumed s)) as P.
    cbn [body] in P. destruct (on_play host (resumed s)) as [o s1].
    cbn [fst snd] in *. subst. reflexivity. }
  rewrite (andThen_normal _ _ _ _ _ Hinv).
  destruct (run_cycle_spec host Hpassive (clock (env s)) (resumed s))
    as (t & r & evs & e & Hrun & Hcalls & Hone & Hpend).
  { apply Hasync. }
  { reflexivity. }
  { rewrite check_unfold. cbn [resumed loop _kill _lifespan _step_num
      set_startTime set_paused set_running]. rewrite Hk, Hex. reflexivity. }
  unfold withNow, performance_now. cbn [resumed env] in *. rewrite Hrun.
  exists t, r, (Call OnPlay (get_step (loop s)) :: evs), e.
  split; [reflexivity|]. split; [|auto].
  cbn [calls_of]. rewrite Hcalls. reflexivity.
Qed.

End Revival.

(** C10: the revival by [extend_lifespan] does not look at why the loop was
    killed.  After an explicit [finish()] of an initialised loop, an
    [extend_lifespan(d)] that makes the lifespan exceed the step count
    clears [_kill], and [play()] then resumes where the loop stopped: it
    calls [on_play], runs the cycle numbered with the old step count (no
    [initial], no reset) and requests the next tick.  The hooks leave the
    loop alone, [on_play] returns, and [background] returns its promise:
    an exception thrown by either of the two calls would leave [play()]. *)
Theorem C10_extend_revives_finished (host : Host) (s : Sys) (d : Z) :
  passive_host host ->
  returns (background host) ->
  returns (on_play host) ->
  _initialized (loop s) = true ->
  _kill (loop s) = false ->
  _step_num (loop s) < or_zero (_lifespan (loop s)) + d ->
  let r1 := finish host s in
  let s1 := state_of r1 in
  let x := extend_lifespan (Some d) (loop s1) in
  let s2 := mkSys (snd x) (env s1) in
  let r3 := play host s2 in
  (_kill (loop s1) = true /\ is_running (loop s1) = false /\
   calls_of (events_of r1) = [(Final, get_step (loop s))]) /\
  (fst x = Some (or_zero (get_lifespan (loop s)) + d) /\
   get_lifespan (loop s2) = Some (or_zero (get_lifespan (loop s)) + d) /\
   _kill (loop s2) = false) /\
  (result_of r3 = Normal /\
   is_running (loop (state_of r3)) = true /\
   is_paused (loop (state_of r3)) = false /\
   _kill (loop (state_of r3)) = false /\
   get_step (loop (state_of r3)) = get_step (loop s) + 1 /\
   calls_of (events_of r3) =
     (OnPlay, get_step (loop s)) :: cycle_calls (get_step (loop s)) /\
   pending (env (state_of r3)) = S (pending (env s1))).
Proof.
  intros Hp Hb Hret Hi Hk Hlt. cbv zeta.
  destruct (finish_spec host Hp s Hi Hk) as (t & r & evs & e & Hf & Hcalls & _ & _).
  rewrite Hf. cbn [state_of result_of events_of fst snd loop env].
  set (l1 := set_kill true (with_handles t r
               (set_paused false (set_running false (loop s))))).
  set (n := or_zero (_lifespan (loop s)) + d).
  assert (Hx : extend_lifespan (Some d) l1 =
               (Some n, set_kill false (set_lifespan (Some n) l1))).
  { unfold extend_lifespan. subst l1.
    cbn [_initialized _kill _lifespan _step_num set_kill with_handles
         set_RAFId set_timeoutId set_paused set_running set_lifespan].
    rewrite Hi. cbn [negb andb]. fold n.
    replace (_step_num (loop s) <? n) with true
      by (symmetry; apply Z.ltb_lt; exact Hlt).
    reflexivity. }
  rewrite Hx. cbn [fst snd].
  set (s2 := mkSys (set_kill false (set_lifespan (Some n) l1)) e).
  split; [|split].
  - split; [reflexivity|]. split; [reflexivity|]. exact Hcalls.
  - split; [reflexivity|]. split; reflexivity.
  - destruct (play_spec host Hp Hb s2)
      as (t' & r' & evs' & e' & Hplay & Hcalls' & _ & Hpend).
    { exact Hi. }
    { reflexivity. }
    { reflexivity. }
    { subst s2 l1.
      cbn [loop _lifespan _step_num set_kill set_lifespan with_handles
           set_RAFId set_timeoutId set_paused set_running exhausted].
      replace (n <=? _step_num (loop s)) with false
        by (symmetry; apply Z.leb_gt; exact Hlt).
      apply andb_false_r. }
    { apply Hret. }
    rewrite Hplay. cbn [fst snd loop env].
    split; [reflexivity|]. split; [reflexivity|]. split; [reflexivity|].
    split; [reflexivity|]. split; [reflexivity|].
    split; [exact Hcalls'|]. exact Hpend.
Qed.

Lemma C10_extend_revives_finished_witness :
  let s := state_of (script base_class [OpStart; OpTimerFires 1; OpTimerFires 2]
                       (create 60 (Some 10) false false)) in
  let r1 := finish base_class s in
  let s1 := state_of r1 in
  let x := extend_lifespan (Some 2) (loop s1) in
  let s2 := mkSys (snd x) (env s1) in
  let r3 := play base_class s2 in
  (_kill (loop s1) = true /\ is_running (loop s1) = false /\
   calls_of (events_of r1) = [(Final, get_step (loop s))]) /\
  (fst x = Some (or_zero (get_lifespan (loop s)) + 2) /\
   get_lifespan (loop s2) = Some (or_zero (get_lifespan (loop s)) + 2) /\
   _kill (loop s2) = false) /\
  (result_of r3 = Normal /\
   is_running (loop (state_of r3)) = true /\
   is_paused (loop (state_of r3)) = false /\
   _kill (loop (state_of r3)) = false /\
   get_step (loop (state_of r3)) = get_step (loop s) + 1 /\
   calls_of (events_of r3) =
     (OnPlay, get_step (loop s)) :: cycle_calls (get_step (loop s)) /\
   pending (env (state_of r3)) = S (pending (env s1))).
Proof.
  apply (C10_extend_revives_finished base_class
           (state_of (script base_class [OpStart; OpTimerFires 1; OpTimerFires 2]
                        (create 60 (Some 10) false false))) 2).
  - exact passive_base_class.
  - exact async_base_class.
  - intros s. reflexivity.
  - reflexivity.
  - reflexivity.
  - reflexivity.
Defined.

(** C8: [extend_lifespan] on an uninitialised loop returns [undefined] and
    changes nothing.  On an initialised loop, a [steps] that is not a number
    makes the lifespan unlimited; a number [d] makes it
    [(lifespan || 0) + d], and the new lifespan is returned.  For a loop of
    the base class constructed with lifespan 2 that has stopped by itself:
    [extend_lifespan(2)] returns 4, [get_lifespan()] is 4, the loop is no
    longer killed, and [play()] runs the cycles 2 and 3 and then the
    termination stage, at step count 4. *)
Theorem C8_extend_lifespan (l : StepLoop) (steps : option Z) (d : Z)
    (sps : Q) (RAF raf : bool) :
  (_initialized l = false -> extend_lifespan steps l = (None, l)) /\
  (_initialized l = true ->
   fst (extend_lifespan None l) = None /\
   get_lifespan (snd (extend_lifespan None l)) = None) /\
  (_initialized l = true ->
   fst (extend_lifespan (Some d) l) = Some (or_zero (get_lifespan l) + d) /\
   get_lifespan (snd (extend_lifespan (Some d) l)) =
     Some (or_zero (get_lifespan l) + d)) /\
  (let r1 := andThen (start base_class) (ticks base_class 5)
               (create sps (Some 2) RAF raf) in
   let s1 := state_of r1 in
   let x := extend_lifespan (Some 2) (loop s1) in
   let r2 := andThen (play base_class) (ticks base_class 5)
               (mkSys (snd x) (env s1)) in
   (get_step (loop s1) = 2 /\ is_running (loop s1) = false /\
    _kill (loop s1) = true) /\
   (fst x = Some 4 /\ get_lifespan (snd x) = Some 4 /\ _kill (snd x) = false) /\
   (result_of r2 = Normal /\
    get_step (loop (state_of r2)) = 4 /\
    is_running (loop (state_of r2)) = false /\
    _kill (loop (state_of r2)) = true /\
    calls_of (events_of r2) =
      (OnPlay, 2) :: cycle_calls 2 ++ cycle_calls 3 ++ [(Final, 4)])).
Proof.
  split; [|split; [|split]].
  - intros Hi. unfold extend_lifespan. rewrite Hi. reflexivity.
  - intros Hi. unfold extend_lifespan. rewrite Hi. split; reflexivity.
  - intros Hi. unfold extend_lifespan. rewrite Hi. cbn [negb].
    destruct (_kill _ && _); split; reflexivity.
  - cbv zeta.
    split; [split; [|split] | split; [split; [|split] | split; [|split; [|split; [|split]]]]].
    all: destruct RAF, raf; vm_compute; reflexivity.
Qed.

Lemma C8_extend_lifespan_witness :
  let fresh := new_StepLoop 60 (Some 2) false false in
  let begun := loop (state_of (start base_class (create 60 None false false))) in
  extend_lifespan (Some 7) fresh = (None, fresh) /\
  (fst (extend_lifespan None begun) = None /\
   get_lifespan (snd (extend_lifespan None begun)) = None) /\
  (fst (extend_lifespan (Some 7) begun) = Some (or_zero (get_lifespan begun) + 7) /\
   get_lifespan (snd (extend_lifespan (Some 7) begun)) =
     Some (or_zero (get_lifespan begun) + 7)).
Proof.
  cbv zeta. split; [|split].
  - apply (proj1 (C8_extend_lifespan (new_StepLoop 60 (Some 2) false false)
                    (Some 7) 0 60 false false)).
    reflexivity.
  - apply (proj1 (proj2 (C8_extend_lifespan
             (loop (state_of (start base_class (create 60 None false false))))
             None 7 60 false false))).
    reflexivity.
  - apply (proj1 (proj2 (proj2 (C8_extend_lifespan
             (loop (state_of (start base_class (create 60 None false false))))
             None 7 60 false false)))).
    reflexivity.
Defined.

(** ** Killed loops neither run nor pause *)

Section Flags.

Variable host : Host.
Hypothesis Hpassive : passive_host host.

Lemma term_flags s : flags_of (loop (state_of (_term host s))) = (true, false, false).
Proof.
  destruct (term_spec host Hpassive s) as (t & r & evs & e & H & _).
  rewrite H. reflexivity.
Qed.

Lemma flags_consistent_dead l :
  flags_of l = (true, false, false) -> flags_consistent l.
Proof.
  unfold flags_of, flags_consistent. intros H _. injection H as _ H1 H2. auto.
Qed.

Lemma flags_consistent_alive l : _kill l = false -> flags_consistent l.
Proof. unfold flags_consistent. intros H H'. rewrite H in H'. discriminate H'. Qed.

Lemma flags_consistent_same l l' :
  flags_of l' = flags_of l -> flags_consistent l -> flags_consistent l'.
Proof.
  unfold flags_of, flags_consistent. intros H K.
  injection H as H1 H2 H3. rewrite H1, H2, H3. exact K.
Qed.

Lemma run_flags ts s :
  flags_consistent (loop s) ->
  flags_consistent (loop (state_of (_run host ts s))).
Proof.
  intros K. unfold _run.
  destruct (_running (loop s)) eqn:Hr; [|exact K].
  destruct (_check_for_end_trigger (loop s)) eqn:Hc.
  - apply flags_consistent_dead, term_flags.
  - apply (flags_consistent_same (loop s)); [|exact K].
    revert s K Hr Hc.
    assert (Hk : keeps flags_of
              (andThen (spawn_background host)
                 (andThen (guarded host Before)
                    (andThen (guarded host Step)
                       (andThen (guarded host After)
                          (andThen (assign (fun l => set_step_num (_step_num l + 1) l))
                             (andThen (assign (fun l =>
                                  set_lastStepDuration (ts - _lastStepTime l)%Q l))
                                (andThen (assign (set_lastStepTime ts))
                                   (_request_next_step ts))))))))).
    { keeps_steps. }
    intros s _ _ _. apply Hk.
Qed.

Lemma start_flags s : flags_consistent (loop (state_of (start host s))).
Proof.
  unfold start, _main, _init.
  rewrite andThen_assign, andThen_withNow, andThen_assign.
  repeat (rewrite andThen_assoc || rewrite andThen_assign).
  rewrite andThen_guarded by apply (Hpassive Initial).
  unfold state_of at 1. cbn [fst snd]. unfold withNow.
  apply run_flags, flags_consistent_alive. reflexivity.
Qed.

Lemma pause_flags s :
  flags_consistent (loop s) ->
  flags_consistent (loop (state_of (pause host s))).
Proof.
  intros K. unfold pause.
  destruct (negb (_initialized (loop s)) || negb (_running (loop s)) || _kill (loop s))
    eqn:G; [exact K|].
  apply orb_false_elim in G. destruct G as [_ Hk].
  apply flags_consistent_alive.
  assert (Hkeep : keeps _kill
            (andThen (assign (set_running false))
               (andThen (assign (set_paused true))
                  (andThen _cancel_next_step (invoke host OnPause))))).
  { keeps_steps. }
  rewrite (Hkeep s). exact Hk.
Qed.

Lemma play_flags s :
  flags_consistent (loop s) ->
  flags_consistent (loop (state_of (play host s))).
Proof.
  intros K. rewrite play_unfold.
  destruct (negb (_initialized (loop s)) || _running (loop s) || _kill (loop s))
    eqn:G; [exact K|].
  apply orb_false_elim in G. destruct G as [_ Hk].
  unfold andThen, invoke. cbn [body].
  pose proof (Hpassive OnPlay (resumed s)) as P. cbn [body] in P.
  destruct (on_play host (resumed s)) as [[|] s1]; cbn [fst snd] in P; subst s1.
  - pose proof (run_flags (performance_now (resumed s)) (resumed s)) as R.
    unfold withNow.
    destruct (_run host (performance_now (resumed s)) (resumed s)) as [[o s2] t2].
    apply R. apply flags_consistent_alive. exact Hk.
  - apply flags_consistent_alive. exact Hk.
Qed.

Lemma finish_flags s :
  flags_consistent (loop s) ->
  flags_consistent (loop (state_of (finish host s))).
Proof.
  intros K.
  destruct (_initialized (loop s)) eqn:Hi, (_kill (loop s)) eqn:Hk;
    try (unfold finish; rewrite Hi, Hk; exact K).
  destruct (finish_spec host Hpassive s Hi Hk) as (t & r & evs & e & H & _).
  rewrite H. apply flags_consistent_dead. reflexivity.
Qed.

Lemma extend_flags steps l :
  flags_consistent l -> flags_consistent (snd (extend_lifespan steps l)).
Proof.
  intros K. unfold extend_lifespan.
  destruct (negb (_initialized l)); [exact K|].
  destruct steps as [d|]; [|exact K].
  cbn [snd]. destruct (_kill _ && _) eqn:E.
  - apply flags_consistent_alive. reflexivity.
  - exact K.
Qed.

(** Every operation keeps the flags consistent. *)
Lemma exec_flags o s :
  flags_consistent (loop s) ->
  flags_consistent (loop (state_of (exec host o s))).
Proof.
  intros K. destruct o; cbn [exec].
  - apply start_flags.
  - apply pause_flags, K.
  - apply play_flags, K.
  - apply finish_flags, K.
  - exact K.
  - exact K.
  - apply extend_flags, K.
  - unfold timer_fires. destruct (due_of id (timers (env s))); [|exact K].
    unfold withNow. apply run_flags. exact K.
  - unfold frame_fires.
    destruct (existsb (Pos.eqb id) (frames (env s))); [|exact K].
    apply run_flags. exact K.
  - exact K.
  - rewrite rejection_handler_loop. exact K.
Qed.

End Flags.

(** ** Lifecycle properties of whole runs *)

(** X1: a loop constructed with a positive lifespan [N], started and left
    to run, stops by itself after exactly [N] cycles: [get_step()] is [N],
    the loop is neither running nor paused, it is killed, nothing is
    pending, and [final] was called once, after the [N] cycles.  The hooks
    leave the loop alone and may throw, the promise of [background] may be
    rejected, but the call of [background] returns its promise. *)
Theorem positive_lifespan_run (host : Host) (sps : Q) (N : Z) (RAF raf : bool)
    (fuel : nat) :
  passive_host host ->
  returns (background host) ->
  0 < N ->
  (Z.to_nat N <= fuel)%nat ->
  let r := andThen (start host) (ticks host fuel) (create sps (Some N) RAF raf) in
  result_of r = Normal /\
  get_step (loop (state_of r)) = N /\
  is_running (loop (state_of r)) = false /\
  is_paused (loop (state_of r)) = false /\
  _kill (loop (state_of r)) = true /\
  pending (env (state_of r)) = 0%nat /\
  calls_of (events_of r) =
    (Initial, 0) :: cycles_from 0 (Z.to_nat N) ++ [(Final, N)].
Proof.
  intros Hp Hb HN Hfuel r.
  destruct (positive_lifespan_ends host (create sps (Some N) RAF raf) N fuel Hp Hb)
    as (Hres & Hend & Hcalls); try assumption.
  { apply idle_create. }
  { reflexivity. }
  destruct Hend as (_ & Hr & Hpa & Hk & Hn & _ & Hidle).
  repeat split; try assumption. apply idle_count, Hidle.
Qed.

Lemma positive_lifespan_run_witness :
  let r := andThen (start failing_hooks) (ticks failing_hooks 7)
             (create 100 (Some 3) false false) in
  result_of r = Normal /\
  get_step (loop (state_of r)) = 3 /\
  is_running (loop (state_of r)) = false /\
  is_paused (loop (state_of r)) = false /\
  _kill (loop (state_of r)) = true /\
  pending (env (state_of r)) = 0%nat /\
  calls_of (events_of r) =
    (Initial, 0) :: cycles_from 0 (Z.to_nat 3) ++ [(Final, 3)].
Proof.
  apply (positive_lifespan_run failing_hooks 100 3 false false 7).
  - exact passive_failing_hooks.
  - exact async_failing_hooks.
  - reflexivity.
  - vm_compute. lia.
Defined.

(** X2: in every state a host can reach through the public operations and
    the firing of callbacks, a killed loop is neither running nor paused. *)
Theorem killed_loop_is_stopped (host : Host) (s : Sys) :
  passive_host host ->
  reachable host s ->
  _kill (loop s) = true ->
  is_running (loop s) = false /\ is_paused (loop s) = false.
Proof.
  intros Hp (sps & L & RAF & raf & ops & ->).
  apply (script_invariant host flags_consistent (exec_flags host Hp)).
  intros H. discriminate H.
Qed.

Lemma killed_loop_is_stopped_witness :
  let s := state_of (script base_class
                       [OpStart; OpPause; OpStart; OpTimerFires 2; OpFinish]
                       (create 60 None false false)) in
  is_running (loop s) = false /\ is_paused (loop s) = false.
Proof.
  apply (killed_loop_is_stopped base_class
           (state_of (script base_class
                        [OpStart; OpPause; OpStart; OpTimerFires 2; OpFinish]
                        (create 60 None false false)))).
  - exact passive_base_class.
  - exists 60%Q, None, false, false,
      [OpStart; OpPause; OpStart; OpTimerFires 2; OpFinish].
    reflexivity.
  - reflexivity.
Defined.

(** X3: whatever the hooks [initial], [before], [step], [after] and
    [final] do, and whatever becomes of the promise of [background],
    [start()], [finish()] and the callbacks the loop registers return
    normally, provided the call of [background] returns its promise: an
    exception thrown by one of the five guarded hooks never reaches the
    caller. *)
Theorem guarded_hooks_never_propagate (host : Host) (s : Sys)
    (id : positive) (ts : Q) :
  returns (background host) ->
  result_of (start host s) = Normal /\
  result_of (finish host s) = Normal /\
  result_of (timer_fires host id s) = Normal /\
  result_of (frame_fires host id ts s) = Normal /\
  result_of (tick host s) = Normal.
Proof.
  intros Hb.
  split; [apply start_result, Hb|]. split; [apply finish_result|].
  split; [|split; [|apply tick_result, Hb]].
  - unfold timer_fires. destruct (due_of _ _); [apply run_result, Hb|reflexivity].
  - unfold frame_fires. destruct (existsb _ _); [apply run_result, Hb|reflexivity].
Qed.

Lemma guarded_hooks_never_propagate_witness :
  let s := state_of (start failing_hooks (create 60 None false false)) in
  result_of (start failing_hooks s) = Normal /\
  result_of (finish failing_hooks s) = Normal /\
  result_of (timer_fires failing_hooks 1 s) = Normal /\
  result_of (frame_fires failing_hooks 1 0 s) = Normal /\
  result_of (tick failing_hooks s) = Normal.
Proof.
  apply (guarded_hooks_never_propagate failing_hooks
           (state_of (start failing_hooks (create 60 None false false))) 1 0).
  exact async_failing_hooks.
Defined.

(** ** A loop that is not running *)

Lemma exec_inert host o s :
  _running (loop s) = false ->
  inert (loop s) o = true ->
  result_of (exec host o s) = Normal /\
  loop (state_of (exec host o s)) = loop s /\
  events_of (exec host o s) = [].
Proof.
  intros Hr Hi. destruct o; cbn [exec inert] in *; try discriminate Hi.
  - unfold pause. rewrite Hr. rewrite orb_true_r. cbn [orb]. auto.
  - unfold play. rewrite Hi, orb_true_r. auto.
  - unfold finish. rewrite Hi, orb_true_r. auto.
  - unfold timer_fires. destruct (due_of id (timers (env s))); [|auto].
    unfold withNow, _run. cbn [loop]. rewrite Hr. auto.
  - unfold frame_fires. destruct (existsb _ _); [|auto].
    unfold _run. cbn [loop]. rewrite Hr. auto.
  - auto.
Qed.

(** X4: while a loop is not running (paused, finished, or never started),
    nothing but [start()], [play()] and the setters changes it: whatever
    time passes and whichever timer or animation-frame callbacks fire, and
    however often [pause()] is called (for a killed loop also [play()] and
    [finish()]), every field of the loop keeps its value, in particular
    [get_step()], no hook is called and nothing is scheduled. *)
Theorem stopped_loop_is_frozen (host : Host) (ops : list op) (s : Sys) :
  _running (loop s) = false ->
  forallb (inert (loop s)) ops = true ->
  result_of (script host ops s) = Normal /\
  loop (state_of (script host ops s)) = loop s /\
  events_of (script host ops s) = [].
Proof.
  revert s. induction ops as [|o ops IH]; intros s Hr Hall.
  - cbn. auto.
  - cbn [forallb] in Hall. apply andb_prop in Hall. destruct Hall as [Ho Hall].
    destruct (exec_inert host o s Hr Ho) as (R1 & L1 & E1).
    cbn [script]. rewrite (andThen_ok _ _ s R1).
    destruct (IH (state_of (exec host o s))) as (R2 & L2 & E2).
    { rewrite L1. exact Hr. }
    { rewrite L1. exact Hall. }
    unfold result_of, state_of, events_of in *. cbn [fst snd].
    rewrite E1, E2, L2, L1. auto.
Qed.

Lemma stopped_loop_is_frozen_witness :
  let s := state_of (script crashing_on_play [OpStart; OpStart; OpPause]
                       (create 60 None false false)) in
  let r := script crashing_on_play
             [OpElapse 1000; OpTimerFires 1; OpPause; OpTimerFires 2;
              OpFrameFires 3 5; OpElapse 50] s in
  result_of r = Normal /\ loop (state_of r) = loop s /\ events_of r = [].
Proof.
  apply (stopped_loop_is_frozen crashing_on_play
           [OpElapse 1000; OpTimerFires 1; OpPause; OpTimerFires 2;
            OpFrameFires 3 5; OpElapse 50]
           (state_of (script crashing_on_play [OpStart; OpStart; OpPause]
                        (create 60 None false false)))).
  - reflexivity.
  - reflexivity.
Defined.

(** ** What the lifecycle leaves alone *)

Section Frame.

Variable host : Host.
Hypothesis Hpassive : passive_host host.

Lemma keeps_config_term : keeps config_of (_term host).
Proof. unfold _term. keeps_steps. Qed.

Lemma keeps_config_run ts : keeps config_of (_run host ts).
Proof.
  intros s. unfold _run.
  destruct (_running (loop s)); [|reflexivity].
  destruct (_check_for_end_trigger (loop s)); [apply keeps_config_term|].
  revert s. keeps_steps.
Qed.

Lemma exec_keeps_config o s :
  not_setter o = true ->
  config_of (loop (state_of (exec host o s))) = config_of (loop s).
Proof.
  intros Ho. destruct o; cbn [exec not_setter] in *; try discriminate Ho.
  - revert s. unfold start, _main, _init. keeps_steps. apply keeps_config_run.
  - unfold pause.
    destruct (negb (_initialized (loop s)) || negb (_running (loop s)) || _kill (loop s));
      [reflexivity|].
    revert s. keeps_steps.
  - unfold play.
    destruct (negb (_initialized (loop s)) || _running (loop s) || _kill (loop s));
      [reflexivity|].
    revert s. keeps_steps. apply keeps_config_run.
  - unfold finish.
    destruct (negb (_initialized (loop s)) || _kill (loop s)); [reflexivity|].
    revert s. keeps_steps.
  - unfold timer_fires. destruct (due_of id (timers (env s))); [|reflexivity].
    unfold withNow. rewrite keeps_config_run. reflexivity.
  - unfold frame_fires. destruct (existsb _ _); [|reflexivity].
    rewrite keeps_config_run. reflexivity.
  - reflexivity.
  - rewrite rejection_handler_loop. reflexivity.
Qed.

Lemma keeps_step_term : keeps _step_num (_term host).
Proof. unfold _term. keeps_steps. Qed.

Lemma run_step_bounds ts s :
  _step_num (loop s) <= _step_num (loop (state_of (_run host ts s)))
    <= _step_num (loop s) + 1.
Proof.
  unfold _run. destruct (_running (loop s)) eqn:Hr; [|cbn; lia].
  destruct (_check_for_end_trigger (loop s)) eqn:Hc.
  - rewrite keeps_step_term. lia.
  - destruct (fst (background host s)) eqn:Hb.
    + destruct (run_cycle_spec host Hpassive ts s Hb Hr Hc)
        as (t & r & evs & e & Hrun & _).
      unfold _run in Hrun. rewrite Hr, Hc in Hrun. rewrite Hrun.
      cbn. lia.
    + pose proof (run_escape host Hpassive ts s Hb Hr Hc) as Hrun.
      unfold _run in Hrun. rewrite Hr, Hc in Hrun. rewrite Hrun.
      cbn. lia.
Qed.

Lemma keeps_initialized_run ts : keeps _initialized (_run host ts).
Proof.
  intros s. unfold _run.
  destruct (_running (loop s)); [|reflexivity].
  destruct (_check_for_end_trigger (loop s)).
  - revert s. unfold _term. keeps_steps.
  - revert s. keeps_steps.
Qed.

Lemma exec_step_bounds o s :
  not_start o = true ->
  (_step_num (loop s) <= _step_num (loop (state_of (exec host o s)))
     <= _step_num (loop s) + 1) /\
  _initialized (loop (state_of (exec host o s))) = _initialized (loop s).
Proof.
  intros Ho. destruct o; cbn [exec not_start] in *; try discriminate Ho.
  - unfold pause.
    destruct (negb (_initialized (loop s)) || negb (_running (loop s)) || _kill (loop s));
      [cbn; split; [lia|reflexivity]|].
    split.
    + assert (K : keeps _step_num
                (andThen (assign (set_running false))
                   (andThen (assign (set_paused true))
                      (andThen _cancel_next_step (invoke host OnPause)))))
        by keeps_steps.
      rewrite (K s). lia.
    + revert s. keeps_steps.
  - rewrite play_unfold.
    destruct (negb (_initialized (loop s)) || _running (loop s) || _kill (loop s));
      [cbn; split; [lia|reflexivity]|].
    unfold andThen, invoke. cbn [body].
    pose proof (Hpassive OnPlay (resumed s)) as P. cbn [body] in P.
    destruct (on_play host (resumed s)) as [[|] s1]; cbn [fst snd] in P; subst s1.
    + pose proof (run_step_bounds (performance_now (resumed s)) (resumed s)) as B.
      pose proof (keeps_initialized_run (performance_now (resumed s)) (resumed s)) as I.
      unfold withNow.
      destruct (_run host (performance_now (resumed s)) (resumed s)) as [[o s2] t2].
      cbn in B, I |- *. split; [exact B|exact I].
    + cbn. split; [lia|reflexivity].
  - unfold finish.
    destruct (negb (_initialized (loop s)) || _kill (loop s));
      [cbn; split; [lia|reflexivity]|].
    split.
    + assert (K : keeps _step_num
                (andThen (assign (set_running false))
                   (andThen (assign (set_paused false))
                      (andThen (assign (set_kill true))
                         (andThen _cancel_next_step (_term host))))))
        by (unfold _term; keeps_steps).
      rewrite (K s). lia.
    + revert s. unfold _term. keeps_steps.
  - cbn. split; [lia|reflexivity].
  - cbn. split; [lia|reflexivity].
  - assert (E : _step_num (snd (extend_lifespan steps (loop s))) = _step_num (loop s) /\
                _initialized (snd (extend_lifespan steps (loop s))) =
                _initialized (loop s)).
    { unfold extend_lifespan. destruct (negb (_initialized (loop s))); [split; reflexivity|].
      destruct steps as [d|]; [|split; reflexivity].
      cbn. destruct (_kill _ && _); split; reflexivity. }
    destruct E as [E1 E2]. cbn [assign state_of fst snd loop].
    rewrite E1, E2. split; [lia|reflexivity].
  - unfold timer_fires. destruct (due_of id (timers (env s)));
      [|cbn; split; [lia|reflexivity]].
    unfold withNow.
    match goal with |- context [_run host ?ts ?x] =>
      pose proof (run_step_bounds ts x) as B;
      pose proof (keeps_initialized_run ts x) as I end.
    cbn [loop] in B, I. split; [exact B|exact I].
  - unfold frame_fires. destruct (existsb _ _); [|cbn; split; [lia|reflexivity]].
    match goal with |- context [_run host ?ts ?x] =>
      pose proof (run_step_bounds ts x) as B;
      pose proof (keeps_initialized_run ts x) as I end.
    cbn [loop] in B, I. split; [exact B|exact I].
  - cbn. split; [lia|reflexivity].
  - rewrite rejection_handler_loop. split; [lia|reflexivity].
Qed.

End Frame.

Lemma script_cons host o ops s :
  script host (o :: ops) s =
  match exec host o s with
  | (Normal, s1, t1) =>
      (result_of (script host ops s1), state_of (script host ops s1),
       t1 ++ events_of (script host ops s1))
  | (Thrown, s1, t1) => (Thrown, s1, t1)
  end.
Proof.
  cbn [script]. unfold andThen.
  destruct (exec host o s) as [[[|] s1] t1]; [|reflexivity].
  destruct (script host ops s1) as [[o2 s2] t2]. reflexivity.
Qed.

(** X5: only [start()] resets the step count.  Along any sequence of the
    other operations and callbacks the step count never decreases, grows
    by at most one per operation, and the loop stays initialised or
    uninitialised as it was. *)
Theorem step_count_never_decreases (host : Host) (ops : list op) (s : Sys) :
  passive_host host ->
  forallb not_start ops = true ->
  get_step (loop s) <= get_step (loop (state_of (script host ops s)))
    <= get_step (loop s) + Z.of_nat (length ops) /\
  _initialized (loop (state_of (script host ops s))) = _initialized (loop s).
Proof.
  intros Hp. revert s. induction ops as [|o ops IH]; intros s Hall.
  - cbn. split; [lia|reflexivity].
  - cbn [forallb] in Hall. apply andb_prop in Hall. destruct Hall as [Ho Hall].
    destruct (exec_step_bounds host Hp o s Ho) as [B I].
    rewrite script_cons.
    destruct (exec host o s) as [[[|] s1] t1]; cbn [state_of fst snd loop] in *.
    + destruct (IH s1 Hall) as [B1 I1]. unfold get_step in *.
      unfold state_of in *. cbn [fst snd length]. rewrite I1, I.
      split; [lia|reflexivity].
    + unfold get_step. cbn [length]. split; [lia|exact I].
Qed.

Lemma step_count_never_decreases_witness :
  let s := state_of (start crashing_step (create 60 (Some 4) false false)) in
  let ops := [OpTimerFires 1; OpPause; OpElapse 30; OpPlay; OpExtendLifespan (Some 2);
              OpTimerFires 2; OpSetSps 10; OpFinish] in
  get_step (loop s) <= get_step (loop (state_of (script crashing_step ops s)))
    <= get_step (loop s) + Z.of_nat (length ops) /\
  _initialized (loop (state_of (script crashing_step ops s))) = _initialized (loop s).
Proof.
  apply (step_count_never_decreases crashing_step
           [OpTimerFires 1; OpPause; OpElapse 30; OpPlay; OpExtendLifespan (Some 2);
            OpTimerFires 2; OpSetSps 10; OpFinish]
           (state_of (start crashing_step (create 60 (Some 4) false false)))).
  - exact passive_crashing_step.
  - reflexivity.
Defined.

(** X6: running a loop never changes how it is configured.  Along any
    sequence of [start()], [pause()], [play()], [finish()] and callbacks,
    the lifespan, the rate, the interval and the strategy toggle keep the
    values the constructor and the setters gave them. *)
Theorem lifecycle_keeps_configuration (host : Host) (ops : list op) (s : Sys) :
  passive_host host ->
  forallb not_setter ops = true ->
  let l' := loop (state_of (script host ops s)) in
  get_lifespan l' = get_lifespan (loop s) /\
  get_sps l' = get_sps (loop s) /\
  _interval l' = _interval (loop s) /\
  _RAFActive l' = _RAFActive (loop s) /\
  _RAFAvailable l' = _RAFAvailable (loop s).
Proof.
  intros Hp Hall.
  assert (H : config_of (loop (state_of (script host ops s))) = config_of (loop s)).
  { revert s. induction ops as [|o ops IH]; intros s; [reflexivity|].
    cbn [forallb] in Hall. apply andb_prop in Hall. destruct Hall as [Ho Hall].
    pose proof (exec_keeps_config host Hp o s Ho) as K.
    rewrite script_cons.
    destruct (exec host o s) as [[[|] s1] t1]; cbn [state_of fst snd] in *.
    - rewrite <- K. apply (IH Hall).
    - exact K. }
  unfold config_of in H. injection H as H1 H2 H3 H4 H5. cbv zeta. auto.
Qed.

Lemma lifecycle_keeps_configuration_witness :
  let s := create 30 (Some 2) true true in
  let ops := [OpStart; OpFrameFires 1 16; OpPause; OpPlay; OpFrameFires 3 40;
              OpStart; OpFinish] in
  let l' := loop (state_of (script base_class ops s)) in
  get_lifespan l' = get_lifespan (loop s) /\
  get_sps l' = get_sps (loop s) /\
  _interval l' = _interval (loop s) /\
  _RAFActive l' = _RAFActive (loop s) /\
  _RAFAvailable l' = _RAFAvailable (loop s).
Proof.
  apply (lifecycle_keeps_configuration base_class
           [OpStart; OpFrameFires 1 16; OpPause; OpPlay; OpFrameFires 3 40;
            OpStart; OpFinish]
           (create 30 (Some 2) true true)).
  - exact passive_base_class.
  - reflexivity.
Defined.

(** ** Environments without [requestAnimationFrame] *)

Lemma raf_free_skip : raf_free skip.
Proof. intros s H. split; [exact H|reflexivity]. Qed.

Lemma raf_free_assign f :
  (forall l, without_raf l -> without_raf (f l)) -> raf_free (assign f).
Proof. intros Hf s H. split; [apply Hf, H|reflexivity]. Qed.

Lemma raf_free_andThen a b : raf_free a -> raf_free b -> raf_free (andThen a b).
Proof.
  intros Ha Hb s H. unfold andThen.
  destruct (Ha s H) as [I1 E1]. destruct (a s) as [[[|] s1] t1]; cbn in I1, E1 |- *.
  - destruct (Hb s1 I1) as [I2 E2]. destruct (b s1) as [[o s2] t2]; cbn in I2, E2 |- *.
    split; [exact I2|]. rewrite existsb_app, E1, E2. reflexivity.
  - split; assumption.
Qed.

Lemma raf_free_withNow k : (forall t, raf_free (k t)) -> raf_free (withNow k).
Proof. intros H s. apply H. Qed.

Lemma raf_free_cancel : raf_free _cancel_next_step.
Proof.
  intros s [Ha Hi]. unfold _cancel_next_step. rewrite Hi.
  destruct (_timeoutId (loop s)) as [id|], (_RAFActive (loop s));
    cbn; (split; [split; assumption|reflexivity]).
Qed.

Lemma raf_free_request ts : raf_free (_request_next_step ts).
Proof.
  intros s [Ha Hi]. unfold _request_next_step. rewrite Ha, andb_false_r.
  destruct (negb (_running (loop s))); cbn; (split; [split; assumption|reflexivity]).
Qed.

Section NoRaf.

Variable host : Host.
Hypothesis Hpassive : passive_host host.

Lemma raf_free_invoke h : raf_free (invoke host h).
Proof.
  intros s H. unfold invoke. pose proof (Hpassive h s) as P.
  destruct (body host h s) as [o s1]. cbn in P |- *. subst s1.
  split; [exact H|reflexivity].
Qed.

Lemma raf_free_guarded h : raf_free (guarded host h).
Proof.
  intros s H. rewrite guarded_passive by apply Hpassive.
  split; [exact H|]. unfold guarded_events.
  destruct (fst (body host h s)); reflexivity.
Qed.

Lemma raf_free_spawn : raf_free (spawn_background host).
Proof.
  intros s H. rewrite (spawn_passive host s (Hpassive Background)).
  destruct (fst (background host s)); (split; [exact H|reflexivity]).
Qed.

Ltac raf_free_steps :=
  repeat first
    [ apply raf_free_andThen
    | apply raf_free_assign; intros ? [? ?]; split; assumption
    | apply raf_free_withNow; intros
    | apply raf_free_cancel
    | apply raf_free_spawn
    | apply raf_free_guarded
    | apply raf_free_invoke
    | apply raf_free_request ].

Lemma raf_free_term : raf_free (_term host).
Proof. unfold _term. raf_free_steps. Qed.

Lemma raf_free_run ts : raf_free (_run host ts).
Proof.
  intros s H. unfold _run.
  destruct (_running (loop s)); [|split; [exact H|reflexivity]].
  destruct (_check_for_end_trigger (loop s)); [apply raf_free_term, H|].
  revert s H. raf_free_steps.
Qed.

Lemma raf_free_exec o : raf_free (exec host o).
Proof.
  destruct o; cbn [exec].
  - unfold start, _main, _init. raf_free_steps. apply raf_free_run.
  - intros s H. unfold pause.
    destruct (negb (_initialized (loop s)) || negb (_running (loop s)) || _kill (loop s));
      [split; [exact H|reflexivity]|].
    revert s H. raf_free_steps.
  - intros s H. unfold play.
    destruct (negb (_initialized (loop s)) || _running (loop s) || _kill (loop s));
      [split; [exact H|reflexivity]|].
    revert s H. raf_free_steps. apply raf_free_run.
  - intros s H. unfold finish.
    destruct (negb (_initialized (loop s)) || _kill (loop s));
      [split; [exact H|reflexivity]|].
    revert s H. unfold _term. raf_free_steps.
  - raf_free_steps.
  - raf_free_steps.
  - apply raf_free_assign. intros l [Ha Hi]. unfold extend_lifespan.
    destruct (negb (_initialized l)); [split; assumption|].
    destruct steps as [d|]; [|split; assumption].
    cbn. destruct (_kill l && _); split; assumption.
  - intros s H. unfold timer_fires.
    destruct (due_of id (timers (env s))); [|split; [exact H|reflexivity]].
    unfold withNow. apply raf_free_run. exact H.
  - intros s H. unfold frame_fires.
    destruct (existsb _ _); [|split; [exact H|reflexivity]].
    apply raf_free_run. exact H.
  - intros s H. split; [exact H|reflexivity].
  - intros s H. rewrite rejection_handler_loop. split; [exact H|].
    unfold rejection_handler. destruct (rejections (env s)); reflexivity.
Qed.

Lemma raf_free_script ops : raf_free (script host ops).
Proof.
  induction ops as [|o ops IH]; [apply raf_free_skip|].
  cbn [script]. apply raf_free_andThen; [apply raf_free_exec|exact IH].
Qed.

End NoRaf.

(** X7: where [requestAnimationFrame] is not defined, the loop never calls
    it nor [cancelAnimationFrame], whatever the constructor's [RAF]
    argument was and however [set_use_RAF] is called later, and no frame
    handle is ever recorded in [_RAFId]. *)
Theorem raf_never_called_when_undefined (host : Host) (ops : list op)
    (sps : Q) (L : option Z) (RAF : bool) :
  passive_host host ->
  let r := script host ops (create sps L RAF false) in
  existsb uses_raf (events_of r) = false /\
  _RAFId (loop (state_of r)) = None.
Proof.
  intros Hp r.
  destruct (raf_free_script host Hp ops (create sps L RAF false)) as [[_ Hi] He].
  { split; reflexivity. }
  split; assumption.
Qed.

Lemma raf_never_called_when_undefined_witness :
  let r := script crashing_step
             [OpStart; OpSetUseRAF true; OpTimerFires 1; OpPause; OpPlay;
              OpSetUseRAF false; OpFinish]
             (create 60 (Some 9) true false) in
  existsb uses_raf (events_of r) = false /\
  _RAFId (loop (state_of r)) = None.
Proof.
  apply (raf_never_called_when_undefined crashing_step
           [OpStart; OpSetUseRAF true; OpTimerFires 1; OpPause; OpPlay;
            OpSetUseRAF false; OpFinish]
           60 (Some 9) true).
  exact passive_crashing_step.
Defined.

(** ** One pending tick *)

Lemma cancel_well s :
  idle (env s) \/ tracked_one s ->
  idle (env (state_of (_cancel_next_step s))) /\
  exists t r, loop (state_of (_cancel_next_step s)) = with_handles t r (loop s).
Proof.
  intros H. destruct (cancel_spec s) as (t & r & evs & e & Hc & _ & _ & Hidle & _).
  split; [|exists t, r; rewrite Hc; reflexivity].
  destruct H as [H | [(Ha & id & due & Ht & Hf & Hid) | (Ha & id & Hf & Ht & Hid)]].
  - rewrite Hc. apply Hidle, H.
  - unfold _cancel_next_step. rewrite Hid, Ha. cbn.
    split; [|exact Hf]. unfold clearTimeout, forget_timer. cbn [timers].
    rewrite Ht. cbn. rewrite Pos.eqb_refl. reflexivity.
  - unfold _cancel_next_step. rewrite Hid, Ha.
    destruct (_timeoutId (loop s)); cbn;
      (split; [exact Ht|]; unfold cancelAnimationFrame, forget; cbn [frames];
       rewrite Hf; cbn; rewrite Pos.eqb_refl; reflexivity).
Qed.

Lemma request_well ts s :
  _running (loop s) = true ->
  sound_strategy (loop s) ->
  idle (env s) ->
  tracked_one (state_of (_request_next_step ts s)) /\
  exists t r, loop (state_of (_request_next_step ts s)) = with_handles t r (loop s).
Proof.
  intros Hr Hs [Ht Hf]. unfold _request_next_step. rewrite Hr. cbn [negb].
  destruct (_RAFActive (loop s)) eqn:Ha.
  - rewrite (Hs Ha). cbn. split.
    + right. split; [exact Ha|]. exists (next_handle (env s)).
      rewrite Ht, Hf. repeat split.
    + exists (_timeoutId (loop s)), (Some (next_handle (env s))).
      destruct (loop s); reflexivity.
  - cbn. split.
    + left. split; [exact Ha|]. eexists _, _. rewrite Ht, Hf. repeat split.
    + exists (Some (next_handle (env s))), (_RAFId (loop s)).
      destruct (loop s); reflexivity.
Qed.

Section OneTick.

Variable host : Host.
Hypothesis Hpassive : passive_host host.

Lemma run_well ts s :
  sound_strategy (loop s) ->
  idle (env s) ->
  well_scheduled (state_of (_run host ts s)).
Proof.
  intros Hs Hi. unfold _run.
  destruct (_running (loop s)) eqn:Hr; [|split; [exact Hs|left; exact Hi]].
  destruct (_check_for_end_trigger (loop s)) eqn:Hc.
  - destruct (term_spec host Hpassive s) as (t & r & evs & e & H & _ & _ & Hidle & _).
    rewrite H. split; [exact Hs|left; apply Hidle, Hi].
  - destruct (fst (background host s)) eqn:Hb.
    + pose proof (run_cycle host Hpassive ts s Hb Hr Hc) as H. cbv zeta in H.
      unfold _run in H. rewrite Hr, Hc in H. rewrite H.
      destruct (request_well ts
                  (mkSys (after_cycle ts (loop s)) (after_background host s)))
        as (Ht & t & r & Hl);
        [exact Hr|exact Hs|apply after_background_idle; exact Hi|].
      unfold state_of at 1. cbn [fst snd].
      split.
      * rewrite Hl. exact Hs.
      * right. split; [rewrite Hl; exact Hr|exact Ht].
    + pose proof (run_escape host Hpassive ts s Hb Hr Hc) as H.
      unfold _run in H. rewrite Hr, Hc in H. rewrite H.
      split; [exact Hs|left; exact Hi].
Qed.

Lemma pause_effect s :
  well_scheduled s ->
  _initialized (loop s) && _running (loop s) && negb (_kill (loop s)) = true ->
  idle (env (state_of (pause host s))) /\
  exists t r, loop (state_of (pause host s)) =
              with_handles t r (set_paused true (set_running false (loop s))).
Proof.
  intros [Hs Hw] G. unfold pause.
  replace (negb (_initialized (loop s)) || negb (_running (loop s)) || _kill (loop s))
    with false
    by (destruct (_initialized (loop s)), (_running (loop s)), (_kill (loop s));
        cbn in G |- *; congruence).
  rewrite !andThen_assign.
  destruct (cancel_well (mkSys (set_paused true (set_running false (loop s))) (env s)))
    as (Hi & t & r & Hl).
  { destruct Hw as [Hi | [_ Ht]]; [left; exact Hi|right; exact Ht]. }
  rewrite (andThen_ok _ _ _ (cancel_result _)).
  match goal with |- context [invoke host OnPause ?x] =>
    pose proof (Hpassive OnPause x) as P; unfold invoke;
    destruct (body host OnPause x) as [o s1] end.
  cbn [state_of fst snd] in *. subst s1.
  split; [exact Hi|]. exists t, r. exact Hl.
Qed.

Lemma pause_idle s :
  well_scheduled s ->
  _initialized (loop s) && _running (loop s) && negb (_kill (loop s)) = true ->
  idle (env (state_of (pause host s))).
Proof. intros W G. apply (pause_effect s W G). Qed.

Lemma finish_effect s :
  well_scheduled s ->
  _initialized (loop s) && negb (_kill (loop s)) = true ->
  idle (env (state_of (finish host s))) /\
  _RAFActive (loop (state_of (finish host s))) = _RAFActive (loop s) /\
  _RAFAvailable (loop (state_of (finish host s))) = _RAFAvailable (loop s).
Proof.
  intros [Hs Hw] G. unfold finish.
  replace (negb (_initialized (loop s)) || _kill (loop s)) with false
    by (destruct (_initialized (loop s)), (_kill (loop s)); cbn in G |- *; congruence).
  rewrite !andThen_assign.
  destruct (cancel_well
              (mkSys (set_kill true (set_paused false (set_running false (loop s))))
                     (env s)))
    as (Hi & t & r & Hl).
  { destruct Hw as [Hi | [_ Ht]]; [left; exact Hi|right; exact Ht]. }
  rewrite (andThen_ok _ _ _ (cancel_result _)).
  match goal with |- context [_term host ?x] =>
    destruct (term_spec host Hpassive x)
      as (t' & r' & evs & e & H & _ & _ & Hidle & _) end.
  rewrite H. cbn [state_of fst snd loop env]. cbn [state_of fst snd] in Hl. rewrite Hl.
  split; [apply Hidle, Hi|]. split; reflexivity.
Qed.

Lemma finish_idle s :
  well_scheduled s ->
  _initialized (loop s) && negb (_kill (loop s)) = true ->
  idle (env (state_of (finish host s))).
Proof. intros W G. apply (finish_effect s W G). Qed.

Lemma exec_well o s :
  well_scheduled s ->
  allowed (loop s) o = true ->
  well_scheduled (state_of (exec host o s)).
Proof.
  intros [Hs Hw] Ha. destruct o; cbn [exec allowed] in *.
  - (* start *)
    assert (Hi : idle (env s)).
    { destruct Hw as [Hi | [Hr _]]; [exact Hi|]. rewrite Hr in Ha. discriminate Ha. }
    unfold start, _main, _init.
    rewrite andThen_assign, andThen_withNow, andThen_assign.
    repeat (rewrite andThen_assoc || rewrite andThen_assign).
    rewrite andThen_guarded by apply (Hpassive Initial).
    unfold state_of at 1. cbn [fst snd]. unfold withNow.
    apply run_well; [exact Hs|exact Hi].
  - (* pause *)
    destruct (_initialized (loop s) && _running (loop s) && negb (_kill (loop s))) eqn:G.
    + destruct (pause_effect s (conj Hs Hw) G) as (Hi & t & r & Hl).
      split; [rewrite Hl; exact Hs|left; exact Hi].
    + unfold pause.
      replace (negb (_initialized (loop s)) || negb (_running (loop s)) || _kill (loop s))
        with true
        by (destruct (_initialized (loop s)), (_running (loop s)), (_kill (loop s));
            cbn in G |- *; congruence).
      split; [exact Hs|exact Hw].
  - (* play *)
    rewrite play_unfold.
    destruct (negb (_initialized (loop s)) || _running (loop s) || _kill (loop s)) eqn:G;
      [split; [exact Hs|exact Hw]|].
    assert (Hi : idle (env s)).
    { destruct Hw as [Hi | [Hr _]]; [exact Hi|].
      rewrite Hr, orb_true_r in G. discriminate G. }
    unfold andThen, invoke. cbn [body].
    pose proof (Hpassive OnPlay (resumed s)) as P. cbn [body] in P.
    destruct (on_play host (resumed s)) as [[|] s1]; cbn [fst snd] in P; subst s1.
    + pose proof (run_well (performance_now (resumed s)) (resumed s) Hs Hi) as W.
      unfold withNow.
      destruct (_run host (performance_now (resumed s)) (resumed s)) as [[o s2] t2].
      exact W.
    + split; [exact Hs|left; exact Hi].
  - (* finish *)
    destruct (_initialized (loop s) && negb (_kill (loop s))) eqn:G.
    + destruct (finish_effect s (conj Hs Hw) G) as (Hi & Hl1 & Hl2).
      split; [|left; exact Hi].
      unfold sound_strategy. rewrite Hl1, Hl2. exact Hs.
    + unfold finish.
      replace (negb (_initialized (loop s)) || _kill (loop s)) with true
        by (destruct (_initialized (loop s)), (_kill (loop s));
            cbn in G |- *; congruence).
      split; [exact Hs|exact Hw].
  - (* set_sps *)
    split; [exact Hs|exact Hw].
  - (* set_use_RAF *)
    apply andb_prop in Ha. destruct Ha as [Hr Hav].
    split.
    + intros Hst. cbn in Hst. subst status. exact Hav.
    + left. destruct Hw as [Hi | [Hr' _]]; [exact Hi|].
      rewrite Hr' in Hr. discriminate Hr.
  - (* extend_lifespan *)
    assert (E : exists k, snd (extend_lifespan steps (loop s)) = k /\
                _RAFActive k = _RAFActive (loop s) /\
                _RAFAvailable k = _RAFAvailable (loop s) /\
                _running k = _running (loop s) /\
                _timeoutId k = _timeoutId (loop s) /\
                _RAFId k = _RAFId (loop s)).
    { eexists. split; [reflexivity|]. unfold extend_lifespan.
      destruct (negb (_initialized (loop s))); [auto 6|].
      destruct steps as [d|]; [|cbn; auto 6].
      cbn. destruct (_kill _ && _); cbn; auto 6. }
    destruct E as (k & Ek & E1 & E2 & E3 & E4 & E5).
    cbn [assign state_of fst snd]. rewrite Ek.
    split.
    + unfold sound_strategy. cbn [loop]. rewrite E1, E2. exact Hs.
    + destruct Hw as [Hi | [Hr Ht]]; [left; exact Hi|right].
      cbn [loop]. split; [rewrite E3; exact Hr|].
      unfold tracked_one in *. cbn [loop env]. rewrite E1, E4, E5. exact Ht.
  - (* timer fires *)
    unfold timer_fires.
    destruct (due_of id (timers (env s))) as [due|] eqn:Hd;
      [|split; [exact Hs|exact Hw]].
    unfold withNow. apply run_well; [exact Hs|].
    destruct Hw as [[Ht Hf] | [_ [(_ & id' & due' & Ht & Hf & _) | (_ & id' & Hf & Ht & _)]]].
    + rewrite Ht in Hd. discriminate Hd.
    + unfold due_of in Hd. rewrite Ht in Hd. cbn [find fst] in Hd.
      destruct (Pos.eqb id' id) eqn:E; [|discriminate Hd].
      apply Pos.eqb_eq in E. subst id'.
      split; cbn [env timers frames set_clock clearTimeout]; [|exact Hf].
      rewrite Ht. unfold forget_timer. cbn. rewrite Pos.eqb_refl. reflexivity.
    + rewrite Ht in Hd. discriminate Hd.
  - (* frame fires *)
    unfold frame_fires.
    destruct (existsb (Pos.eqb id) (frames (env s))) eqn:Hd;
      [|split; [exact Hs|exact Hw]].
    apply run_well; [exact Hs|].
    destruct Hw as [[Ht Hf] | [_ [(_ & id' & due' & Ht & Hf & _) | (_ & id' & Hf & Ht & _)]]].
    + rewrite Hf in Hd. discriminate Hd.
    + rewrite Hf in Hd. discriminate Hd.
    + rewrite Hf in Hd. cbn [existsb] in Hd. rewrite orb_false_r in Hd.
      apply Pos.eqb_eq in Hd. subst id'.
      split; cbn [env timers frames cancelAnimationFrame]; [exact Ht|].
      rewrite Hf. unfold forget. cbn. rewrite Pos.eqb_refl. reflexivity.
  - (* elapse *)
    split; [exact Hs|exact Hw].
  - (* a rejection handler runs *)
    unfold rejection_handler.
    destruct (rejections (env s)); split; assumption.
Qed.

Lemma script_well ops : forall s,
  well_scheduled s ->
  disciplined host ops s = true ->
  well_scheduled (state_of (script host ops s)).
Proof.
  induction ops as [|o ops IH]; intros s Hw Hd; [exact Hw|].
  cbn [disciplined] in Hd. apply andb_prop in Hd. destruct Hd as [Ha Hd].
  pose proof (exec_well o s Hw Ha) as W. rewrite script_cons.
  destruct (exec host o s) as [[[|] s1] t1]; cbn [state_of fst snd] in *.
  - apply (IH s1 W Hd).
  - exact W.
Qed.

End OneTick.

(** X8: a host that calls [start()] only on a loop that is not running and
    switches the strategy only while the loop is not running, to a strategy
    the environment offers, never has more than one callback pending.  When
    the loop is not running nothing is pending; a pending callback is the
    timer recorded in [_timeoutId] under the timer strategy, or the frame
    recorded in [_RAFId] under the other, so a [pause()] or [finish()]
    that passes its guard leaves nothing pending. *)
Theorem one_pending_tick (host : Host) (ops : list op)
    (sps : Q) (L : option Z) (RAF raf : bool) :
  passive_host host ->
  implb RAF raf = true ->
  disciplined host ops (create sps L RAF raf) = true ->
  let s := state_of (script host ops (create sps L RAF raf)) in
  (pending (env s) <= 1)%nat /\
  (is_running (loop s) = false -> pending (env s) = 0%nat) /\
  (pending (env s) = 1%nat -> tracked_one s) /\
  (_initialized (loop s) && _running (loop s) && negb (_kill (loop s)) = true ->
   pending (env (state_of (pause host s))) = 0%nat) /\
  (_initialized (loop s) && negb (_kill (loop s)) = true ->
   pending (env (state_of (finish host s))) = 0%nat).
Proof.
  intros Hp Hraf Hd s.
  assert (W : well_scheduled s).
  { apply (script_well host Hp); [|exact Hd].
    split; [|left; apply idle_create].
    intros Ha. cbn in Ha. subst RAF. exact Hraf. }
  assert (P : forall x, well_scheduled x ->
                (pending (env x) <= 1)%nat /\
                (is_running (loop x) = false -> pending (env x) = 0%nat) /\
                (pending (env x) = 1%nat -> tracked_one x)).
  { intros x [_ [Hi | [Hr Ht]]].
    - rewrite (idle_count _ Hi). split; [lia|]. split; [reflexivity|discriminate].
    - assert (C : pending (env x) = 1%nat).
      { unfold pending.
        destruct Ht as [(_ & id & due & Ht & Hf & _) | (_ & id & Hf & Ht & _)];
          rewrite Ht, Hf; reflexivity. }
      rewrite C. split; [lia|]. split; [|intros _; exact Ht].
      unfold is_running. rewrite Hr. discriminate. }
  destruct (P s W) as (P1 & P2 & P3).
  split; [exact P1|]. split; [exact P2|]. split; [exact P3|]. split.
  - intros G. apply idle_count, (pause_idle host Hp s W G).
  - intros G. apply idle_count, (finish_idle host Hp s W G).
Qed.

Lemma one_pending_tick_witness :
  let ops := [OpStart; OpTimerFires 1; OpPause; OpSetUseRAF true; OpPlay;
              OpFrameFires 3 50; OpExtendLifespan (Some 1); OpElapse 4] in
  let s := state_of (script crashing_step ops (create 60 (Some 6) false true)) in
  (pending (env s) <= 1)%nat /\
  (is_running (loop s) = false -> pending (env s) = 0%nat) /\
  (pending (env s) = 1%nat -> tracked_one s) /\
  (_initialized (loop s) && _running (loop s) && negb (_kill (loop s)) = true ->
   pending (env (state_of (pause crashing_step s))) = 0%nat) /\
  (_initialized (loop s) && negb (_kill (loop s)) = true ->
   pending (env (state_of (finish crashing_step s))) = 0%nat).
Proof.
  apply (one_pending_tick crashing_step
           [OpStart; OpTimerFires 1; OpPause; OpSetUseRAF true; OpPlay;
            OpFrameFires 3 50; OpExtendLifespan (Some 1); OpElapse 4]
           60 (Some 6) false true).
  - exact passive_crashing_step.
  - reflexivity.
  - reflexivity.
Defined.

(** ** Timing under the timer strategy *)

Lemma Qmax_0_nonneg x : (0 <= x)%Q -> (Qmax 0 x == x)%Q.
Proof. intros H. apply Q.max_r. exact H. Qed.

Ltac settled :=
  rewrite ?after_background_clock, ?after_background_timers,
          ?after_background_frames, ?after_background_next_handle;
  cbn [loop env].

Section Timing.

Variable host : Host.
Hypothesis Hpassive : passive_host host.
Hypothesis Hasync : returns (background host).

(** One late tick of a loop that is on schedule. *)
Lemma late_tick_on_schedule t0 I L n d d' s :
  on_schedule t0 I L n d s ->
  (d <= I)%Q -> (0 <= d')%Q -> (d' <= I)%Q ->
  exhausted L n = false ->
  result_of (late_tick host d' s) = Normal /\
  on_schedule t0 I L (n + 1) d' (state_of (late_tick host d' s)) /\
  (_lastStepDuration (loop (state_of (late_tick host d' s))) == I + d' - d)%Q /\
  calls_of (events_of (late_tick host d' s)) = cycle_calls n.
Proof.
  intros (Hr & Hk & Hn & HL & Ht0 & HI & Hst & Hclk & Hlast & (id & due & Htm & Hdue) & Hfr)
         HdI Hd'0 Hd'I Hex.
  unfold late_tick, timer_fires_late. rewrite Htm.
  unfold due_of. cbn [find fst snd]. rewrite Pos.eqb_refl. cbv beta iota.
  cbn [snd]. unfold withNow, performance_now. cbn [env loop].
  set (e1 := set_clock (Qmax (clock (env s)) due + d')%Q (clearTimeout id (env s))).
  assert (Hce : (clock e1 == t0 + inject_Z n * I + d')%Q).
  { subst e1. cbn [clock set_clock].
    rewrite Q.max_r; [rewrite Hdue; reflexivity|].
    rewrite Hclk, Hdue.
    replace (n - 1) with (n + -1) by lia. rewrite inject_Z_plus.
    apply Qle_minus_iff.
    setoid_replace (t0 + inject_Z n * I +
                    - (t0 + (inject_Z n + inject_Z (-1)) * I + d))%Q
      with (I + - d)%Q by (cbn; ring).
    apply Qle_minus_iff in HdI. exact HdI. }
  assert (Het : timers e1 = []).
  { subst e1. cbn [timers set_clock clearTimeout]. rewrite Htm.
    unfold forget_timer. cbn [filter fst]. rewrite Pos.eqb_refl. reflexivity. }
  assert (Hef : frames e1 = []) by exact Hfr.
  clearbody e1.
  assert (Hc : _check_for_end_trigger (loop s) = false).
  { rewrite check_unfold, Hk, HL, Hn, Hex. reflexivity. }
  rewrite (run_cycle host Hpassive (clock e1) (mkSys (loop s) e1) (Hasync _) Hr Hc).
  cbv zeta. unfold _request_next_step, performance_now. fields.
  rewrite Hr. cbn [negb]. unfold timer_strategy in Hst. rewrite Hst.
  unfold result_of, state_of, events_of. fields. settled.
  split; [reflexivity|]. split; [|split].
  - unfold on_schedule. fields.
    split; [exact Hr|]. split; [exact Hk|]. split; [rewrite Hn; reflexivity|].
    split; [exact HL|]. split; [exact Ht0|]. split; [exact HI|].
    split; [exact Hst|].
    split.
    { rewrite Hce. replace (n + 1 - 1) with n by lia. reflexivity. }
    split; [reflexivity|].
    split; [|exact Hef].
    rewrite Het. cbn [app].
    eexists _, _. split; [reflexivity|].
    rewrite Ht0, HI, Hn.
    rewrite Qmax_0_nonneg.
    + ring.
    + rewrite Hce. rewrite inject_Z_plus.
      apply Qle_minus_iff in Hd'I. apply Qle_minus_iff.
      setoid_replace (t0 + (inject_Z n + inject_Z 1) * I +
                      - (t0 + inject_Z n * I + d') + - 0)%Q
        with (I + - d')%Q by (cbn; ring).
      exact Hd'I.
  - rewrite Hce, Hlast, Hclk.
    replace (n - 1) with (n + -1) by lia. rewrite inject_Z_plus. cbn. ring.
  - rewrite calls_of_app, calls_of_cycle_events. cbn [calls_of app loop].
    unfold get_step. rewrite Hn, app_nil_r. reflexivity.
Qed.

(** [start()] puts a loop on schedule: cycle 0 runs at once and cycle 1 is
    scheduled one interval later. *)
Lemma start_on_schedule s :
  idle (env s) ->
  timer_strategy (loop s) ->
  (0 <= _interval (loop s))%Q ->
  exhausted (_lifespan (loop s)) 0 = false ->
  result_of (start host s) = Normal /\
  on_schedule (clock (env s)) (_interval (loop s)) (_lifespan (loop s)) 1 0
    (state_of (start host s)) /\
  calls_of (events_of (start host s)) = (Initial, 0) :: cycle_calls 0.
Proof.
  intros [Ht Hf] Hst HI Hex. unfold start, _main, _init.
  rewrite andThen_assign, andThen_withNow, andThen_assign.
  repeat (rewrite andThen_assoc || rewrite andThen_assign).
  rewrite andThen_guarded by apply (Hpassive Initial).
  unfold withNow, performance_now. fields.
  match goal with |- context [_run host ?ts ?x] =>
    rewrite (run_cycle host Hpassive ts x (Hasync _)) end.
  2: reflexivity.
  2:{ rewrite check_unfold. fields. exact Hex. }
  cbv zeta. unfold _request_next_step, performance_now. fields. cbn [negb].
  unfold timer_strategy in Hst. rewrite Hst.
  unfold result_of, state_of, events_of. fields. settled.
  split; [reflexivity|]. split.
  - unfold on_schedule. fields.
    repeat (split; [reflexivity|]).
    split; [exact Hst|].
    split; [cbn; ring|]. split; [reflexivity|].
    split; [|exact Hf].
    rewrite Ht. cbn [app]. eexists _, _. split; [reflexivity|].
    rewrite Qmax_0_nonneg.
    + cbn. ring.
    + apply Qle_minus_iff.
      setoid_replace (clock (env s) + inject_Z (0 + 1) * _interval (loop s) -
                      clock (env s) + - 0)%Q
        with (_interval (loop s)) by (cbn; ring).
      exact HI.
  - rewrite !calls_of_app, calls_of_guarded_events, calls_of_cycle_events.
    cbn [calls_of app]. rewrite app_nil_r. reflexivity.
Qed.

Lemma last_cons {A} (a d : A) (l : list A) : last (a :: l) d = last l a.
Proof.
  revert a d. induction l as [|b l IH]; intros a d; [reflexivity|].
  change (last (a :: b :: l) d) with (last (b :: l) d).
  rewrite (IH b d), (IH b a). reflexivity.
Qed.

(** Late ticks keep a loop on schedule as long as no tick is later than
    one interval. *)
Lemma late_ticks_on_schedule t0 I L ds : forall n d s,
  on_schedule t0 I L n d s ->
  (d <= I)%Q ->
  Forall (fun x => (0 <= x)%Q /\ (x <= I)%Q) ds ->
  (forall i, n <= i < n + Z.of_nat (length ds) -> exhausted L i = false) ->
  result_of (late_ticks host ds s) = Normal /\
  on_schedule t0 I L (n + Z.of_nat (length ds)) (last ds d)
    (state_of (late_ticks host ds s)) /\
  calls_of (events_of (late_ticks host ds s)) = cycles_from n (length ds).
Proof.
  induction ds as [|d1 ds IH]; intros n d s Hs Hd Hall Hex.
  - cbn [late_ticks skip length last Z.of_nat]. rewrite Z.add_0_r.
    split; [reflexivity|]. split; [exact Hs|reflexivity].
  - inversion Hall as [|x xs [Hd0 HdI] Hall']; subst.
    destruct (late_tick_on_schedule t0 I L n d d1 s Hs Hd Hd0 HdI)
      as (R1 & S1 & _ & C1).
    { apply Hex. cbn [length]. lia. }
    destruct (IH (n + 1) d1 (state_of (late_tick host d1 s)) S1 HdI Hall')
      as (R2 & S2 & C2).
    { intros i Hi. apply Hex. cbn [length]. lia. }
    cbn [late_ticks]. rewrite (andThen_ok _ _ s R1).
    split; [exact R2|]. split.
    + rewrite last_cons. cbn [length].
      replace (n + Z.of_nat (S (length ds))) with (n + 1 + Z.of_nat (length ds)) by lia.
      exact S2.
    + change (calls_of (events_of (late_tick host d1 s) ++
                        events_of (late_ticks host ds (state_of (late_tick host d1 s)))) =
              cycles_from n (length (d1 :: ds))).
      rewrite calls_of_app, C1, C2. reflexivity.
Qed.

(** [play()] puts a stopped loop back on schedule, anchored so that the
    cycle it runs at once is on time. *)
Lemma play_on_schedule s :
  _initialized (loop s) = true ->
  _running (loop s) = false ->
  _kill (loop s) = false ->
  fst (on_play host (resumed s)) = Normal ->
  idle (env s) ->
  timer_strategy (loop s) ->
  (0 <= _interval (loop s))%Q ->
  exhausted (_lifespan (loop s)) (_step_num (loop s)) = false ->
  result_of (play host s) = Normal /\
  on_schedule
    (clock (env s) - inject_Z (_step_num (loop s)) * _interval (loop s))%Q
    (_interval (loop s)) (_lifespan (loop s)) (_step_num (loop s) + 1) 0
    (state_of (play host s)) /\
  calls_of (events_of (play host s)) =
    (OnPlay, _step_num (loop s)) :: cycle_calls (_step_num (loop s)).
Proof.
  intros Hi Hr Hk Hok [Ht Hf] Hst HI Hex.
  rewrite play_unfold, Hi, Hr, Hk. cbn [negb orb].
  assert (Hinv : invoke host OnPlay (resumed s) =
                 (Normal, resumed s, [Call OnPlay (get_step (loop s))])).
  { unfold invoke. cbn [body]. pose proof (Hpassive OnPlay (resumed s)) as P.
    cbn [body] in P. destruct (on_play host (resumed s)) as [o s1].
    cbn [fst snd] in *. subst. reflexivity. }
  rewrite (andThen_normal _ _ _ _ _ Hinv).
  unfold withNow, performance_now.
  rewrite (run_cycle host Hpassive (clock (env (resumed s))) (resumed s) (Hasync _)).
  2: reflexivity.
  2:{ rewrite check_unfold. fields. rewrite Hk, Hex. reflexivity. }
  cbv zeta. unfold _request_next_step, performance_now. fields. cbn [negb].
  unfold timer_strategy in Hst. rewrite Hst.
  unfold result_of, state_of, events_of. fields. settled. fields.
  split; [reflexivity|]. split.
  - unfold on_schedule. fields. unfold performance_now.
    split; [reflexivity|]. split; [exact Hk|].
    repeat (split; [reflexivity|]).
    split; [exact Hst|].
    split.
    { replace (_step_num (loop s) + 1 - 1) with (_step_num (loop s)) by lia.
      generalize (inject_Z (_step_num (loop s))), (_interval (loop s)), (clock (env s)).
      intros a b c. cbn. ring. }
    split; [reflexivity|].
    split; [|exact Hf].
    rewrite Ht. cbn [app]. eexists _, _. split; [reflexivity|].
    rewrite inject_Z_plus.
    revert HI.
    generalize (inject_Z (_step_num (loop s))), (_interval (loop s)), (clock (env s)).
    intros a b c HI.
    rewrite Qmax_0_nonneg.
    + cbn. ring.
    + apply Qle_minus_iff.
      setoid_replace (c - a * b + (a + inject_Z 1) * b - c + - 0)%Q
        with b by (cbn; ring).
      exact HI.
  - cbn [calls_of app]. rewrite calls_of_app, calls_of_cycle_events.
    cbn [calls_of app]. rewrite app_nil_r. reflexivity.
Qed.

End Timing.

Lemma late_ticks_app host a b s :
  late_ticks host (a ++ b) s = andThen (late_ticks host a) (late_ticks host b) s.
Proof.
  revert s. induction a as [|d a IH]; intros s.
  - cbn [late_ticks app]. rewrite andThen_skip_l. reflexivity.
  - cbn [late_ticks app]. rewrite andThen_assoc.
    apply andThen_ext. intros x. apply IH.
Qed.

(** X9: under the timer strategy a late tick delays only its own cycle.
    If, after [start()] at time [t0], every timer callback runs at most one
    interval [I] late, then the cycle run by the [k]-th callback happens at
    [t0 + k * I] plus the lateness of that callback alone, and the next
    callback is again due at the ideal time [t0 + (k + 1) * I].  The hooks
    leave the loop alone and [background] returns its promise. *)
Theorem no_cumulative_drift (host : Host) (s : Sys) (ds : list Q) :
  passive_host host ->
  returns (background host) ->
  idle (env s) ->
  timer_strategy (loop s) ->
  (0 <= _interval (loop s))%Q ->
  Forall (fun d => (0 <= d)%Q /\ (d <= _interval (loop s))%Q) ds ->
  (forall i, 0 <= i <= Z.of_nat (length ds) ->
             exhausted (_lifespan (loop s)) i = false) ->
  let t0 := clock (env s) in
  let I := _interval (loop s) in
  let k := Z.of_nat (length ds) in
  let r := andThen (start host) (late_ticks host ds) s in
  result_of r = Normal /\
  get_step (loop (state_of r)) = 1 + k /\
  (clock (env (state_of r)) == t0 + inject_Z k * I + last ds 0)%Q /\
  (exists id due, timers (env (state_of r)) = [(id, due)] /\
                  (due == t0 + inject_Z (1 + k) * I)%Q) /\
  calls_of (events_of r) = (Initial, 0) :: cycles_from 0 (S (length ds)).
Proof.
  intros Hp Hb Hidle Hst HI Hall Hex t0 I k r.
  destruct (start_on_schedule host Hp Hb s Hidle Hst HI) as (R1 & S1 & C1).
  { apply Hex. lia. }
  destruct (late_ticks_on_schedule host Hp Hb t0 I (_lifespan (loop s)) ds 1 0
              (state_of (start host s)) S1 HI Hall) as (R2 & S2 & C2).
  { intros i Hi. apply Hex. lia. }
  subst r. rewrite (andThen_ok _ _ s R1).
  destruct S2 as (_ & _ & Hn & _ & _ & _ & _ & Hclk & _ & (id & due & Htm & Hdue) & _).
  split; [exact R2|]. split; [exact Hn|]. split; [|split].
  - cbn [state_of fst snd]. cbn [state_of fst snd] in Hclk. rewrite Hclk.
    replace (1 + Z.of_nat (length ds) - 1) with k by (subst k; lia). reflexivity.
  - exists id, due. split; [exact Htm|exact Hdue].
  - change (calls_of (events_of (start host s) ++
                      events_of (late_ticks host ds (state_of (start host s)))) =
            (Initial, 0) :: cycles_from 0 (S (length ds))).
    rewrite calls_of_app, C1, C2. reflexivity.
Qed.

Lemma no_cumulative_drift_witness :
  let s := create 50 (Some 10) false false in
  let ds := [0; 5; 20; 3]%Q in
  let t0 := clock (env s) in
  let I := _interval (loop s) in
  let k := Z.of_nat (length ds) in
  let r := andThen (start failing_hooks) (late_ticks failing_hooks ds) s in
  result_of r = Normal /\
  get_step (loop (state_of r)) = 1 + k /\
  (clock (env (state_of r)) == t0 + inject_Z k * I + last ds 0)%Q /\
  (exists id due, timers (env (state_of r)) = [(id, due)] /\
                  (due == t0 + inject_Z (1 + k) * I)%Q) /\
  calls_of (events_of r) = (Initial, 0) :: cycles_from 0 (S (length ds)).
Proof.
  apply (no_cumulative_drift failing_hooks (create 50 (Some 10) false false)
           [0; 5; 20; 3]%Q).
  - exact passive_failing_hooks.
  - exact async_failing_hooks.
  - split; reflexivity.
  - reflexivity.
  - unfold Qle. cbn. lia.
  - repeat constructor; unfold Qle; cbn; lia.
  - intros i Hi. cbn in Hi |- *. apply Z.leb_gt. lia.
Defined.

(** X11: [play()] resumes the rhythm from the moment of resumption.  On a
    stopped loop resumed at time [T] under the timer strategy, the pending
    cycle runs at once and the following ones are due at [T + I],
    [T + 2 * I], ...: the time spent paused is not made up for by a burst of
    cycles, and late callbacks again delay only their own cycle.  The hooks
    leave the loop alone, [on_play] returns and [background] returns its
    promise. *)
Theorem resume_on_schedule (host : Host) (s : Sys) (ds : list Q) :
  passive_host host ->
  returns (background host) ->
  _initialized (loop s) = true ->
  _running (loop s) = false ->
  _kill (loop s) = false ->
  fst (on_play host (resumed s)) = Normal ->
  idle (env s) ->
  timer_strategy (loop s) ->
  (0 <= _interval (loop s))%Q ->
  Forall (fun d => (0 <= d)%Q /\ (d <= _interval (loop s))%Q) ds ->
  (forall i, get_step (loop s) <= i <= get_step (loop s) + Z.of_nat (length ds) ->
             exhausted (_lifespan (loop s)) i = false) ->
  let T := clock (env s) in
  let I := _interval (loop s) in
  let n := get_step (loop s) in
  let k := Z.of_nat (length ds) in
  let r := andThen (play host) (late_ticks host ds) s in
  result_of r = Normal /\
  get_step (loop (state_of r)) = n + 1 + k /\
  (clock (env (state_of r)) == T + inject_Z k * I + last ds 0)%Q /\
  (exists id due, timers (env (state_of r)) = [(id, due)] /\
                  (due == T + inject_Z (1 + k) * I)%Q) /\
  calls_of (events_of r) = (OnPlay, n) :: cycles_from n (S (length ds)).
Proof.
  intros Hp Hb Hi Hr Hk Hok Hidle Hst HI Hall Hex T I n k r.
  destruct (play_on_schedule host Hp Hb s Hi Hr Hk Hok Hidle Hst HI) as (R1 & S1 & C1).
  { apply Hex. unfold get_step. lia. }
  destruct (late_ticks_on_schedule host Hp Hb _ I (_lifespan (loop s)) ds _ 0
              (state_of (play host s)) S1 HI Hall) as (R2 & S2 & C2).
  { intros i Hi'. apply Hex. unfold get_step. lia. }
  subst r. rewrite (andThen_ok _ _ s R1).
  destruct S2 as (_ & _ & Hn & _ & _ & _ & _ & Hclk & _ & (id & due & Htm & Hdue) & _).
  cbn [state_of fst snd] in *.
  split; [exact R2|]. split; [unfold get_step in *; subst n k; lia|]. split; [|split].
  - rewrite Hclk. subst T I k.
    replace (_step_num (loop s) + 1 + Z.of_nat (length ds) - 1)
      with (_step_num (loop s) + Z.of_nat (length ds)) by lia.
    rewrite inject_Z_plus. ring.
  - exists id, due. split; [exact Htm|]. rewrite Hdue. subst T I k.
    replace (_step_num (loop s) + 1 + Z.of_nat (length ds))
      with (_step_num (loop s) + (1 + Z.of_nat (length ds))) by lia.
    rewrite inject_Z_plus. ring.
  - change (calls_of (events_of (play host s) ++
                      events_of (late_ticks host ds (state_of (play host s)))) =
            (OnPlay, n) :: cycles_from n (S (length ds))).
    rewrite calls_of_app, C1, C2. reflexivity.
Qed.

Lemma resume_on_schedule_witness :
  let s := state_of (script base_class [OpStart; OpElapse 7; OpPause; OpElapse 1000]
                       (create 50 (Some 10) false false)) in
  let ds := [4; 0]%Q in
  let T := clock (env s) in
  let I := _interval (loop s) in
  let n := get_step (loop s) in
  let k := Z.of_nat (length ds) in
  let r := andThen (play base_class) (late_ticks base_class ds) s in
  result_of r = Normal /\
  get_step (loop (state_of r)) = n + 1 + k /\
  (clock (env (state_of r)) == T + inject_Z k * I + last ds 0)%Q /\
  (exists id due, timers (env (state_of r)) = [(id, due)] /\
                  (due == T + inject_Z (1 + k) * I)%Q) /\
  calls_of (events_of r) = (OnPlay, n) :: cycles_from n (S (length ds)).
Proof.
  apply (resume_on_schedule base_class
           (state_of (script base_class [OpStart; OpElapse 7; OpPause; OpElapse 1000]
                        (create 50 (Some 10) false false)))
           [4; 0]%Q).
  - exact passive_base_class.
  - exact async_base_class.
  - reflexivity.
  - reflexivity.
  - reflexivity.
  - reflexivity.
  - split; reflexivity.
  - reflexivity.
  - unfold Qle. cbn. lia.
  - repeat constructor; unfold Qle; cbn; lia.
  - intros i Hi. cbn in Hi |- *. apply Z.leb_gt. lia.
Defined.

(** ** Changing the lifespan of a running loop *)

(** A live loop with a lifespan other than [0] stops by itself: at the
    lifespan when that is still ahead, at the next tick otherwise. *)
Lemma live_run_ends host N n s fuel :
  passive_host host ->
  returns (background host) ->
  live (Some N) n s ->
  N <> 0 ->
  (Z.to_nat (N - n) + 1 <= fuel)%nat ->
  result_of (ticks host fuel s) = Normal /\
  ended (Some N) (Z.max n N) (state_of (ticks host fuel s)) /\
  calls_of (events_of (ticks host fuel s)) =
    cycles_from n (Z.to_nat (N - n)) ++ [(Final, Z.max n N)].
Proof.
  intros Hp Hb Hlive HN Hfuel.
  set (k := Z.to_nat (N - n)).
  assert (Hk : n + Z.of_nat k = Z.max n N) by (subst k; lia).
  destruct (ticks_live host Hp Hb (Some N) k n s Hlive) as (R1 & L1 & C1).
  { intros i Hi. cbn [exhausted].
    replace (N <=? i) with false by (symmetry; apply Z.leb_gt; subst k; lia).
    apply andb_false_r. }
  rewrite Hk in L1.
  set (s1 := state_of (ticks host k s)) in *.
  destruct (tick_end host Hp (Some N) (Z.max n N) s1 L1) as (R2 & E2 & C2).
  { cbn [exhausted].
    replace (N =? 0) with false by (symmetry; apply Z.eqb_neq; exact HN).
    replace (N <=? Z.max n N) with true by (symmetry; apply Z.leb_le; lia).
    reflexivity. }
  set (s2 := state_of (tick host s1)) in *.
  assert (Hi2 : idle (env s2)) by apply E2.
  assert (Hr : ticks host fuel s =
               (Normal, s2, events_of (ticks host k s) ++ events_of (tick host s1) ++ [])).
  { replace fuel with (k + (1 + (fuel - k - 1)))%nat at 1 by (subst k; lia).
    rewrite ticks_add, (andThen_ok _ _ s R1). fold s1.
    cbn [ticks Nat.add]. rewrite (andThen_ok _ _ s1 R2). fold s2.
    rewrite (ticks_idle host _ s2 Hi2). reflexivity. }
  rewrite Hr. split; [reflexivity|]. split; [exact E2|].
  change (calls_of (events_of (ticks host k s) ++ events_of (tick host s1) ++ []) =
          cycles_from n k ++ [(Final, Z.max n N)]).
  rewrite !calls_of_app, C1, C2. cbn [calls_of]. rewrite app_nil_r. reflexivity.
Qed.

(** X12: [extend_lifespan] on a running loop moves the end of the run.
    When a loop running at step [n] has its lifespan changed by [d] to
    [m = (lifespan || 0) + d], with [m] other than [0], it goes on to run
    exactly the cycles [n], ..., [m - 1] and then the termination stage;
    when [m <= n] (the lifespan was reduced to the steps already done or
    fewer) the next tick runs the termination stage and no cycle.  The
    hooks leave the loop alone and [background] returns its promise. *)
Theorem extend_moves_the_end (host : Host) (L : option Z) (n d : Z) (s : Sys)
    (fuel : nat) :
  passive_host host ->
  returns (background host) ->
  live L n s ->
  or_zero L + d <> 0 ->
  (Z.to_nat (or_zero L + d - n) + 1 <= fuel)%nat ->
  let m := or_zero L + d in
  let r := andThen (exec host (OpExtendLifespan (Some d))) (ticks host fuel) s in
  result_of r = Normal /\
  get_lifespan (loop (state_of r)) = Some m /\
  get_step (loop (state_of r)) = Z.max n m /\
  is_running (loop (state_of r)) = false /\
  _kill (loop (state_of r)) = true /\
  calls_of (events_of r) = cycles_from n (Z.to_nat (m - n)) ++ [(Final, Z.max n m)].
Proof.
  intros Hp Hb Hlive Hm Hfuel m r.
  destruct Hlive as (Hi & Hr & Hk & Hn & HL & Hone).
  set (s1 := state_of (exec host (OpExtendLifespan (Some d)) s)).
  assert (Hs1 : s1 = mkSys (set_lifespan (Some m) (loop s)) (env s)).
  { subst s1. cbn [exec assign state_of fst snd]. unfold extend_lifespan.
    rewrite Hi. cbn [negb]. cbn [_kill set_lifespan]. rewrite Hk, HL. reflexivity. }
  assert (Hlive1 : live (Some m) n s1).
  { rewrite Hs1. unfold live. cbn [loop env _initialized _running _kill _step_num
      _lifespan set_lifespan]. auto 7. }
  destruct (live_run_ends host m n s1 fuel Hp Hb Hlive1 Hm Hfuel) as (R & E & C).
  subst r.
  rewrite (andThen_ok (exec host (OpExtendLifespan (Some d))) _ s eq_refl). fold s1.
  cbn [exec assign events_of snd app]. 
  destruct E as (_ & Er & _ & Ek & En & EL & _).
  split; [exact R|]. split; [exact EL|]. split; [exact En|].
  split; [exact Er|]. split; [exact Ek|]. exact C.
Qed.

Lemma extend_moves_the_end_witness :
  let s := state_of (script base_class [OpStart; OpTimerFires 1; OpTimerFires 2]
                       (create 60 (Some 10) false false)) in
  let m := or_zero (Some 10) + -5 in
  let r := andThen (exec base_class (OpExtendLifespan (Some (-5))))
             (ticks base_class 4) s in
  result_of r = Normal /\
  get_lifespan (loop (state_of r)) = Some m /\
  get_step (loop (state_of r)) = Z.max 3 m /\
  is_running (loop (state_of r)) = false /\
  _kill (loop (state_of r)) = true /\
  calls_of (events_of r) = cycles_from 3 (Z.to_nat (m - 3)) ++ [(Final, Z.max 3 m)].
Proof.
  apply (extend_moves_the_end base_class (Some 10) 3 (-5)
           (state_of (script base_class [OpStart; OpTimerFires 1; OpTimerFires 2]
                        (create 60 (Some 10) false false))) 4).
  - exact passive_base_class.
  - exact async_base_class.
  - repeat (split; [vm_compute; reflexivity|]). left. vm_compute.
    eexists _, _. split; reflexivity.
  - discriminate.
  - vm_compute. lia.
Defined.

(** ** Restarting *)

(** X13: [start()] restarts from scratch.  Whatever a loop has been through
    (paused, finished by hand, stopped at its lifespan; any step count), as
    long as no callback is pending and its lifespan is a positive [N],
    [start()] runs the whole lifecycle again: [initial], the cycles
    [0 .. N-1], [final], ending stopped at step [N].  The hooks leave the
    loop alone and [background] returns its promise. *)
Theorem start_restarts_from_scratch (host : Host) (s : Sys) (N : Z) (fuel : nat) :
  passive_host host ->
  returns (background host) ->
  idle (env s) ->
  get_lifespan (loop s) = Some N ->
  0 < N ->
  (Z.to_nat N <= fuel)%nat ->
  let r := andThen (start host) (ticks host fuel) s in
  result_of r = Normal /\
  get_step (loop (state_of r)) = N /\
  is_running (loop (state_of r)) = false /\
  is_paused (loop (state_of r)) = false /\
  _kill (loop (state_of r)) = true /\
  pending (env (state_of r)) = 0%nat /\
  calls_of (events_of r) =
    (Initial, 0) :: cycles_from 0 (Z.to_nat N) ++ [(Final, N)].
Proof.
  intros Hp Hb Hidle HL HN Hfuel r.
  destruct (positive_lifespan_ends host s N fuel Hp Hb Hidle HL HN Hfuel)
    as (Hres & Hend & Hcalls).
  destruct Hend as (_ & Hr & Hpa & Hk & Hn & _ & Hi).
  repeat split; try assumption. apply idle_count, Hi.
Qed.

Lemma start_restarts_from_scratch_witness :
  let s := state_of (script crashing_step
                       [OpStart; OpTimerFires 1; OpTimerFires 2; OpTimerFires 3;
                        OpPause; OpStart; OpTimerFires 5; OpFinish]
                       (create 60 (Some 3) false false)) in
  let r := andThen (start crashing_step) (ticks crashing_step 5) s in
  result_of r = Normal /\
  get_step (loop (state_of r)) = 3 /\
  is_running (loop (state_of r)) = false /\
  is_paused (loop (state_of r)) = false /\
  _kill (loop (state_of r)) = true /\
  pending (env (state_of r)) = 0%nat /\
  calls_of (events_of r) =
    (Initial, 0) :: cycles_from 0 (Z.to_nat 3) ++ [(Final, 3)].
Proof.
  apply (start_restarts_from_scratch crashing_step
           (state_of (script crashing_step
                        [OpStart; OpTimerFires 1; OpTimerFires 2; OpTimerFires 3;
                         OpPause; OpStart; OpTimerFires 5; OpFinish]
                        (create 60 (Some 3) false false))) 3 5).
  - exact passive_crashing_step.
  - exact async_crashing_step.
  - split; vm_compute; reflexivity.
  - vm_compute. reflexivity.
  - reflexivity.
  - vm_compute. lia.
Defined.

(** ** [extend_lifespan] composed with itself *)

(** X14: extensions add up.  As long as the lifespan, the two amounts and
    the sums the code forms are safe integers (on which the doubles of the
    source add exactly), calling [extend_lifespan(a)] and then
    [extend_lifespan(b)] leaves the same lifespan as one call with
    [a + b]; [extend_lifespan] never sets the kill flag and changes nothing
    but the lifespan and the kill flag. *)
Theorem extend_lifespan_adds_up (l : StepLoop) (a b : Z) :
  safe_integer (or_zero (_lifespan l)) ->
  safe_integer a ->
  safe_integer b ->
  safe_integer (a + b) ->
  safe_integer (or_zero (_lifespan l) + a) ->
  safe_integer (or_zero (_lifespan l) + a + b) ->
  let l2 := snd (extend_lifespan (Some b) (snd (extend_lifespan (Some a) l))) in
  get_lifespan l2 = get_lifespan (snd (extend_lifespan (Some (a + b)) l)) /\
  (_kill l = false -> _kill l2 = false) /\
  set_kill (_kill l) (set_lifespan (_lifespan l) l2) = l.
Proof.
  intros _ _ _ _ _ _.
  cbv zeta. destruct l as [n L r i t0 t1 t2 tid ini run pa k av act rid].
  unfold extend_lifespan, get_lifespan.
  destruct ini, k; cbn;
    try (split; [reflexivity | split; [auto | reflexivity]]);
    try (split; [f_equal; lia | split; [auto | reflexivity]]).
  destruct (n <? or_zero L + a) eqn:E1; cbn;
    destruct (n <? or_zero L + a + b) eqn:E2; cbn;
    destruct (n <? or_zero L + (a + b)) eqn:E3; cbn;
    (split; [f_equal; lia|]); (split; [discriminate | reflexivity]).
Qed.

Lemma extend_lifespan_adds_up_witness :
  let l := loop (state_of (script base_class [OpStart; OpTimerFires 1; OpFinish]
                             (create 60 (Some 10) false false))) in
  let l2 := snd (extend_lifespan (Some 7) (snd (extend_lifespan (Some (-9)) l))) in
  get_lifespan l2 = get_lifespan (snd (extend_lifespan (Some (-9 + 7)) l)) /\
  (_kill l = false -> _kill l2 = false) /\
  set_kill (_kill l) (set_lifespan (_lifespan l) l2) = l.
Proof.
  apply (extend_lifespan_adds_up
           (loop (state_of (script base_class [OpStart; OpTimerFires 1; OpFinish]
                              (create 60 (Some 10) false false))))
           (-9) 7); vm_compute; split; discriminate.
Defined.

(** ** Every failure is logged once *)

Lemma errors_of_app t1 t2 : errors_of (t1 ++ t2) = errors_of t1 ++ errors_of t2.
Proof.
  induction t1 as [|[] t1 IH]; cbn [errors_of app]; rewrite ?IH; reflexivity.
Qed.

Lemma fails_by_passive f host : fails_by f host -> passive_host host.
Proof. intros H h s. rewrite H. reflexivity. Qed.

Lemma fails_by_error_prone e : fails_by (error_prone e) (ErrorProneLoop e).
Proof. intros [] s; reflexivity. Qed.

Lemma rejects_by_error_prone e : rejects_by (fun _ => false) (ErrorProneLoop e).
Proof. intros s. reflexivity. Qed.

(** A computation that touches neither the log nor the hooks nor the
    rejection handlers. *)
Lemma accounted_silent f g s o s' t :
  rejections (env s') = rejections (env s) ->
  errors_of t = [] -> calls_of t = [] ->
  only_background (env s) ->
  accounted f g s (o, s', t).
Proof.
  intros Hr He Hc Hb. unfold accounted, only_background in *.
  cbn [state_of events_of fst snd]. rewrite Hr, He, Hc.
  split; [exact Hb|]. split; [reflexivity|]. split; [reflexivity|]. cbn. lia.
Qed.

Section Logging.

Variable f : hook_name -> Z -> bool.
Variable g : Z -> bool.

Lemma accounts_skip : accounts f g skip.
Proof. intros s H. apply accounted_silent; auto. Qed.

Lemma accounts_assign k : accounts f g (assign k).
Proof. intros s H. apply accounted_silent; auto. Qed.

Lemma accounts_andThen a b :
  accounts f g a -> accounts f g b -> accounts f g (andThen a b).
Proof.
  intros Ha Hb s H. unfold andThen.
  specialize (Ha s H). destruct (a s) as [[[|] s1] t1]; [|exact Ha].
  destruct Ha as (B1 & O1 & S1 & C1). cbn [state_of events_of fst snd] in *.
  specialize (Hb s1 B1). destruct (b s1) as [[o s2] t2].
  destruct Hb as (B2 & O2 & S2 & C2). cbn [state_of events_of fst snd] in *.
  unfold accounted. cbn [state_of events_of fst snd].
  rewrite errors_of_app, calls_of_app, !filter_app, map_app, forallb_app, !length_app.
  rewrite O1, O2, S1, S2.
  split; [exact B2|]. split; [reflexivity|]. split; [reflexivity|]. lia.
Qed.

Lemma accounts_withNow k : (forall t, accounts f g (k t)) -> accounts f g (withNow k).
Proof. intros H s. apply H. Qed.

Lemma accounts_cancel : accounts f g _cancel_next_step.
Proof.
  intros s H. unfold _cancel_next_step.
  destruct (_timeoutId (loop s)), (_RAFActive (loop s)), (_RAFId (loop s));
    apply accounted_silent; auto.
Qed.

Lemma accounts_request ts : accounts f g (_request_next_step ts).
Proof.
  intros s H. unfold _request_next_step.
  destruct (negb (_running (loop s))); [apply accounted_silent; auto|].
  destruct (_RAFActive (loop s) && _RAFAvailable (loop s));
    apply accounted_silent; auto.
Qed.

Lemma accounts_rejection_handler : accounts f g rejection_handler.
Proof.
  intros s H. unfold rejection_handler, only_background in *.
  destruct (rejections (env s)) as [|h rest] eqn:E.
  - apply accounted_silent; auto. unfold only_background. rewrite E. reflexivity.
  - cbn [forallb] in H. apply andb_prop in H. destruct H as [Hh Hrest].
    unfold accounted. cbn [state_of events_of fst snd env rejections set_rejections
                             errors_of calls_of filter forallb map length].
    rewrite E. destruct h; try discriminate Hh.
    cbn [caught is_background orb andb filter length].
    split; [exact Hrest|]. split; [reflexivity|]. split; [reflexivity|]. lia.
Qed.

Variable host : Host.
Hypothesis Hfails : fails_by f host.
Hypothesis Hrejects : rejects_by g host.

Lemma accounts_guarded h : caught h = true -> accounts f g (guarded host h).
Proof.
  intros Hc s H. unfold guarded, tryCatch, invoke, emit. rewrite Hfails.
  assert (Hb : is_background h = false) by (destruct h; try reflexivity; discriminate Hc).
  unfold accounted, blamed, rejected_call.
  destruct (f h (get_step (loop s))) eqn:E;
    cbn [state_of events_of fst snd app errors_of calls_of filter map forallb length];
    rewrite ?Hc, ?Hb, ?E; cbn [orb andb filter map length forallb];
    (split; [exact H|]); (split; [reflexivity|]); (split; [reflexivity|]); lia.
Qed.

Lemma accounts_invoke h :
  caught h = false -> is_background h = false -> accounts f g (invoke host h).
Proof.
  intros Hc Hb s H. unfold invoke. rewrite Hfails.
  unfold accounted, blamed, rejected_call.
  cbn [state_of events_of fst snd errors_of calls_of filter map forallb length].
  rewrite Hc, Hb. cbn [andb filter map length].
  split; [exact H|]. split; [reflexivity|]. split; [reflexivity|]. lia.
Qed.

Lemma accounts_spawn : accounts f g (spawn_background host).
Proof.
  intros s H.
  rewrite (spawn_passive host s (fails_by_passive f host Hfails Background)).
  pose proof (Hfails Background s) as Hb. cbn [body] in Hb. rewrite Hb.
  unfold accounted, blamed, rejected_call, after_background, only_background in *.
  rewrite Hrejects.
  destruct (f Background (get_step (loop s))) eqn:E, (g (get_step (loop s))) eqn:G;
    cbn [fst snd state_of events_of errors_of calls_of filter map forallb length
         loop env rejections queue_rejection caught is_background andb negb];
    rewrite ?E, ?G; cbn [andb negb filter map length];
    rewrite ?forallb_app, ?length_app, ?H; cbn [forallb is_background andb length];
    (split; [reflexivity|]); (split; [reflexivity|]); (split; [reflexivity|]); lia.
Qed.

Ltac accounts_steps :=
  repeat first
    [ apply accounts_andThen
    | apply accounts_assign
    | apply accounts_withNow; intros
    | apply accounts_cancel
    | apply accounts_spawn
    | apply accounts_guarded; reflexivity
    | apply accounts_invoke; reflexivity
    | apply accounts_request ].

Lemma accounts_term : accounts f g (_term host).
Proof. unfold _term. accounts_steps. Qed.

Lemma accounts_run ts : accounts f g (_run host ts).
Proof.
  intros s H. unfold _run.
  destruct (_running (loop s)); [|apply accounted_silent; auto].
  destruct (_check_for_end_trigger (loop s)); [apply accounts_term, H|].
  revert s H. accounts_steps.
Qed.

Lemma accounts_start : accounts f g (start host).
Proof. unfold start, _main, _init. accounts_steps. apply accounts_run. Qed.

Lemma accounts_exec o : accounts f g (exec host o).
Proof.
  destruct o; cbn [exec].
  - apply accounts_start.
  - intros s H. unfold pause.
    destruct (negb (_initialized (loop s)) || negb (_running (loop s)) || _kill (loop s));
      [apply accounted_silent; auto|].
    revert s H. accounts_steps.
  - intros s H. unfold play.
    destruct (negb (_initialized (loop s)) || _running (loop s) || _kill (loop s));
      [apply accounted_silent; auto|].
    revert s H. accounts_steps. apply accounts_run.
  - intros s H. unfold finish.
    destruct (negb (_initialized (loop s)) || _kill (loop s));
      [apply accounted_silent; auto|].
    revert s H. unfold _term. accounts_steps.
  - apply accounts_assign.
  - apply accounts_assign.
  - apply accounts_assign.
  - intros s H. unfold timer_fires.
    destruct (due_of id (timers (env s))); [|apply accounted_silent; auto].
    unfold withNow.
    match goal with |- accounted _ _ _ (_run host ?ts ?x) =>
      pose proof (accounts_run ts x H) as A end.
    exact A.
  - intros s H. unfold frame_fires.
    destruct (existsb (Pos.eqb id) (frames (env s))); [|apply accounted_silent; auto].
    match goal with |- accounted _ _ _ (_run host ?ts ?x) =>
      pose proof (accounts_run ts x H) as A end.
    exact A.
  - intros s H. apply accounted_silent; auto.
  - apply accounts_rejection_handler.
Qed.

Lemma accounts_script ops : accounts f g (script host ops).
Proof.
  induction ops as [|o ops IH]; cbn [script].
  - apply accounts_skip.
  - apply accounts_andThen; [apply accounts_exec | exact IH].
Qed.

Lemma accounts_tick : accounts f g (tick host).
Proof.
  intros s H. unfold tick.
  destruct (timers (env s)) as [|[id due] ts].
  - destruct (frames (env s)) as [|id fs]; [apply accounted_silent; auto|].
    apply (accounts_exec (OpFrameFires id (performance_now s))), H.
  - apply (accounts_exec (OpTimerFires id)), H.
Qed.

Lemma accounts_ticks k : accounts f g (ticks host k).
Proof.
  induction k as [|k IH]; cbn [ticks].
  - apply accounts_skip.
  - apply accounts_andThen; [apply accounts_tick | exact IH].
Qed.

End Logging.

(** X15: every failure is reported once, by the handler that catches it.
    For a host whose hooks leave the loop alone, throw depending on the
    hook and the step number it reads, and whose [background] promise is
    rejected depending on the step number, along every sequence of
    operations on a new loop:
    the errors logged by the [catch] blocks are, in order, exactly the
    calls of [initial], [before], [step], [after] and [final] that threw;
    a rejected promise of [background] is logged by its rejection handler
    only, when the environment runs it, so that the errors logged for
    [background] and the handlers still to run together are as many as
    the [background] calls that returned a promise that is rejected;
    nothing else is logged: neither a failure of [on_pause] or [on_play]
    nor an exception thrown by [background] before it returns its
    promise. *)
Theorem caught_failures_logged_once
    (f : hook_name -> Z -> bool) (g : Z -> bool) (host : Host) (ops : list op)
    (sps : Q) (L : option Z) (RAF raf : bool) :
  fails_by f host ->
  rejects_by g host ->
  let r := script host ops (create sps L RAF raf) in
  let t := events_of r in
  filter caught (errors_of t) =
    map fst (filter (fun c => caught (fst c) && f (fst c) (snd c)) (calls_of t)) /\
  (length (filter is_background (errors_of t)) +
   length (rejections (env (state_of r))) =
   length (filter (fun c => is_background (fst c) &&
                            negb (f Background (snd c)) && g (snd c))
             (calls_of t)))%nat /\
  forallb (fun h => caught h || is_background h) (errors_of t) = true.
Proof.
  intros Hf Hg r t.
  destruct (accounts_script f g host Hf Hg ops (create sps L RAF raf) eq_refl)
    as (_ & O & S & C).
  split; [exact S|]. split; [|exact O].
  cbn [create env fresh_env rejections length] in C. exact C.
Qed.

Lemma caught_failures_logged_once_witness :
  let f := fun h n => match h with
                      | Background => n =? 2
                      | OnPause => true
                      | _ => n =? 1
                      end in
  let g := fun n => n =? 0 in
  let host := mkHost (throws_at 1) (throws_at 2) (throws_at 1) (throws_at 1)
                     (throws_at 1) (throws_at 1) throwing (throws_at 1)
                     (fun s => if get_step (loop s) =? 0 then Rejected else Fulfilled) in
  let r := script host
             [OpStart; OpTimerFires 1; OpRejectionHandler; OpTimerFires 2; OpPause]
             (create 100 None false false) in
  let t := events_of r in
  (filter caught (errors_of t) =
     map fst (filter (fun c => caught (fst c) && f (fst c) (snd c)) (calls_of t)) /\
   (length (filter is_background (errors_of t)) +
    length (rejections (env (state_of r))) =
    length (filter (fun c => is_background (fst c) &&
                             negb (f Background (snd c)) && g (snd c))
              (calls_of t)))%nat /\
   forallb (fun h => caught h || is_background h) (errors_of t) = true) /\
  errors_of t = [Before; Step; After; Background] /\
  result_of r = Thrown.
Proof.
  split.
  - apply (caught_failures_logged_once
             (fun h n => match h with
                         | Background => n =? 2
                         | OnPause => true
                         | _ => n =? 1
                         end)
             (fun n => n =? 0)
             (mkHost (throws_at 1) (throws_at 2) (throws_at 1) (throws_at 1)
                     (throws_at 1) (throws_at 1) throwing (throws_at 1)
                     (fun s => if get_step (loop s) =? 0 then Rejected else Fulfilled))
             [OpStart; OpTimerFires 1; OpRejectionHandler; OpTimerFires 2; OpPause]
             100 None false false).
    + intros [] s; reflexivity.
    + intros s. reflexivity.
  - split; vm_compute; reflexivity.
Defined.

(** ** The error-prone loop of the test-suite *)

Lemma only_caught_logged l :
  forallb (fun h => caught h || is_background h) l = true ->
  length (filter is_background l) = 0%nat ->
  filter caught l = l.
Proof.
  induction l as [|h l IH]; intros Ha Hn; [reflexivity|].
  cbn [forallb filter] in *. apply andb_prop in Ha. destruct Ha as [Hh Ha].
  destruct (is_background h) eqn:B; [discriminate Hn|].
  rewrite orb_false_r in Hh. rewrite Hh, (IH Ha Hn). reflexivity.
Qed.

Lemma never_rejected f c : filter (rejected_call f (fun _ => false)) c = [].
Proof.
  induction c as [|x c IH]; [reflexivity|].
  cbn [filter]. unfold rejected_call at 1. rewrite andb_false_r. exact IH.
Qed.

Lemma blamed_cycles e k : forall n,
  map fst (filter (blamed (error_prone e)) (cycles_from n k)) =
  if (n <=? e) && (e <? n + Z.of_nat k) then [Before; Step; After] else [].
Proof.
  induction k as [|k IH]; intros n.
  - cbn [cycles_from filter map]. 
    destruct (n <=? e) eqn:E1, (e <? n + Z.of_nat 0) eqn:E2; try reflexivity.
    apply Z.leb_le in E1. apply Z.ltb_lt in E2. lia.
  - cbn [cycles_from]. rewrite filter_app, map_app, IH.
    unfold cycle_calls, blamed, error_prone.
    cbn [filter fst snd caught andb map].
    destruct (n =? e) eqn:E0; cbn [map fst app].
    + apply Z.eqb_eq in E0. subst e.
      replace (n + 1 <=? n) with false by (symmetry; apply Z.leb_gt; lia).
      rewrite Z.leb_refl.
      replace (n <? n + Z.of_nat (S k)) with true by (symmetry; apply Z.ltb_lt; lia).
      reflexivity.
    + apply Z.eqb_neq in E0.
      destruct (n + 1 <=? e) eqn:E1, (e <? n + 1 + Z.of_nat k) eqn:E2,
               (n <=? e) eqn:E3, (e <? n + Z.of_nat (S k)) eqn:E4;
        try reflexivity; exfalso;
        rewrite ?Z.leb_le, ?Z.leb_gt, ?Z.ltb_lt, ?Z.ltb_ge in *; lia.
Qed.

Lemma times_called_cycles h k : forall n,
  times_called h (cycles_from n k) =
  match h with
  | Background | Before | Step | After => k
  | _ => 0%nat
  end.
Proof.
  induction k as [|k IH]; intros n.
  - destruct h; reflexivity.
  - unfold times_called in *. cbn [cycles_from]. rewrite map_app, count_occ_app, IH.
    destruct h; reflexivity.
Qed.

(** X16: the error-prone loop of the test-suite.  A loop whose [before],
    [step] and [after] throw at step [error_step], constructed with a
    positive lifespan [N], started and left to run, still completes: it
    stops at step [N] with [is_running() == false], [before], [step] and
    [after] have each been called [N] times, and [console.error] has
    reported exactly the three failures of step [error_step] when
    [0 <= error_step < N], none otherwise. *)
Theorem error_prone_loop_completes
    (error_step N : Z) (sps : Q) (RAF raf : bool) (fuel : nat) :
  0 < N ->
  (Z.to_nat N <= fuel)%nat ->
  let host := ErrorProneLoop error_step in
  let r := andThen (start host) (ticks host fuel) (create sps (Some N) RAF raf) in
  result_of r = Normal /\
  is_running (loop (state_of r)) = false /\
  get_step (loop (state_of r)) = N /\
  times_called Before (calls_of (events_of r)) = Z.to_nat N /\
  times_called Step (calls_of (events_of r)) = Z.to_nat N /\
  times_called After (calls_of (events_of r)) = Z.to_nat N /\
  errors_of (events_of r) =
    (if (0 <=? error_step) && (error_step <? N) then [Before; Step; After] else []).
Proof.
  intros HN Hfuel host r.
  pose proof (fails_by_error_prone error_step) as Hf. fold host in Hf.
  destruct (positive_lifespan_ends host (create sps (Some N) RAF raf) N fuel)
    as (Hres & Hend & Hcalls); try assumption.
  { eapply fails_by_passive, Hf. }
  { intros x. reflexivity. }
  { apply idle_create. }
  { reflexivity. }
  fold r in Hres, Hend, Hcalls.
  destruct Hend as (_ & Hr & _ & _ & Hn & _).
  assert (Hlog : errors_of (events_of r) =
                 map fst (filter (blamed (error_prone error_step))
                            (calls_of (events_of r)))).
  { pose proof (rejects_by_error_prone error_step) as Hg. fold host in Hg.
    destruct (accounts_andThen _ _ _ _
                (accounts_start _ _ host Hf Hg) (accounts_ticks _ _ host Hf Hg fuel)
                (create sps (Some N) RAF raf) eq_refl) as (_ & O & S & C).
    fold r in O, S, C.
    rewrite never_rejected in C. cbn [create env fresh_env rejections length] in C.
    rewrite <- S. symmetry. apply only_caught_logged; [exact O|lia]. }
  assert (Hcnt : forall h, times_called h (calls_of (events_of r)) =
                   (times_called h [(Initial, 0%Z)] +
                    times_called h (cycles_from 0%Z (Z.to_nat N)) +
                    times_called h [(Final, N)])%nat).
  { intros h. rewrite Hcalls. unfold times_called.
    change ((Initial, 0) :: cycles_from 0 (Z.to_nat N) ++ [(Final, N)])
      with ([(Initial, 0)] ++ cycles_from 0 (Z.to_nat N) ++ [(Final, N)]).
    rewrite !map_app, !count_occ_app. lia. }
  split; [exact Hres|]. split; [exact Hr|]. split; [exact Hn|].
  split; [rewrite Hcnt, times_called_cycles; cbn; lia|].
  split; [rewrite Hcnt, times_called_cycles; cbn; lia|].
  split; [rewrite Hcnt, times_called_cycles; cbn; lia|].
  rewrite Hlog, Hcalls.
  change ((Initial, 0) :: cycles_from 0 (Z.to_nat N) ++ [(Final, N)])
    with ([(Initial, 0)] ++ cycles_from 0 (Z.to_nat N) ++ [(Final, N)]).
  rewrite !filter_app, !map_app, blamed_cycles.
  cbn [filter blamed error_prone fst snd caught andb map app].
  rewrite app_nil_r. rewrite Z2Nat.id by lia. reflexivity.
Qed.

Lemma error_prone_loop_completes_witness :
  let host := ErrorProneLoop 5 in
  let r := andThen (start host) (ticks host 25) (create 100 (Some 20) false false) in
  result_of r = Normal /\
  is_running (loop (state_of r)) = false /\
  get_step (loop (state_of r)) = 20 /\
  times_called Before (calls_of (events_of r)) = Z.to_nat 20 /\
  times_called Step (calls_of (events_of r)) = Z.to_nat 20 /\
  times_called After (calls_of (events_of r)) = Z.to_nat 20 /\
  errors_of (events_of r) =
    (if (0 <=? 5) && (5 <? 20) then [Before; Step; After] else []).
Proof.
  apply (error_prone_loop_completes 5 20 100 false false 25).
  - reflexivity.
  - vm_compute. lia.
Defined.

(** ** The loop paced by animation frames *)

Lemma uses_timer_guarded_events host h s :
  existsb uses_timer (guarded_events host h s) = false.
Proof. unfold guarded_events. destruct (fst (body host h s)); reflexivity. Qed.

Lemma uses_timer_cycle_events host s :
  existsb uses_timer (cycle_events host s) = false.
Proof.
  unfold cycle_events. cbv zeta. cbn [existsb uses_timer orb].
  rewrite !existsb_app, !uses_timer_guarded_events. reflexivity.
Qed.

Section Frames.

Variable host : Host.
Hypothesis Hpassive : passive_host host.
Hypothesis Hasync : returns (background host).

(** One frame of a loop paced by animation frames. *)
Lemma frame_tick_on_frames L n t ts s :
  on_frames L n t s ->
  exhausted L n = false ->
  result_of (frame_tick host ts s) = Normal /\
  on_frames L (n + 1) ts (state_of (frame_tick host ts s)) /\
  _lastStepDuration (loop (state_of (frame_tick host ts s))) = (ts - t)%Q /\
  existsb uses_timer (events_of (frame_tick host ts s)) = false /\
  calls_of (events_of (frame_tick host ts s)) = cycle_calls n.
Proof.
  intros (Hr & Hk & Hn & HL & Ha & Hv & Hlast & Htm & (id & Hfr & _)) Hex.
  unfold frame_tick, frame_fires. rewrite Hfr. cbn [existsb].
  rewrite Pos.eqb_refl. cbn [orb].
  set (e1 := cancelAnimationFrame id (env s)).
  assert (Het : timers e1 = []) by exact Htm.
  assert (Hef : frames e1 = []).
  { subst e1. cbn [frames cancelAnimationFrame]. rewrite Hfr.
    unfold forget. cbn [filter]. rewrite Pos.eqb_refl. reflexivity. }
  clearbody e1.
  assert (Hc : _check_for_end_trigger (loop s) = false).
  { rewrite check_unfold, Hk, HL, Hn, Hex. reflexivity. }
  rewrite (run_cycle host Hpassive ts (mkSys (loop s) e1) (Hasync _) Hr Hc).
  cbv zeta. unfold _request_next_step, performance_now. fields.
  rewrite Hr, Ha, Hv. cbn [negb andb].
  unfold result_of, state_of, events_of. fields. settled.
  split; [reflexivity|]. split; [|split; [|split]].
  - unfold on_frames. fields.
    split; [exact Hr|]. split; [exact Hk|]. split; [rewrite Hn; reflexivity|].
    split; [exact HL|]. split; [exact Ha|]. split; [exact Hv|].
    split; [reflexivity|]. split; [exact Het|].
    rewrite Hef. eexists. split; reflexivity.
  - rewrite Hlast. reflexivity.
  - rewrite existsb_app, uses_timer_cycle_events. reflexivity.
  - rewrite calls_of_app, calls_of_cycle_events. cbn [calls_of app loop].
    unfold get_step. rewrite Hn, app_nil_r. reflexivity.
Qed.

Lemma start_on_frames s :
  idle (env s) ->
  _RAFActive (loop s) = true ->
  _RAFAvailable (loop s) = true ->
  exhausted (_lifespan (loop s)) 0 = false ->
  result_of (start host s) = Normal /\
  on_frames (_lifespan (loop s)) 1 (clock (env s)) (state_of (start host s)) /\
  existsb uses_timer (events_of (start host s)) = false /\
  calls_of (events_of (start host s)) = (Initial, 0) :: cycle_calls 0.
Proof.
  intros [Ht Hf] Ha Hv Hex. unfold start, _main, _init.
  rewrite andThen_assign, andThen_withNow, andThen_assign.
  repeat (rewrite andThen_assoc || rewrite andThen_assign).
  rewrite andThen_guarded by apply (Hpassive Initial).
  unfold withNow, performance_now. fields.
  match goal with |- context [_run host ?ts ?x] =>
    rewrite (run_cycle host Hpassive ts x (Hasync _)) end.
  2: reflexivity.
  2:{ rewrite check_unfold. fields. exact Hex. }
  cbv zeta. unfold _request_next_step, performance_now. fields. cbn [negb].
  rewrite Ha, Hv. cbn [andb].
  unfold result_of, state_of, events_of. fields. settled.
  split; [reflexivity|]. split; [|split].
  - unfold on_frames. fields.
    repeat (split; [reflexivity|]).
    split; [exact Ha|]. split; [exact Hv|]. split; [reflexivity|].
    split; [exact Ht|]. rewrite Hf. eexists. split; reflexivity.
  - rewrite !existsb_app, uses_timer_guarded_events, uses_timer_cycle_events.
    reflexivity.
  - rewrite !calls_of_app, calls_of_guarded_events, calls_of_cycle_events.
    cbn [calls_of app]. rewrite app_nil_r. reflexivity.
Qed.

Lemma frame_ticks_on_frames L tss : forall n t s,
  on_frames L n t s ->
  (forall i, n <= i < n + Z.of_nat (length tss) -> exhausted L i = false) ->
  result_of (frame_ticks host tss s) = Normal /\
  on_frames L (n + Z.of_nat (length tss)) (last tss t)
    (state_of (frame_ticks host tss s)) /\
  existsb uses_timer (events_of (frame_ticks host tss s)) = false /\
  calls_of (events_of (frame_ticks host tss s)) = cycles_from n (length tss).
Proof.
  induction tss as [|ts tss IH]; intros n t s Hs Hex.
  - cbn [frame_ticks skip length last Z.of_nat]. rewrite Z.add_0_r.
    split; [reflexivity|]. split; [exact Hs|]. split; reflexivity.
  - destruct (frame_tick_on_frames L n t ts s Hs) as (R1 & S1 & _ & T1 & C1).
    { apply Hex. cbn [length]. lia. }
    destruct (IH (n + 1) ts (state_of (frame_tick host ts s)) S1)
      as (R2 & S2 & T2 & C2).
    { intros i Hi. apply Hex. cbn [length]. lia. }
    cbn [frame_ticks]. rewrite (andThen_ok _ _ s R1).
    unfold result_of, state_of, events_of in *. cbn [fst snd].
    split; [exact R2|]. split; [|split].
    + rewrite last_cons.
      replace (n + Z.of_nat (length (ts :: tss)))
        with (n + 1 + Z.of_nat (length tss)) by (cbn [length]; lia).
      exact S2.
    + rewrite existsb_app, T1, T2. reflexivity.
    + rewrite calls_of_app, C1, C2. reflexivity.
Qed.

End Frames.

Lemma frame_ticks_app host a b s :
  frame_ticks host (a ++ b) s = andThen (frame_ticks host a) (frame_ticks host b) s.
Proof.
  revert s. induction a as [|d a IH]; intros s.
  - cbn [frame_ticks app]. rewrite andThen_skip_l. reflexivity.
  - cbn [frame_ticks app]. rewrite andThen_assoc.
    apply andThen_ext. intros x. apply IH.
Qed.

(** X17: with [requestAnimationFrame] in use the frames set the pace, not
    the rate.  A loop whose [RAF] toggle is on, where
    [requestAnimationFrame] exists, started and then driven by animation
    frames with any refresh timestamps, runs exactly one cycle per frame
    and never calls [setTimeout] or [clearTimeout]; after each frame the
    next one is the only pending callback, the last step time is the
    frame's timestamp and the last step duration is the difference of the
    last two timestamps, whatever [sps] is.  The hooks leave the loop alone
    and [background] returns its promise. *)
Theorem frames_set_the_pace (host : Host) (s : Sys) (tss : list Q) (ts : Q) :
  passive_host host ->
  returns (background host) ->
  idle (env s) ->
  _RAFActive (loop s) = true ->
  _RAFAvailable (loop s) = true ->
  (forall i, 0 <= i <= Z.of_nat (length tss) + 1 ->
             exhausted (_lifespan (loop s)) i = false) ->
  let r := andThen (start host) (frame_ticks host (tss ++ [ts])) s in
  result_of r = Normal /\
  get_step (loop (state_of r)) = 2 + Z.of_nat (length tss) /\
  _lastStepTime (loop (state_of r)) = ts /\
  _lastStepDuration (loop (state_of r)) = (ts - last tss (clock (env s)))%Q /\
  timers (env (state_of r)) = [] /\
  (exists id, frames (env (state_of r)) = [id] /\
              _RAFId (loop (state_of r)) = Some id) /\
  existsb uses_timer (events_of r) = false /\
  calls_of (events_of r) = (Initial, 0) :: cycles_from 0 (2 + length tss).
Proof.
  intros Hp Hb Hidle Ha Hv Hex r.
  destruct (start_on_frames host Hp Hb s Hidle Ha Hv) as (R1 & S1 & T1 & C1).
  { apply Hex. lia. }
  destruct (frame_ticks_on_frames host Hp Hb (_lifespan (loop s)) tss 1
              (clock (env s)) (state_of (start host s)) S1) as (R2 & S2 & T2 & C2).
  { intros i Hi. apply Hex. lia. }
  set (s1 := state_of (start host s)) in *.
  set (s2 := state_of (frame_ticks host tss s1)) in *.
  destruct (frame_tick_on_frames host Hp Hb (_lifespan (loop s))
              (1 + Z.of_nat (length tss)) (last tss (clock (env s))) ts s2 S2)
    as (R3 & S3 & D3 & T3 & C3).
  { apply Hex. lia. }
  assert (Hr : r = (Normal, state_of (frame_tick host ts s2),
                    events_of (start host s) ++
                    events_of (frame_ticks host tss s1) ++
                    events_of (frame_tick host ts s2) ++ [])).
  { subst r. rewrite (andThen_ok _ _ s R1). fold s1.
    rewrite frame_ticks_app, (andThen_ok _ _ s1 R2). fold s2.
    cbn [frame_ticks]. rewrite (andThen_ok _ _ s2 R3).
    unfold skip, result_of, state_of, events_of. cbn [fst snd]. reflexivity. }
  set (s3 := state_of (frame_tick host ts s2)) in *.
  set (e1 := events_of (start host s)) in *.
  set (e2 := events_of (frame_ticks host tss s1)) in *.
  set (e3 := events_of (frame_tick host ts s2)) in *.
  rewrite Hr. unfold result_of, state_of, events_of. cbn [fst snd].
  destruct S3 as (_ & _ & Hn & _ & _ & _ & Hl & Htm & Hfr).
  split; [reflexivity|]. split; [unfold get_step; rewrite Hn; lia|].
  split; [exact Hl|]. split; [exact D3|]. split; [exact Htm|].
  split; [exact Hfr|]. split.
  - rewrite !existsb_app, T1, T2, T3. reflexivity.
  - rewrite !calls_of_app, C1, C2, C3. cbn [calls_of]. rewrite app_nil_r.
    change (2 + length tss)%nat with (S (S (length tss))).
    replace (S (length tss)) with (length tss + 1)%nat by lia.
    cbn [cycles_from]. rewrite cycles_from_app. cbn [cycles_from].
    rewrite app_nil_r. cbn [app]. 
    replace (0 + 1 + Z.of_nat (length tss)) with (1 + Z.of_nat (length tss)) by lia.
    reflexivity.
Qed.

Lemma frames_set_the_pace_witness :
  let s := create 60 (Some 10) true true in
  let r := andThen (start failing_hooks)
             (frame_ticks failing_hooks ([16%Q; 33%Q] ++ [50%Q])) s in
  result_of r = Normal /\
  get_step (loop (state_of r)) = 2 + Z.of_nat (length [16%Q; 33%Q]) /\
  _lastStepTime (loop (state_of r)) = 50%Q /\
  _lastStepDuration (loop (state_of r)) = (50 - last [16%Q; 33%Q] (clock (env s)))%Q /\
  timers (env (state_of r)) = [] /\
  (exists id, frames (env (state_of r)) = [id] /\
              _RAFId (loop (state_of r)) = Some id) /\
  existsb uses_timer (events_of r) = false /\
  calls_of (events_of r) = (Initial, 0) :: cycles_from 0 (2 + length [16%Q; 33%Q]).
Proof.
  apply (frames_set_the_pace failing_hooks (create 60 (Some 10) true true)
           [16%Q; 33%Q] 50%Q).
  - exact passive_failing_hooks.
  - exact async_failing_hooks.
  - split; reflexivity.
  - reflexivity.
  - reflexivity.
  - intros i Hi. cbn in Hi |- *. apply Z.leb_gt. lia.
Defined.

(** ** An exception thrown by [background] *)

Lemma passive_crashing_background : passive_host crashing_background.
Proof. intros [] s; reflexivity. Qed.

(** X18: the call of [background] is the one hook call of a cycle that is
    not guarded.  For a subclass whose [background] is not [async] and
    throws, [start()] throws: [initial] and [background] are the only hooks
    called, nothing is logged for [background], the loop is left marked
    running at step 0 with nothing requested and no rejection handler
    queued, so that it never advances. *)
Theorem background_throw_escapes (host : Host) (s : Sys) (k : nat) :
  passive_host host ->
  (forall x, fst (background host x) = Thrown) ->
  idle (env s) ->
  exhausted (_lifespan (loop s)) 0 = false ->
  let r := start host s in
  result_of r = Thrown /\
  calls_of (events_of r) = [(Initial, 0); (Background, 0)] /\
  ~ In (ConsoleError Background) (events_of r) /\
  is_running (loop (state_of r)) = true /\
  get_step (loop (state_of r)) = 0 /\
  env (state_of r) = env s /\
  ticks host k (state_of r) = (Normal, state_of r, []).
Proof.
  intros Hp Hb Hidle Hex r. subst r. unfold start, _main, _init.
  rewrite andThen_assign, andThen_withNow, andThen_assign.
  repeat (rewrite andThen_assoc || rewrite andThen_assign).
  rewrite andThen_guarded by apply (Hp Initial).
  unfold withNow, performance_now. fields.
  match goal with |- context [_run host ?ts ?x] =>
    rewrite (run_escape host Hp ts x (Hb x)) end.
  2: reflexivity.
  2:{ rewrite check_unfold. fields. exact Hex. }
  unfold result_of, state_of, events_of. fields.
  split; [reflexivity|]. split; [|split; [|split; [|split; [|split]]]].
  - rewrite calls_of_app, calls_of_guarded_events. reflexivity.
  - unfold guarded_events. intros H. apply in_app_or in H.
    destruct H as [H|[H|[]]]; [|discriminate H].
    destruct (fst (body host Initial _)); cbn in H;
      repeat (destruct H as [H|H]; try discriminate H); exact H.
  - reflexivity.
  - reflexivity.
  - reflexivity.
  - apply (ticks_idle host). exact Hidle.
Qed.

Lemma background_throw_escapes_witness :
  let r := start crashing_background (create 60 (Some 5) false false) in
  result_of r = Thrown /\
  calls_of (events_of r) = [(Initial, 0); (Background, 0)] /\
  ~ In (ConsoleError Background) (events_of r) /\
  is_running (loop (state_of r)) = true /\
  get_step (loop (state_of r)) = 0 /\
  env (state_of r) = env (create 60 (Some 5) false false) /\
  ticks crashing_background 3 (state_of r) = (Normal, state_of r, []).
Proof.
  apply (background_throw_escapes crashing_background
           (create 60 (Some 5) false false) 3).
  - exact passive_crashing_background.
  - intros x. reflexivity.
  - split; reflexivity.
  - reflexivity.
Defined.
